(** * Boundly: the usage-limit blocking policy

    A shallow embedding of the blocking decision engine of the Boundly
    application: the JavaScript hook [useBlockingService], the zustand
    stores it reads, and the Kotlin services ([BlockingService],
    [AppBlockingAccessibilityService]) and native modules
    ([ForegroundAppModuleImpl], [UsageStatsModuleImpl]) behind it.

    Numbers are integers ([Z]): every quantity here is a count of
    milliseconds.  A JS object used as a dictionary is a [gmap string Z];
    reading a missing key gives [None] (JS [undefined]).  Code that talks
    to the operating system runs in a small monad that threads a mutable
    state, records the calls and log lines it makes, and can throw. *)

From Stdlib Require Import ZArith String Ascii List Bool Lia.
From stdpp Require Import base option strings gmap list pretty.
Import ListNotations.
Local Open Scope Z_scope.

(** ** Effects *)

(** The outcome of a call that may throw (a rejected promise in JS, an
    exception in Kotlin); the payload of [Threw] is the error message. *)
Inductive Try (A : Type) : Type :=
| Ok (a : A)
| Threw (msg : string).
Arguments Ok {A} a.
Arguments Threw {A} msg.

(** A computation over a mutable state [S] that records events [E]. *)
Definition Eff (S E A : Type) : Type := S → S * list E * Try A.

Definition eff_ret {S E A} (a : A) : Eff S E A := λ s, (s, [], Ok a).

Definition eff_bind {S E A B} (f : A → Eff S E B) (m : Eff S E A) : Eff S E B :=
  λ s, match m s with
       | (s1, t1, Ok a) =>
           match f a s1 with (s2, t2, r) => (s2, t1 ++ t2, r) end
       | (s1, t1, Threw e) => (s1, t1, Threw e)
       end.

#[global] Instance Eff_ret {S E} : MRet (Eff S E) := λ A, eff_ret.
#[global] Instance Eff_bind {S E} : MBind (Eff S E) := λ A B, eff_bind.

Definition emit {S E} (e : E) : Eff S E unit := λ s, (s, [e], Ok tt).
Definition throw {S E A} (msg : string) : Eff S E A := λ s, (s, [], Threw msg).
Definition lift {S E A} (r : Try A) : Eff S E A := λ s, (s, [], r).
Definition get {S E} : Eff S E S := λ s, (s, [], Ok s).
Definition modify {S E} (f : S → S) : Eff S E unit := λ s, (f s, [], Ok tt).

(** [try { m } catch (e) { h e }]: state changes and events made before the
    throw are kept. *)
Definition catch {S E A} (m : Eff S E A) (h : string → Eff S E A) : Eff S E A :=
  λ s, match m s with
       | (s1, t1, Threw e) =>
           match h e s1 with (s2, t2, r) => (s2, t1 ++ t2, r) end
       | done => done
       end.

Definition state_of {S E A} (r : S * list E * Try A) : S := r.1.1.
Definition trace_of {S E A} (r : S * list E * Try A) : list E := r.1.2.
Definition value_of {S E A} (r : S * list E * Try A) : Try A := r.2.

(** ** The JavaScript side *)

Module JS.

(** [SelectedApp] of useAppStore.ts. *)
Record SelectedApp := { packageName : string; appName : string }.

(** [BlockedApp] of useBlockingService.ts: the BlockState. *)
Record BlockedApp := {
  blocked_packageName : string;
  blocked_appName : string;
  usageMs : Z;
  limitMs : Z }.

(** [ForegroundAppInfo] of NativeForegroundAppModule.ts. *)
Record ForegroundAppInfo := { fg_packageName : string; fg_appName : string }.

(** [UsageStat] of NativeUsageStatsModule.ts. *)
Record UsageStat := {
  stat_packageName : string;
  stat_appName : string;
  totalTimeInForeground : Z }.

(** [AppLimit] of NativeBlockingServiceModule.ts. *)
Record AppLimit := { lim_packageName : string; lim_limitMs : Z }.

(** State of useUsageStore. *)
Record UsageStore := {
  todayUsage : gmap string Z;
  yesterdayUsage : gmap string Z;
  lastUpdated : option Z;
  isLoading : bool }.

(** State of useLimitsStore. *)
Record LimitsStore := { limits : gmap string Z }.

(** What one run of the hook's code does to the outside: console lines,
    React state setters, calls into the native modules and writes to the
    MMKV storage (the payload is the value handed to JSON.stringify). *)
Inductive Event :=
| console_log (msg : string)
| console_error (msg error : string)
| setBlockedApp (b : option BlockedApp)
| setIsServiceRunning (b : bool)
| getCurrentForegroundApp
| getTodayUsageStats
| startBlockingService (apps : list string) (limitsArray : list AppLimit)
| stopBlockingService
| storage_set_limits (newLimits : gmap string Z)
| storage_set_usage (today yesterday : gmap string Z) (updated : Z).

(** The native modules as the JS runtime sees them during one run.  A module
    is [None] when the TurboModule registry has no such module.  The
    foreground query is asked once per candidate, so it is indexed by the
    number of earlier queries of the run. *)
Record Runtime := {
  ForegroundAppModule : option (nat → Try (option ForegroundAppInfo));
  UsageStatsModule : option (Try (list UsageStat));
  BlockingServiceModule : option (Try unit * Try unit);
  Date_now : Z }.

(** *** useLimitsStore *)

Definition setLimit (packageName : string) (limitMs : Z) : Eff LimitsStore Event unit :=
  state ← get;
  let newLimits := <[packageName := limitMs]> (limits state) in
  emit (storage_set_limits newLimits);;
  modify (λ _, {| limits := newLimits |}).

Definition getLimit (packageName : string) (state : LimitsStore) : option Z :=
  limits state !! packageName.

Definition removeLimit (packageName : string) : Eff LimitsStore Event unit :=
  state ← get;
  let newLimits := delete packageName (limits state) in
  emit (storage_set_limits newLimits);;
  modify (λ _, {| limits := newLimits |}).

(** *** useUsageStore *)

Definition stats_to_map (stats : list UsageStat) : gmap string Z :=
  foldl (λ m stat, <[stat_packageName stat := totalTimeInForeground stat]> m) ∅ stats.

Definition refreshUsage (rt : Runtime) : Eff UsageStore Event unit :=
  match UsageStatsModule rt with
  | None => mret tt
  | Some native_getTodayUsageStats =>
      modify (λ st, {| todayUsage := todayUsage st;
                       yesterdayUsage := yesterdayUsage st;
                       lastUpdated := lastUpdated st;
                       isLoading := true |});;
      catch
        (emit getTodayUsageStats;;
         stats ← lift native_getTodayUsageStats;
         let today := stats_to_map stats in
         st ← get;
         let previousTodayUsage := todayUsage st in
         modify (λ _, {| todayUsage := today;
                         yesterdayUsage := previousTodayUsage;
                         lastUpdated := Some (Date_now rt);
                         isLoading := false |});;
         emit (storage_set_usage today previousTodayUsage (Date_now rt)))
        (λ error,
         emit (console_error "Error refreshing usage stats:" error);;
         modify (λ st, {| todayUsage := todayUsage st;
                          yesterdayUsage := yesterdayUsage st;
                          lastUpdated := lastUpdated st;
                          isLoading := false |}))
  end.

(** *** useBlockingService *)

(** [selectedApps.some(app => limit !== undefined && limit > 0)]. *)
Definition hasActiveLimits (selectedApps : list SelectedApp) (limits : gmap string Z) : bool :=
  existsb (λ app, match limits !! packageName app with
                  | Some limit => bool_decide (0 < limit)
                  | None => false
                  end) selectedApps.

(** [foregroundApp?.packageName === app.packageName || !foregroundApp]. *)
Definition foreground_allows (foregroundApp : option ForegroundAppInfo) (app : SelectedApp) : bool :=
  match foregroundApp with
  | Some info => bool_decide (fg_packageName info = packageName app)
  | None => true
  end.

(** The [for (const app of selectedApps)] loop of checkForBlockedApp together
    with the [setBlockedApp(null)] that follows it; [asked] counts the
    foreground queries made so far. *)
Fixpoint scan (getFg : nat → Try (option ForegroundAppInfo))
    (limits currentUsage : gmap string Z) (asked : nat)
    (selectedApps : list SelectedApp) : Eff UsageStore Event unit :=
  match selectedApps with
  | [] => emit (setBlockedApp None)
  | app :: rest =>
      match limits !! packageName app with
      | None => scan getFg limits currentUsage asked rest
      | Some limitMs =>
          if bool_decide (limitMs = 0) then scan getFg limits currentUsage asked rest
          else
            let usageMs := default 0 (currentUsage !! packageName app) in
            if bool_decide (limitMs ≤ usageMs) then
              emit getCurrentForegroundApp;;
              foregroundApp ← lift (getFg asked);
              if foreground_allows foregroundApp app then
                emit (console_log ("BlockingService: Showing blocking screen for: " +:+ packageName app));;
                emit (setBlockedApp (Some {| blocked_packageName := packageName app;
                                             blocked_appName := appName app;
                                             usageMs := usageMs;
                                             limitMs := limitMs |}))
              else scan getFg limits currentUsage (S asked) rest
            else scan getFg limits currentUsage asked rest
      end
  end.

Definition checkForBlockedApp (rt : Runtime) (selectedApps : list SelectedApp)
    (limits : gmap string Z) : Eff UsageStore Event unit :=
  catch
    (match ForegroundAppModule rt with
     | None => mret tt
     | Some getFg =>
         if negb (hasActiveLimits selectedApps limits) then emit (setBlockedApp None)
         else
           refreshUsage rt;;
           usageStoreState ← get;
           let currentUsage := todayUsage usageStoreState in
           scan getFg limits currentUsage 0%nat selectedApps
     end)
    (λ error, emit (console_error "BlockingService: Error checking for blocked app:" error)).

Definition stopService (rt : Runtime) : Eff UsageStore Event unit :=
  catch
    (match BlockingServiceModule rt with
     | None => mret tt
     | Some (_, native_stop) =>
         emit (console_log "BlockingService: Stopping service");;
         emit stopBlockingService;;
         lift native_stop;;
         emit (setIsServiceRunning false);;
         emit (setBlockedApp None);;
         emit (console_log "BlockingService: Service stopped")
     end)
    (λ error, emit (console_error "BlockingService: Error stopping service:" error)).

(** The [limitsArray] built by startService: [limit && limit > 0]. *)
Definition limitsArray (selectedApps : list SelectedApp) (limits : gmap string Z) : list AppLimit :=
  omap (λ app, match limits !! packageName app with
               | Some limit =>
                   if bool_decide (0 < limit)
                   then Some {| lim_packageName := packageName app; lim_limitMs := limit |}
                   else None
               | None => None
               end) selectedApps.

Definition startService (rt : Runtime) (selectedApps : list SelectedApp)
    (limits : gmap string Z) : Eff UsageStore Event unit :=
  catch
    (match BlockingServiceModule rt with
     | None => emit (console_error "BlockingService: Module not available" EmptyString)
     | Some (native_start, _) =>
         let appPackageNames := map packageName selectedApps in
         let limitsArray := limitsArray selectedApps limits in
         if bool_decide (appPackageNames = []) || bool_decide (limitsArray = []) then
           emit (console_log "BlockingService: No apps to block, stopping service");;
           stopService rt
         else
           emit (console_log "BlockingService: Starting service");;
           emit (startBlockingService appPackageNames limitsArray);;
           lift native_start;;
           emit (setIsServiceRunning true);;
           emit (console_log "BlockingService: Service started successfully")
     end)
    (λ error,
     emit (console_error "BlockingService: Error starting service:" error);;
     emit (setIsServiceRunning false)).

(** The effect [useEffect(..., [selectedApps, limits])] that starts or stops
    the service whenever the selection or the limits change. *)
Definition limitsEffect (rt : Runtime) (selectedApps : list SelectedApp)
    (limits : gmap string Z) : Eff UsageStore Event unit :=
  match BlockingServiceModule rt with
  | None => mret tt
  | Some _ =>
      if hasActiveLimits selectedApps limits
      then startService rt selectedApps limits
      else stopService rt
  end.

(** The BlockStates a run has emitted, in order. *)
Definition emitted (t : list Event) : list BlockedApp :=
  omap (λ ev, match ev with setBlockedApp (Some b) => Some b | _ => None end) t.

(** *** The stores, continued *)

Inductive StorageKey := SELECTED_APPS | APP_LIMITS | USAGE_STATS.

(** What the store actions below do to the outside: a write of the selection
    to the MMKV storage (the payload is the value handed to JSON.stringify)
    and a console line. *)
Inductive StoreEvent :=
| storage_set_apps (newApps : list SelectedApp)
| store_console_error (msg error : string).

(** [storage.delete(key)].  The storage is the instance made by [createMMKV]
    in storage.ts; such an instance has [remove] and no [delete], so the
    call throws a TypeError and the key keeps its value. *)
Definition TypeError_delete : string := "TypeError: storage.delete is not a function".

Definition storage_delete {S} (key : StorageKey) : Eff S StoreEvent unit :=
  throw TypeError_delete.

(** useAppStore.ts. *)
Module useAppStore.

Record AppStore := { selectedApps : list SelectedApp }.

Definition addApp (app : SelectedApp) : Eff AppStore StoreEvent unit :=
  state ← get;
  if existsb (λ a, bool_decide (packageName a = packageName app)) (selectedApps state)
  then mret tt
  else
    let newApps := selectedApps state ++ [app] in
    emit (storage_set_apps newApps);;
    modify (λ _, {| selectedApps := newApps |}).

Definition removeApp (packageName' : string) : Eff AppStore StoreEvent unit :=
  state ← get;
  let newApps :=
    List.filter (λ app, bool_decide (packageName app ≠ packageName')) (selectedApps state) in
  emit (storage_set_apps newApps);;
  modify (λ _, {| selectedApps := newApps |}).

Definition clearApps : Eff AppStore StoreEvent unit :=
  modify (λ _, {| selectedApps := [] |});;
  storage_delete SELECTED_APPS.

Definition isSelected (packageName' : string) (state : AppStore) : bool :=
  existsb (λ app, bool_decide (packageName app = packageName')) (selectedApps state).

(** [stored] is what [storage.getString] returns, [JSON_parse] what
    JSON.parse makes of a text. *)
Definition loadFromStorage (JSON_parse : string → Try (list SelectedApp))
    (stored : option string) : Eff AppStore StoreEvent unit :=
  catch
    (match stored with
     | None | Some EmptyString => mret tt
     | Some text =>
         apps ← lift (JSON_parse text);
         modify (λ _, {| selectedApps := apps |})
     end)
    (λ error, emit (store_console_error "Error loading selected apps from storage:" error)).

End useAppStore.

(** useLimitsStore.ts, the actions beside setLimit, getLimit and removeLimit. *)
Module useLimitsStore.

Definition clearLimits : Eff LimitsStore StoreEvent unit :=
  modify (λ _, {| limits := ∅ |});;
  storage_delete APP_LIMITS.

Definition loadFromStorage (JSON_parse : string → Try (gmap string Z))
    (stored : option string) : Eff LimitsStore StoreEvent unit :=
  catch
    (match stored with
     | None | Some EmptyString => mret tt
     | Some text =>
         limits ← lift (JSON_parse text);
         modify (λ _, {| limits := limits |})
     end)
    (λ error, emit (store_console_error "Error loading limits from storage:" error)).

End useLimitsStore.

(** useUsageStore.ts, the getters. *)
Module useUsageStore.

Definition getTodayUsage (packageName : string) (state : UsageStore) : Z :=
  default 0 (todayUsage state !! packageName).

Definition getYesterdayUsage (packageName : string) (state : UsageStore) : Z :=
  default 0 (yesterdayUsage state !! packageName).

Definition getTimeSaved (packageName : string) (state : UsageStore) : Z :=
  let today := getTodayUsage packageName state in
  let yesterday := getYesterdayUsage packageName state in
  Z.max 0 (yesterday - today).

End useUsageStore.

(** *** Screens that read the stores *)

(** StatsScreen: [selectedApps.reduce((total, app) => total + getTimeSaved(...), 0)]. *)
Definition totalTimeSaved (selectedApps : list SelectedApp) (state : UsageStore) : Z :=
  foldl (λ total app, total + useUsageStore.getTimeSaved (packageName app) state) 0 selectedApps.

(** HomeScreen: the number of selected apps with [limits[p] && limits[p] > 0]. *)
Definition activeAppsCount (selectedApps : list SelectedApp) (limits : gmap string Z) : nat :=
  length (List.filter (λ app, match limits !! packageName app with
                              | Some limit => bool_decide (0 < limit)
                              | None => false
                              end) selectedApps).

Definition needsAccessibility (selectedApps : list SelectedApp) (limits : gmap string Z)
    (isAccessibilityEnabled : bool) : bool :=
  bool_decide (0 < activeAppsCount selectedApps limits)%nat && negb isAccessibilityEnabled.

(** LimitsScreen: handleLimitChange. *)
Definition handleLimitChange (packageName : string) (limitMs : option Z)
    : Eff LimitsStore Event unit :=
  match limitMs with
  | None => removeLimit packageName
  | Some limitMs => setLimit packageName limitMs
  end.

End JS.

(** ** The Kotlin side *)

Module Kt.

(** [ActivityManager.RunningAppProcessInfo]. *)
Record RunningAppProcessInfo := { importance : Z; pkgList : option (list string) }.
Definition IMPORTANCE_FOREGROUND : Z := 100.

(** [android.app.usage.UsageStats]. *)
Record UsageStats := { packageName : string; totalTimeInForeground : Z }.

Inductive Interval := INTERVAL_DAILY | INTERVAL_WEEKLY | INTERVAL_MONTHLY | INTERVAL_BEST.

(** [AccessibilityEvent]: the event type and the package of the window. *)
Record AccessibilityEvent := { eventType : Z; event_packageName : option string }.
Definition TYPE_WINDOW_STATE_CHANGED : Z := 32.

(** [Build.VERSION_CODES]. *)
Definition Q : Z := 29.
Definition LOLLIPOP : Z := 21.

(** [ApplicationInfo] with its flag bits. *)
Record ApplicationInfo := { app_packageName : string; flags : Z }.
Definition FLAG_SYSTEM : Z := 1.
Definition FLAG_UPDATED_SYSTEM_APP : Z := 128.

(** The answer of [PackageManager] for the label of a package. *)
Inductive Label :=
| Labelled (name : string)
| NameNotFoundException
| LabelException (msg : string).

(** A value stored in SharedPreferences. *)
Inductive PrefValue := PString (s : string) | PLong (n : Z).

Inductive PrefEdit :=
| putString (key value : string)
| putLong (key : string) (value : Z)
| remove (key : string).

(** The entry of the array that getTodayUsageStats resolves with. *)
Record StatMap := {
  stat_packageName : string;
  stat_appName : string;
  stat_totalTimeInForeground : Z }.

(** The platform during one callback: what each system service answers (or
    throws), and what org.json makes of a text.  [JSONArray] stands for
    [JSONArray(json)] followed by [getString(i)] for every index,
    [JSONObject] for [JSONObject(json)] followed by [getLong(key)] for every
    key.  [getApplicationLabel] sums up [getApplicationInfo] followed by
    [getApplicationLabel]; [hasLauncher] sums up the two launcher checks of
    getTodayUsageStats, and [usageAppName] the name it finds for a package
    of the usage map (its label, or a name taken from the package name).
    The time window of a usage query is left out: [queryUsageStats] is the
    answer for the window the code asks for. *)
Record Android := {
  context_packageName : string;
  SDK_INT : Z;
  getSharedPreferences : Try unit;
  activityManager : bool;
  runningAppProcesses : Try (option (list RunningAppProcessInfo));
  appTasks_isNotEmpty : bool;
  usageStatsManager : bool;
  queryUsageStats : Interval → Try (option (list UsageStats));
  getApplicationLabel : string → Label;
  getInstalledApplications : list ApplicationInfo;
  hasLauncher : string → bool;
  usageAppName : string → string;
  startActivity : Try unit;
  JSONArray : string → Try (list string);
  JSONObject : string → Try (list (string * Z)) }.

(** The mutable state the callbacks share: the SharedPreferences file
    [blocking_config] and the scheduled check task of BlockingService
    ([true] while a task is scheduled). *)
Record Device := { prefs : gmap string PrefValue; checkTask : bool }.

Inductive Event :=
| Log_d (tag msg : string)
| Log_e (tag msg : string)
| get_runningAppProcesses
| call_queryUsageStats (interval : Interval)
| prefs_edit (edits : list PrefEdit)
| startActivity_MainActivity (blocked_package : option string)
| performGlobalAction_BACK
| stopSelf.

Definition PREFS_NAME : string := "blocking_config".
Definition KEY_SELECTED_APPS : string := "selected_apps".
Definition KEY_LIMITS : string := "limits".
Definition KEY_BLOCKED_APP : string := "blocked_app".
Definition KEY_BLOCKED_APP_NAME : string := "blocked_app_name".

(** *** SharedPreferences *)

(** [prefs.getString(key, defValue) ?: defValue]. *)
Definition getString (key defValue : string) : Eff Device Event string :=
  st ← get;
  match prefs st !! key with
  | None => mret defValue
  | Some (PString s) => mret s
  | Some (PLong _) => throw "java.lang.ClassCastException"
  end.

Definition apply_edit (m : gmap string PrefValue) (e : PrefEdit) : gmap string PrefValue :=
  match e with
  | putString key value => <[key := PString value]> m
  | putLong key value => <[key := PLong value]> m
  | remove key => delete key m
  end.

(** [prefs.edit()....apply()]. *)
Definition edit_apply (edits : list PrefEdit) : Eff Device Event unit :=
  emit (prefs_edit edits);;
  modify (λ st, {| prefs := foldl apply_edit (prefs st) edits; checkTask := checkTask st |}).

(** *** JSON helpers (the same in both services) *)

Definition parseStringArray (os : Android) (TAG json : string) : Eff Device Event (list string) :=
  catch
    (lift (JSONArray os json))
    (λ e, emit (Log_e TAG ("Error parsing selected apps: " +:+ e));; mret []).

Definition parseLimitsMap (os : Android) (TAG json : string) : Eff Device Event (gmap string Z) :=
  catch
    (entries ← lift (JSONObject os json);
     mret (foldl (λ result kv, <[kv.1 := kv.2]> result) ∅ entries))
    (λ e, emit (Log_e TAG ("Error parsing limits: " +:+ e));; mret ∅).

(** *** Today's usage of one package (the same in both services) *)

Definition getCurrentUsage (os : Android) (TAG packageName' : string) : Eff Device Event Z :=
  catch
    (if negb (usageStatsManager os) then mret 0
     else
       emit (call_queryUsageStats INTERVAL_DAILY);;
       stats ← lift (queryUsageStats os INTERVAL_DAILY);
       match stats with
       | None => mret 0
       | Some stats =>
           match List.find (λ it, bool_decide (packageName it = packageName')) stats with
           | Some appStat => mret (totalTimeInForeground appStat)
           | None => mret 0
           end
       end)
    (λ e, emit (Log_e TAG ("Error getting current usage: " +:+ e));; mret 0).

(** *** BlockingService *)

Module BlockingService.

Definition TAG : string := "BlockingService".

Definition startMonitoring : Eff Device Event unit :=
  st ← get;
  if checkTask st then emit (Log_d TAG "Monitoring already started")
  else
    emit (Log_d TAG "Starting monitoring task");;
    modify (λ st, {| prefs := prefs st; checkTask := true |}).

Definition stopMonitoring : Eff Device Event unit :=
  modify (λ st, {| prefs := prefs st; checkTask := false |});;
  emit (Log_d TAG "Stopped monitoring").

Definition onDestroy : Eff Device Event unit :=
  stopMonitoring;;
  emit (Log_d TAG "BlockingService destroyed").

Inductive Action := ACTION_START | ACTION_STOP.

(** [onStartCommand], without the notification of the foreground service. *)
Definition onStartCommand (action : option Action) : Eff Device Event unit :=
  match action with
  | Some ACTION_START =>
      emit (Log_d TAG "Starting blocking service");;
      startMonitoring
  | Some ACTION_STOP =>
      emit (Log_d TAG "Stopping blocking service");;
      stopMonitoring;;
      emit stopSelf
  | None => mret tt
  end.

(** The first process of foreground importance whose first package is not
    ours: the loop of getForegroundApp. *)
Fixpoint first_foreground (ourPackageName : string)
    (runningProcesses : list RunningAppProcessInfo) : option string :=
  match runningProcesses with
  | [] => None
  | processInfo :: rest =>
      if bool_decide (importance processInfo = IMPORTANCE_FOREGROUND) then
        match pkgList processInfo with
        | Some (packageName :: _) =>
            if bool_decide (packageName ≠ ourPackageName) then Some packageName
            else first_foreground ourPackageName rest
        | _ => first_foreground ourPackageName rest
        end
      else first_foreground ourPackageName rest
  end.

Definition getForegroundApp (os : Android) : Eff Device Event (option string) :=
  catch
    (if negb (activityManager os) then throw "null cannot be cast to non-null type android.app.ActivityManager"
     else
       let ourPackageName := context_packageName os in
       if bool_decide (Q ≤ SDK_INT os) then
         emit get_runningAppProcesses;;
         runningProcesses ← lift (runningAppProcesses os);
         match runningProcesses with
         | None => mret None
         | Some runningProcesses => mret (first_foreground ourPackageName runningProcesses)
         end
       else mret None)
    (λ e, emit (Log_e TAG ("Error getting foreground app: " +:+ e));; mret None).

Record BlockInfo := { appName : string; usageMs : Z; limitMs : Z }.

(** [String.substringAfterLast(".")] of the Kotlin library: the text after
    the last dot, the whole text when there is none. *)
Fixpoint after_last_dot (s : string) : option string :=
  match s with
  | EmptyString => None
  | String c rest =>
      match after_last_dot rest with
      | Some tail => Some tail
      | None => if Ascii.eqb c "."%char then Some rest else None
      end
  end.

Definition substringAfterLast_dot (s : string) : string :=
  default s (after_last_dot s).

Definition shouldBlockApp (os : Android) (packageName : string)
    : Eff Device Event (option (bool * BlockInfo)) :=
  catch
    (lift (getSharedPreferences os);;
     selectedAppsJson ← getString KEY_SELECTED_APPS "[]";
     limitsJson ← getString KEY_LIMITS "{}";
     selectedApps ← parseStringArray os TAG selectedAppsJson;
     limits ← parseLimitsMap os TAG limitsJson;
     if negb (bool_decide (packageName ∈ selectedApps)) then mret None
     else
       match limits !! packageName with
       | None => mret None
       | Some limitMs =>
           if bool_decide (limitMs ≤ 0) then mret None
           else
             usageMs ← getCurrentUsage os TAG packageName;
             let appName :=
               match getApplicationLabel os packageName with
               | Labelled name => name
               | _ => substringAfterLast_dot packageName
               end in
             emit (Log_d TAG ("Checking app: " +:+ packageName +:+ " (" +:+ appName
                              +:+ "), usage: " +:+ pretty usageMs +:+ "ms, limit: "
                              +:+ pretty limitMs +:+ "ms"));;
             let shouldBlock := bool_decide (limitMs ≤ usageMs) in
             mret (Some (shouldBlock, {| appName := appName; usageMs := usageMs; limitMs := limitMs |}))
       end)
    (λ e, emit (Log_e TAG ("Error checking if should block: " +:+ e));; mret None).

Definition bringAppToForeground (os : Android) : Eff Device Event unit :=
  catch
    (emit (startActivity_MainActivity None);;
     lift (startActivity os);;
     emit (Log_d TAG "Brought Boundly to foreground"))
    (λ e, emit (Log_e TAG ("Error bringing app to foreground: " +:+ e))).

Definition checkAndBlock (os : Android) : Eff Device Event unit :=
  catch
    (lift (getSharedPreferences os);;
     selectedAppsJson ← getString KEY_SELECTED_APPS "[]";
     if bool_decide (selectedAppsJson = "[]") then
       emit (Log_d TAG "No apps to monitor, stopping service");;
       emit stopSelf
     else
       foregroundApp ← getForegroundApp os;
       match foregroundApp with
       | None => mret tt
       | Some foregroundApp =>
           let ourPackageName := context_packageName os in
           if bool_decide (foregroundApp = ourPackageName) then mret tt
           else
             blockResult ← shouldBlockApp os foregroundApp;
             match blockResult with
             | None => mret tt
             | Some (shouldBlock, info) =>
                 if (shouldBlock : bool) then
                   emit (Log_d TAG ("Blocking app detected: " +:+ foregroundApp +:+ " ("
                                    +:+ appName info +:+ ") - usage: " +:+ pretty (usageMs info)
                                    +:+ "ms, limit: " +:+ pretty (limitMs info) +:+ "ms"));;
                   lift (getSharedPreferences os);;
                   edit_apply [putString KEY_BLOCKED_APP foregroundApp;
                               putString KEY_BLOCKED_APP_NAME (appName info);
                               putLong "blocked_usage_ms" (usageMs info);
                               putLong "blocked_limit_ms" (limitMs info)];;
                   bringAppToForeground os
                 else
                   lift (getSharedPreferences os);;
                   edit_apply [remove KEY_BLOCKED_APP;
                               remove KEY_BLOCKED_APP_NAME;
                               remove "blocked_usage_ms";
                               remove "blocked_limit_ms"]
             end
       end)
    (λ e, emit (Log_e TAG ("Error in checkAndBlock: " +:+ e))).

End BlockingService.

(** *** BlockingServiceModuleImpl *)

Module BlockingServiceModuleImpl.

(** [stopBlockingService]: [Context.stopService] destroys the service, which
    runs its [onDestroy]; the stored configuration is left as it is. *)
Definition stopBlockingService : Eff Device Event unit :=
  emit (Log_d "BlockingServiceModule" "Stopping blocking service");;
  BlockingService.onDestroy;;
  emit (Log_d "BlockingServiceModule" "Blocking service stopped").

(** What startBlockingService needs beyond [Android]: how org.json prints an
    array and an object, and whether starting the service throws. *)
Record Starter := {
  JSONArray_toString : list string → string;
  JSONObject_toString : gmap string Z → string;
  startForegroundService : Try unit }.

(** An entry of the [limits] array as the bridge delivers it: the map may be
    null, and so may its package name. *)
Definition ReadableLimit : Type := option (option string * Z).

(** The loop that fills [limitsObject]: a later entry of a package replaces
    an earlier one. *)
Definition limitsObject (limits : list ReadableLimit) : gmap string Z :=
  foldl (λ obj limitMap,
         match limitMap with
         | Some (Some packageName, limitMs) => <[packageName := limitMs]> obj
         | _ => obj
         end) ∅ limits.

(** [startBlockingService]: the configuration is stored, then the service is
    started, which delivers ACTION_START to its [onStartCommand].  A value
    is the promise resolved, a throw the promise rejected. *)
Definition startBlockingService (os : Android) (st : Starter) (selectedApps : list string)
    (limits : list ReadableLimit) : Eff Device Event unit :=
  catch
    (emit (Log_d "BlockingServiceModule" "Starting blocking service");;
     let appsArray := selectedApps in
     let limitsObject := limitsObject limits in
     lift (getSharedPreferences os);;
     edit_apply [putString KEY_SELECTED_APPS (JSONArray_toString st appsArray);
                 putString KEY_LIMITS (JSONObject_toString st limitsObject)];;
     lift (startForegroundService st);;
     BlockingService.onStartCommand (Some BlockingService.ACTION_START);;
     emit (Log_d "BlockingServiceModule" "Blocking service started"))
    (λ e,
     emit (Log_e "BlockingServiceModule" ("Error starting blocking service: " +:+ e));;
     throw ("Error starting blocking service: " +:+ e)).

End BlockingServiceModuleImpl.

(** *** AppBlockingAccessibilityService *)

Module AppBlockingAccessibilityService.

Definition TAG : string := "AppBlockingAccessibility".

Definition shouldBlockApp (os : Android) (packageName : string) : Eff Device Event bool :=
  catch
    (lift (getSharedPreferences os);;
     selectedAppsJson ← getString KEY_SELECTED_APPS "[]";
     limitsJson ← getString KEY_LIMITS "{}";
     selectedApps ← parseStringArray os TAG selectedAppsJson;
     limits ← parseLimitsMap os TAG limitsJson;
     if negb (bool_decide (packageName ∈ selectedApps)) then mret false
     else
       match limits !! packageName with
       | None => mret false
       | Some limitMs =>
           if bool_decide (limitMs ≤ 0) then mret false
           else
             usageMs ← getCurrentUsage os TAG packageName;
             emit (Log_d TAG ("Checking app: " +:+ packageName +:+ ", usage: "
                              +:+ pretty usageMs +:+ "ms, limit: " +:+ pretty limitMs +:+ "ms"));;
             mret (bool_decide (limitMs ≤ usageMs))
       end)
    (λ e, emit (Log_e TAG ("Error checking if should block: " +:+ e));; mret false).

Definition blockApp (os : Android) (packageName : string) : Eff Device Event unit :=
  catch
    (emit (startActivity_MainActivity (Some packageName));;
     lift (startActivity os);;
     emit performGlobalAction_BACK;;
     emit (Log_d TAG ("Blocked app: " +:+ packageName +:+ " - brought Boundly to foreground")))
    (λ e, emit (Log_e TAG ("Error blocking app: " +:+ e))).

Definition onAccessibilityEvent (os : Android) (event : option AccessibilityEvent)
    : Eff Device Event unit :=
  match event with
  | None => mret tt
  | Some event =>
      catch
        (if bool_decide (eventType event = TYPE_WINDOW_STATE_CHANGED) then
           match event_packageName event with
           | None => mret tt
           | Some packageName =>
               if bool_decide (packageName = context_packageName os) then mret tt
               else
                 emit (Log_d TAG ("Window state changed for: " +:+ packageName));;
                 block ← shouldBlockApp os packageName;
                 if (block : bool) then
                   emit (Log_d TAG ("Blocking app launch: " +:+ packageName));;
                   blockApp os packageName
                 else mret tt
           end
         else mret tt)
        (λ e, emit (Log_e TAG ("Error in onAccessibilityEvent: " +:+ e)))
  end.

End AppBlockingAccessibilityService.

(** *** ForegroundAppModuleImpl *)

Module ForegroundAppModuleImpl.

(** The map [getCurrentForegroundApp] resolves with. *)
Record ForegroundApp := { fg_packageName : string; fg_appName : string }.

Fixpoint first_foreground (runningProcesses : list RunningAppProcessInfo) : option string :=
  match runningProcesses with
  | [] => None
  | processInfo :: rest =>
      if bool_decide (importance processInfo = IMPORTANCE_FOREGROUND) then
        match pkgList processInfo with
        | Some (packageName :: _) => Some packageName
        | _ => first_foreground rest
        end
      else first_foreground rest
  end.

Definition getForegroundAppAndroid10Plus (os : Android) : Eff Device Event (option string) :=
  emit get_runningAppProcesses;;
  runningProcesses ← lift (runningAppProcesses os);
  match runningProcesses with
  | None => mret None
  | Some runningProcesses => mret (first_foreground runningProcesses)
  end.

Definition getForegroundAppLegacy (os : Android) : Eff Device Event (option string) :=
  if bool_decide (LOLLIPOP ≤ SDK_INT os) && appTasks_isNotEmpty os then mret None
  else getForegroundAppAndroid10Plus os.

(** A value is the promise resolved, a throw is the promise rejected. *)
Definition getCurrentForegroundApp (os : Android) : Eff Device Event (option ForegroundApp) :=
  catch
    (if negb (activityManager os) then mret None
     else
       packageName ← (if bool_decide (Q ≤ SDK_INT os)
                      then getForegroundAppAndroid10Plus os
                      else getForegroundAppLegacy os);
       match packageName with
       | None => mret None
       | Some packageName =>
           if bool_decide (packageName = context_packageName os) then mret None
           else
             match getApplicationLabel os packageName with
             | Labelled appName =>
                 mret (Some {| fg_packageName := packageName; fg_appName := appName |})
             | NameNotFoundException => mret None
             | LabelException msg => throw msg
             end
       end)
    (λ e, throw ("Error getting foreground app: " +:+ e)).

End ForegroundAppModuleImpl.

(** *** UsageStatsModuleImpl *)

Module UsageStatsModuleImpl.

Definition maxDailyUsage : Z := 24 * 60 * 60 * 1000.

Definition null_or_empty (stats : option (list UsageStats)) : bool :=
  match stats with
  | None | Some [] => true
  | Some (_ :: _) => false
  end.

(** One more query strategy, tried only while the result is null or empty. *)
Definition retry_with (os : Android) (interval : Interval)
    (stats : option (list UsageStats)) : Eff Device Event (option (list UsageStats)) :=
  if null_or_empty stats then
    emit (call_queryUsageStats interval);;
    lift (queryUsageStats os interval)
  else mret stats.

Definition isUserInstalled (appInfo : ApplicationInfo) : bool :=
  bool_decide (Z.land (flags appInfo) FLAG_SYSTEM = 0)
  || bool_decide (Z.land (flags appInfo) FLAG_UPDATED_SYSTEM_APP ≠ 0).

(** The loop over the installed applications, which adds the ones without
    usage data at zero.  [processedPackages] is the set of packages already
    in the result; the fallback for an empty answer keeps no such set
    ([None]). *)
Fixpoint installed_loop (os : Android) (processedPackages : option (list string))
    (installedApps : list ApplicationInfo) : list StatMap :=
  match installedApps with
  | [] => []
  | appInfo :: rest =>
      let packageName := app_packageName appInfo in
      if bool_decide (packageName = context_packageName os)
         || match processedPackages with
            | Some processed => bool_decide (packageName ∈ processed)
            | None => false
            end
      then installed_loop os processedPackages rest
      else if negb (isUserInstalled appInfo) && negb (hasLauncher os packageName)
      then installed_loop os processedPackages rest
      else match getApplicationLabel os packageName with
           | Labelled appName =>
               {| stat_packageName := packageName;
                  stat_appName := appName;
                  stat_totalTimeInForeground := 0 |}
               :: installed_loop os (cons packageName <$> processedPackages) rest
           | _ => installed_loop os processedPackages rest
           end
  end.

(** The [usageStatsMap] loop: every entry capped at 24 hours. *)
Definition usageStatsMap (stats : list UsageStats) : gmap string Z :=
  foldl (λ m stat, <[packageName stat := Z.min (totalTimeInForeground stat) maxDailyUsage]> m)
        ∅ stats.

(** The loop over [usageStatsMap], in the map's iteration order. *)
Definition from_usage (os : Android) (m : gmap string Z) : list StatMap :=
  omap (λ '(packageName, totalTime),
        if bool_decide (packageName = context_packageName os) then None
        else Some {| stat_packageName := packageName;
                     stat_appName := usageAppName os packageName;
                     stat_totalTimeInForeground := totalTime |})
       (map_to_list m).

(** [getTodayUsageStats] without its debug log lines: a value is the promise
    resolved, a throw is the promise rejected. *)
Definition getTodayUsageStats (os : Android) : Eff Device Event (list StatMap) :=
  catch
    (if negb (usageStatsManager os) then mret []
     else
       emit (call_queryUsageStats INTERVAL_DAILY);;
       stats ← lift (queryUsageStats os INTERVAL_DAILY);
       stats ← retry_with os INTERVAL_BEST stats;
       stats ← retry_with os INTERVAL_WEEKLY stats;
       stats ← retry_with os INTERVAL_MONTHLY stats;
       match stats with
       | None => mret []
       | Some [] => mret (installed_loop os None (getInstalledApplications os))
       | Some stats =>
           let usageStatsMap := usageStatsMap stats in
           let result := from_usage os usageStatsMap in
           mret (result ++ installed_loop os (Some (map stat_packageName result))
                                         (getInstalledApplications os))
       end)
    (λ e, throw ("Error getting usage stats: " +:+ e)).

(** [hasUsageStatsPermission]: a null answer to the weekly query means the
    permission is missing, an empty list means it is granted. *)
Definition hasUsageStatsPermission (os : Android) : Eff Device Event bool :=
  catch
    (if negb (usageStatsManager os) then mret false
     else
       emit (call_queryUsageStats INTERVAL_WEEKLY);;
       stats ← lift (queryUsageStats os INTERVAL_WEEKLY);
       mret (match stats with Some _ => true | None => false end))
    (λ e, throw ("Error checking permission: " +:+ e)).

(** [getAppUsageToday]: a value is the promise resolved ([None] is null), a
    throw the promise rejected. *)
Definition getAppUsageToday (os : Android) (packageName' : string)
    : Eff Device Event (option StatMap) :=
  catch
    (if negb (usageStatsManager os) then mret None
     else
       emit (call_queryUsageStats INTERVAL_DAILY);;
       stats ← lift (queryUsageStats os INTERVAL_DAILY);
       match stats with
       | None => mret None
       | Some stats =>
           match List.find (λ it, bool_decide (packageName it = packageName')) stats with
           | None => mret None
           | Some appStat =>
               if bool_decide (totalTimeInForeground appStat = 0) then mret None
               else
                 match getApplicationLabel os packageName' with
                 | Labelled appName =>
                     mret (Some {| stat_packageName := packageName';
                                   stat_appName := appName;
                                   stat_totalTimeInForeground := totalTimeInForeground appStat |})
                 | NameNotFoundException => mret None
                 | LabelException msg => throw msg
                 end
           end
       end)
    (λ e, throw ("Error getting app usage: " +:+ e)).

End UsageStatsModuleImpl.

End Kt.

(** ** The bridge between the two sides *)

(** What the JS promise of [UsageStatsModule.getTodayUsageStats] settles to
    when the native module runs on platform [os]. *)
Definition native_usage (os : Kt.Android) (dev : Kt.Device) : Try (list JS.UsageStat) :=
  match value_of (Kt.UsageStatsModuleImpl.getTodayUsageStats os dev) with
  | Ok entries =>
      Ok (map (λ e, {| JS.stat_packageName := Kt.stat_packageName e;
                       JS.stat_appName := Kt.stat_appName e;
                       JS.totalTimeInForeground := Kt.stat_totalTimeInForeground e |})
              entries)
  | Threw e => Threw e
  end.

(** ** Vocabulary of the statements *)

(** An app of the selection list that reaches the foreground query of the
    loop: its limit is set and not zero, and its usage has met it. *)
Definition candidate (limits usage : gmap string Z) (app : JS.SelectedApp) : bool :=
  match limits !! JS.packageName app with
  | Some limitMs =>
      negb (bool_decide (limitMs = 0))
      && bool_decide (limitMs ≤ default 0 (usage !! JS.packageName app))
  | None => false
  end.

(** The BlockState the loop builds for an app. *)
Definition block_of (limits usage : gmap string Z) (app : JS.SelectedApp) : JS.BlockedApp :=
  {| JS.blocked_packageName := JS.packageName app;
     JS.blocked_appName := JS.appName app;
     JS.usageMs := default 0 (usage !! JS.packageName app);
     JS.limitMs := default 0 (limits !! JS.packageName app) |}.

(** The contract of the policy in the words of the specification: a limited
    package (limit above zero) whose usage has met or exceeded its limit and
    that matches the foreground identity, or whose foreground identity is
    unknown. *)
Definition spec_blockable (limits usage : gmap string Z)
    (foreground : option JS.ForegroundAppInfo) (app : JS.SelectedApp) : bool :=
  match limits !! JS.packageName app with
  | Some limitMs =>
      bool_decide (0 < limitMs)
      && bool_decide (limitMs ≤ default 0 (usage !! JS.packageName app))
      && match foreground with
         | Some info => bool_decide (JS.fg_packageName info = JS.packageName app)
         | None => true
         end
  | None => false
  end.

Definition spec_first_blocked (limits usage : gmap string Z)
    (foreground : option JS.ForegroundAppInfo) (selectedApps : list JS.SelectedApp)
    : option JS.BlockedApp :=
  block_of limits usage <$> List.find (spec_blockable limits usage foreground) selectedApps.

(** Every stored limit is a duration: not below zero. *)
Definition limits_wf (limits : gmap string Z) : Prop :=
  map_Forall (λ _ limitMs, 0 ≤ limitMs) limits.

(** A native event that blocks package [p]: the service records [p] as the
    blocked app, or the accessibility service redirects away from [p]. *)
Definition blocks (p : string) (ev : Kt.Event) : bool :=
  match ev with
  | Kt.prefs_edit edits =>
      existsb (λ e, match e with
                    | Kt.putString key value =>
                        bool_decide (key = Kt.KEY_BLOCKED_APP) && bool_decide (value = p)
                    | _ => false
                    end) edits
  | Kt.startActivity_MainActivity (Some q) => bool_decide (q = p)
  | _ => false
  end.

(** A native event that redirects the user or records a blocked app. *)
Definition is_block (ev : Kt.Event) : bool :=
  match ev with
  | Kt.prefs_edit edits =>
      existsb (λ e, match e with Kt.putString _ _ | Kt.putLong _ _ => true | _ => false end) edits
  | Kt.startActivity_MainActivity _ => true
  | _ => false
  end.

(** A native event that logs an error. *)
Definition is_error_log (ev : Kt.Event) : bool :=
  match ev with Kt.Log_e _ _ => true | _ => false end.

(** A native event that neither blocks nor changes anything: a log line or
    a query. *)
Definition harmless (ev : Kt.Event) : bool :=
  match ev with
  | Kt.Log_d _ _ | Kt.Log_e _ _ | Kt.get_runningAppProcesses | Kt.call_queryUsageStats _ => true
  | _ => false
  end.

(** The stored configuration as a service callback reads it: the shared
    preferences, the two texts, and what the JSON helpers make of them. *)
Definition stored_config (os : Kt.Android) (TAG : string) (dev : Kt.Device)
    : Try (list string * gmap string Z) :=
  value_of
    ((lift (Kt.getSharedPreferences os);;
      selectedAppsJson ← Kt.getString Kt.KEY_SELECTED_APPS "[]";
      limitsJson ← Kt.getString Kt.KEY_LIMITS "{}";
      selectedApps ← Kt.parseStringArray os TAG selectedAppsJson;
      limits ← Kt.parseLimitsMap os TAG limitsJson;
      mret (selectedApps, limits)) dev).

(** The name BlockingService shows for a package: its label, or the text
    after the last dot of the package name. *)
Definition label_or_suffix (os : Kt.Android) (packageName : string) : string :=
  match Kt.getApplicationLabel os packageName with
  | Kt.Labelled name => name
  | _ => Kt.BlockingService.substringAfterLast_dot packageName
  end.

(** The verdict of BlockingService.shouldBlockApp written over the stored
    configuration and the usage reading. *)
Definition service_verdict (os : Kt.Android) (dev : Kt.Device) (p : string)
    : option (bool * Kt.BlockingService.BlockInfo) :=
  match stored_config os Kt.BlockingService.TAG dev with
  | Ok (selectedApps, limits) =>
      if bool_decide (p ∈ selectedApps) then
        match limits !! p with
        | Some limitMs =>
            if bool_decide (limitMs ≤ 0) then None
            else
              match value_of (Kt.getCurrentUsage os Kt.BlockingService.TAG p dev) with
              | Ok usageMs =>
                  Some (bool_decide (limitMs ≤ usageMs),
                        {| Kt.BlockingService.appName := label_or_suffix os p;
                           Kt.BlockingService.usageMs := usageMs;
                           Kt.BlockingService.limitMs := limitMs |})
              | Threw _ => None
              end
        | None => None
        end
      else None
  | Threw _ => None
  end.

(** The same for AppBlockingAccessibilityService.shouldBlockApp. *)
Definition accessibility_verdict (os : Kt.Android) (dev : Kt.Device) (p : string) : bool :=
  match stored_config os Kt.AppBlockingAccessibilityService.TAG dev with
  | Ok (selectedApps, limits) =>
      bool_decide (p ∈ selectedApps)
      && match limits !! p with
         | Some limitMs =>
             negb (bool_decide (limitMs ≤ 0))
             && match value_of (Kt.getCurrentUsage os Kt.AppBlockingAccessibilityService.TAG p dev) with
                | Ok usageMs => bool_decide (limitMs ≤ usageMs)
                | Threw _ => false
                end
         | None => false
         end
  | Threw _ => false
  end.

(** The native event by which the service stops itself. *)
Definition is_stop (ev : Kt.Event) : bool :=
  match ev with Kt.stopSelf => true | _ => false end.

(** The part of the device state the monitor depends on from one tick to
    the next: the scheduled task and the stored configuration. *)
Definition armed_as (dev dev' : Kt.Device) : Prop :=
  Kt.checkTask dev' = Kt.checkTask dev ∧
  Kt.prefs dev' !! Kt.KEY_SELECTED_APPS = Kt.prefs dev !! Kt.KEY_SELECTED_APPS ∧
  Kt.prefs dev' !! Kt.KEY_LIMITS = Kt.prefs dev !! Kt.KEY_LIMITS.


(** ** Example data *)

Definition com_x : JS.SelectedApp := {| JS.packageName := "com.x"; JS.appName := "X" |}.
Definition com_y : JS.SelectedApp := {| JS.packageName := "com.y"; JS.appName := "Y" |}.

Definition foreground_x : JS.ForegroundAppInfo :=
  {| JS.fg_packageName := "com.x"; JS.fg_appName := "X" |}.

(** A usage answer with one entry, for com.x. *)
Definition usage_x (ms : Z) : list JS.UsageStat :=
  [{| JS.stat_packageName := "com.x"; JS.stat_appName := "X"; JS.totalTimeInForeground := ms |}].

Definition empty_store : JS.UsageStore :=
  {| JS.todayUsage := ∅; JS.yesterdayUsage := ∅; JS.lastUpdated := None; JS.isLoading := false |}.

(** A store that has cached one usage value for com.x. *)
Definition cached_store (ms : Z) : JS.UsageStore :=
  {| JS.todayUsage := {["com.x" := ms]}; JS.yesterdayUsage := ∅;
     JS.lastUpdated := Some 0; JS.isLoading := false |}.

(** A runtime with all modules registered, a foreground answer that stays
    the same and the given usage answer. *)
Definition runtime (fg : Try (option JS.ForegroundAppInfo)) (usage : Try (list JS.UsageStat))
    : JS.Runtime :=
  {| JS.ForegroundAppModule := Some (λ _, fg);
     JS.UsageStatsModule := Some usage;
     JS.BlockingServiceModule := Some (Ok tt, Ok tt);
     JS.Date_now := 0 |}.

(** Hours in milliseconds. *)
Definition hours (h : Z) : Z := h * 60 * 60 * 1000.

Definition dquote : string := String (ascii_of_nat 34) EmptyString.

(** The texts startBlockingService stores for the selection [com.x] and a
    limit for it. *)
Definition json_apps_x : string := "[" +:+ dquote +:+ "com.x" +:+ dquote +:+ "]".
Definition json_limits_x (ms : Z) : string :=
  "{" +:+ dquote +:+ "com.x" +:+ dquote +:+ ":" +:+ pretty ms +:+ "}".

(** org.json on the texts of the examples. *)
Definition example_JSONArray (json : string) : Try (list string) :=
  if bool_decide (json = "[]") then Ok []
  else if bool_decide (json = json_apps_x) then Ok ["com.x"]
  else Threw "org.json.JSONException".

Definition example_JSONObject (json : string) : Try (list (string * Z)) :=
  if bool_decide (json = "{}") then Ok []
  else if bool_decide (json = json_limits_x 0) then Ok [("com.x", 0)]
  else if bool_decide (json = json_limits_x 60000) then Ok [("com.x", 60000)]
  else if bool_decide (json = json_limits_x (hours 25)) then Ok [("com.x", hours 25)]
  else Threw "org.json.JSONException".

Definition process (p : string) : Kt.RunningAppProcessInfo :=
  {| Kt.importance := Kt.IMPORTANCE_FOREGROUND; Kt.pkgList := Some [p] |}.

(** A phone on Android 14 hosting the app as com.dailyfocus, with the given
    answers to the stored-configuration read, the process query and the
    usage query. *)
Definition phone (sharedPreferences : Try unit)
    (processes : Try (option (list Kt.RunningAppProcessInfo)))
    (stats : Try (option (list Kt.UsageStats))) : Kt.Android :=
  {| Kt.context_packageName := "com.dailyfocus";
     Kt.SDK_INT := 34;
     Kt.getSharedPreferences := sharedPreferences;
     Kt.activityManager := true;
     Kt.runningAppProcesses := processes;
     Kt.appTasks_isNotEmpty := false;
     Kt.usageStatsManager := true;
     Kt.queryUsageStats := λ _, stats;
     Kt.getApplicationLabel := λ _, Kt.Labelled "X";
     Kt.getInstalledApplications := [];
     Kt.hasLauncher := λ _, true;
     Kt.usageAppName := λ _, "X";
     Kt.startActivity := Ok tt;
     Kt.JSONArray := example_JSONArray;
     Kt.JSONObject := example_JSONObject |}.

(** The system reports [ms] of foreground time for com.x today. *)
Definition stats_x (ms : Z) : Try (option (list Kt.UsageStats)) :=
  Ok (Some [{| Kt.packageName := "com.x"; Kt.totalTimeInForeground := ms |}]).

(** A device with a running check task and the given stored texts. *)
Definition device (selected_apps limits : string) : Kt.Device :=
  {| Kt.prefs := {[ Kt.KEY_SELECTED_APPS := Kt.PString selected_apps;
                    Kt.KEY_LIMITS := Kt.PString limits ]};
     Kt.checkTask := true |}.

Definition window_of (p : string) : Kt.AccessibilityEvent :=
  {| Kt.eventType := Kt.TYPE_WINDOW_STATE_CHANGED; Kt.event_packageName := Some p |}.

(** ** Vocabulary of the further statements *)

(** An action on the limits store. *)
Inductive LimitsAction :=
| SetLimit (packageName : string) (limitMs : Z)
| RemoveLimit (packageName : string)
| ClearLimits.

(** What the MMKV key of the limits holds after the storage events of a
    trace: the last value written. *)
Definition limits_written (before : option (gmap string Z)) (t : list JS.Event)
    : option (gmap string Z) :=
  foldl (λ held ev, match ev with JS.storage_set_limits m => Some m | _ => held end) before t.

(** One action on the store and on the stored value.  clearLimits writes
    nothing to the storage. *)
Definition act (state : JS.LimitsStore * option (gmap string Z)) (a : LimitsAction)
    : JS.LimitsStore * option (gmap string Z) :=
  match a with
  | SetLimit p v =>
      let r := JS.setLimit p v state.1 in (state_of r, limits_written state.2 (trace_of r))
  | RemoveLimit p =>
      let r := JS.removeLimit p state.1 in (state_of r, limits_written state.2 (trace_of r))
  | ClearLimits =>
      let r := JS.useLimitsStore.clearLimits state.1 in
      (state_of r, state.2)
  end.

(** The store as the app creates it, with nothing stored. *)
Definition fresh_limits : JS.LimitsStore * option (gmap string Z) :=
  ({| JS.limits := ∅ |}, None).

(** An action on the selection. *)
Inductive SelectionAction :=
| AddApp (app : JS.SelectedApp)
| RemoveApp (packageName : string)
| ClearApps.

(** What the MMKV key of the selection holds after the storage events of a
    trace. *)
Definition apps_stored (before : option (list JS.SelectedApp)) (t : list JS.StoreEvent)
    : option (list JS.SelectedApp) :=
  foldl (λ held ev, match ev with
                    | JS.storage_set_apps l => Some l
                    | _ => held
                    end) before t.

(** One action on the selection and on the stored value. *)
Definition select (state : JS.useAppStore.AppStore * option (list JS.SelectedApp))
    (a : SelectionAction) : JS.useAppStore.AppStore * option (list JS.SelectedApp) :=
  let r := match a with
           | AddApp app => JS.useAppStore.addApp app state.1
           | RemoveApp p => JS.useAppStore.removeApp p state.1
           | ClearApps => JS.useAppStore.clearApps state.1
           end in
  (state_of r, apps_stored state.2 (trace_of r)).

Definition fresh_selection : JS.useAppStore.AppStore * option (list JS.SelectedApp) :=
  ({| JS.useAppStore.selectedApps := [] |}, None).

(** No two entries of the selection have the same package name. *)
Definition unique_apps (apps : list JS.SelectedApp) : Prop :=
  NoDup (map JS.packageName apps).

(** The number of events of a trace that satisfy a test. *)
Definition count_events {E} (test : E → bool) (t : list E) : nat :=
  length (List.filter test t).

Definition is_foreground_query (ev : JS.Event) : bool :=
  match ev with JS.getCurrentForegroundApp => true | _ => false end.

Definition is_usage_refresh (ev : JS.Event) : bool :=
  match ev with JS.getTodayUsageStats => true | _ => false end.

Definition is_usage_query (ev : Kt.Event) : bool :=
  match ev with Kt.call_queryUsageStats _ => true | _ => false end.

Definition is_service_call (ev : JS.Event) : bool :=
  match ev with
  | JS.startBlockingService _ _ | JS.stopBlockingService => true
  | _ => false
  end.

(** The device after the service has received a sequence of start commands
    (a null intent or an unknown action is [None]). *)
Definition after_commands (dev : Kt.Device) (commands : list (option Kt.BlockingService.Action))
    : Kt.Device :=
  foldl (λ dev action, state_of (Kt.BlockingService.onStartCommand action dev)) dev commands.

(** The verdict of the service as a boolean: no verdict is no block. *)
Definition verdict_bool (v : Try (option (bool * Kt.BlockingService.BlockInfo))) : bool :=
  match v with
  | Ok (Some (shouldBlock, _)) => shouldBlock
  | _ => false
  end.

(** The shared preferences after the edits of a trace. *)
Definition replay (prefs : gmap string Kt.PrefValue) (t : list Kt.Event)
    : gmap string Kt.PrefValue :=
  foldl (λ m ev, match ev with
                 | Kt.prefs_edit edits => foldl Kt.apply_edit m edits
                 | _ => m
                 end) prefs t.

(** The keys under which the service records the blocked app. *)
Definition blocked_keys : list string :=
  [Kt.KEY_BLOCKED_APP; Kt.KEY_BLOCKED_APP_NAME; "blocked_usage_ms"; "blocked_limit_ms"].

Definition is_process_query (ev : Kt.Event) : bool :=
  match ev with Kt.get_runningAppProcesses => true | _ => false end.

(** A platform at another SDK level, with or without app tasks. *)
Definition phone_on (sdk : Z) (appTasks : bool) (os : Kt.Android) : Kt.Android :=
  {| Kt.context_packageName := Kt.context_packageName os;
     Kt.SDK_INT := sdk;
     Kt.getSharedPreferences := Kt.getSharedPreferences os;
     Kt.activityManager := Kt.activityManager os;
     Kt.runningAppProcesses := Kt.runningAppProcesses os;
     Kt.appTasks_isNotEmpty := appTasks;
     Kt.usageStatsManager := Kt.usageStatsManager os;
     Kt.queryUsageStats := Kt.queryUsageStats os;
     Kt.getApplicationLabel := Kt.getApplicationLabel os;
     Kt.getInstalledApplications := Kt.getInstalledApplications os;
     Kt.hasLauncher := Kt.hasLauncher os;
     Kt.usageAppName := Kt.usageAppName os;
     Kt.startActivity := Kt.startActivity os;
     Kt.JSONArray := Kt.JSONArray os;
     Kt.JSONObject := Kt.JSONObject os |}.

(** A computation that reads the preferences and nothing else of the
    device, and changes nothing: on a device with the same preferences and
    any state of the check task it makes the same calls and gives the same
    result. *)
Definition reads_prefs_only {A} (m : Eff Kt.Device Kt.Event A) : Prop :=
  ∀ dev task,
    m {| Kt.prefs := Kt.prefs dev; Kt.checkTask := task |}
    = ({| Kt.prefs := Kt.prefs dev; Kt.checkTask := task |}, trace_of (m dev), value_of (m dev)).

(** A text with a dot in it. *)
Fixpoint has_dot (s : string) : bool :=
  match s with
  | EmptyString => false
  | String c rest => Ascii.eqb c "."%char || has_dot rest
  end.

(** A printer of org.json for the examples, and a service that starts. *)
Definition example_starter : Kt.BlockingServiceModuleImpl.Starter :=
  {| Kt.BlockingServiceModuleImpl.JSONArray_toString :=
       λ apps, if bool_decide (apps = ["com.x"]) then json_apps_x else "[]";
     Kt.BlockingServiceModuleImpl.JSONObject_toString :=
       λ obj, match obj !! "com.x" with
              | Some ms => json_limits_x ms
              | None => "{}"
              end;
     Kt.BlockingServiceModuleImpl.startForegroundService := Ok tt |}.


(** ** The configuration left behind when the last limit is removed *)

(** com.x is selected with a limit of one minute, and the limits after the
    user has removed that limit. *)
Definition one_minute_limit : gmap string Z := {["com.x" := 60000]}.

Definition limit_removed : gmap string Z :=
  JS.limits (state_of (JS.removeLimit "com.x" {| JS.limits := one_minute_limit |})).

(** A phone on which com.x is in the foreground and has been used for one
    minute today. *)
Definition phone_x : Kt.Android :=
  phone (Ok tt) (Ok (Some [process "com.x"])) (stats_x 60000).

(** The device after the native call the hook makes for [one_minute_limit]
    (on a device that had no stored configuration and no check task), and
    after the native call the hook makes for [limit_removed]. *)
Definition device_started : Kt.Device :=
  state_of (Kt.BlockingServiceModuleImpl.startBlockingService phone_x example_starter
              ["com.x"] [Some (Some "com.x", 60000)]
              {| Kt.prefs := ∅; Kt.checkTask := false |}).

Definition device_stopped : Kt.Device :=
  state_of (Kt.BlockingServiceModuleImpl.stopBlockingService device_started).
(** ** Proof tactics *)

(** Unfold the monad down to functions on states. *)
Ltac eff_unfold :=
  unfold mbind, mret, Eff_bind, Eff_ret, eff_bind, eff_ret, catch, emit, lift, get,
    modify, throw, state_of, trace_of, value_of in *.

(** Close a goal [∃ t, run = (s, t, v) ∧ forallb harmless t = true] once the
    run has been computed. *)
Ltac fin :=
  eexists; split; [reflexivity|];
  simpl; rewrite ?app_nil_r, ?forallb_app; simpl;
  repeat match goal with H : forallb harmless _ = true |- _ => rewrite H; clear H end;
  done.

(** ** Lemmas on the JavaScript side *)

Lemma emitted_app (t1 t2 : list JS.Event) :
  JS.emitted (t1 ++ t2) = JS.emitted t1 ++ JS.emitted t2.
Proof. unfold JS.emitted. apply omap_app. Qed.

Lemma refreshUsage_run (rt : JS.Runtime) (st : JS.UsageStore) :
  ∃ st' t, JS.refreshUsage rt st = (st', t, Ok tt) ∧ JS.emitted t = [].
Proof.
  unfold JS.refreshUsage.
  destruct (JS.UsageStatsModule rt) as [[stats|e]|]; eff_unfold; simpl; eauto.
Qed.

(** The loop never touches the usage store, and what it emits comes from an
    app of the list that passed both of its tests. *)
Lemma scan_sound getFg (limits usage : gmap string Z) (apps : list JS.SelectedApp) :
  ∀ asked st, ∃ t r,
    JS.scan getFg limits usage asked apps st = (st, t, r) ∧
    (JS.emitted t = [] ∨
     ∃ app n fg, app ∈ apps ∧ getFg n = Ok fg ∧ JS.foreground_allows fg app = true ∧
                 candidate limits usage app = true ∧
                 JS.emitted t = [block_of limits usage app]).
Proof.
  induction apps as [|app rest IH]; intros asked st; simpl.
  - eff_unfold. eexists _, _. split; [reflexivity|]. by left.
  - assert (Hrest : ∀ asked, ∃ t r,
      JS.scan getFg limits usage asked rest st = (st, t, r) ∧
      (JS.emitted t = [] ∨
       ∃ app0 n fg, app0 ∈ app :: rest ∧ getFg n = Ok fg ∧
                    JS.foreground_allows fg app0 = true ∧
                    candidate limits usage app0 = true ∧
                    JS.emitted t = [block_of limits usage app0])).
    { intros k. destruct (IH k st) as (t & r & Hrun & [He|(a & n & fg & Ha & Hr)]).
      - exists t, r. split; [done|]. by left.
      - exists t, r. split; [done|]. right. exists a, n, fg. split; [by right|done]. }
    destruct (limits !! JS.packageName app) as [l|] eqn:Hl; [|apply Hrest].
    case_bool_decide as Hz; [apply Hrest|].
    case_bool_decide as Hu; [|apply Hrest].
    eff_unfold. destruct (getFg asked) as [fg|e] eqn:Hq.
    + destruct (JS.foreground_allows fg app) eqn:Ha.
      * eexists _, _. split; [reflexivity|]. right. exists app, asked, fg.
        split; [by left|]. split; [done|]. split; [done|].
        unfold candidate, block_of. rewrite Hl. simpl.
        split; [|done]. rewrite (bool_decide_false _ Hz), (bool_decide_true _ Hu). done.
      * destruct (Hrest (S asked)) as (t & r & -> & Hem).
        eexists _, _. split; [reflexivity|]. simpl. done.
    + eexists _, _. split; [reflexivity|]. by left.
Qed.

(** With a foreground answer that does not change during the run, the loop
    emits for the first app that passes both tests, and for no other. *)
Lemma scan_stable getFg fg (limits usage : gmap string Z) :
  (∀ n, getFg n = Ok fg) →
  ∀ (apps : list JS.SelectedApp) asked st, ∃ t,
    JS.scan getFg limits usage asked apps st = (st, t, Ok tt) ∧
    JS.emitted t =
      option_list (block_of limits usage <$>
        List.find (λ app, candidate limits usage app && JS.foreground_allows fg app) apps).
Proof.
  intros Hfg. induction apps as [|app rest IH]; intros asked st; simpl.
  - eff_unfold. eauto.
  - unfold candidate at 1.
    destruct (limits !! JS.packageName app) as [l|] eqn:Hl; simpl; [|apply IH].
    case_bool_decide as Hz; simpl; [apply IH|].
    case_bool_decide as Hu; simpl; [|apply IH].
    eff_unfold. rewrite Hfg.
    destruct (JS.foreground_allows fg app) eqn:Ha; simpl.
    + eexists. split; [reflexivity|]. simpl. unfold block_of. by rewrite Hl.
    + destruct (IH (S asked) st) as (t & -> & Ht). eexists. split; [reflexivity|]. done.
Qed.

(** The loop returns at its first match: the apps after it are not looked at. *)
Lemma scan_stops getFg fg (limits usage : gmap string Z) app post :
  (∀ n, getFg n = Ok fg) →
  candidate limits usage app && JS.foreground_allows fg app = true →
  ∀ (pre : list JS.SelectedApp) asked st,
    JS.scan getFg limits usage asked (pre ++ app :: post) st
    = JS.scan getFg limits usage asked (pre ++ [app]) st.
Proof.
  intros Hfg Happ. apply andb_true_iff in Happ as [Hc Ha].
  induction pre as [|a pre IH]; intros asked st; simpl.
  - unfold candidate in Hc.
    destruct (limits !! JS.packageName app) as [l|] eqn:Hl; [|done].
    apply andb_true_iff in Hc as [Hz Hu]. apply negb_true_iff in Hz.
    rewrite Hz, Hu. eff_unfold. rewrite Hfg, Ha. done.
  - destruct (limits !! JS.packageName a) as [l|]; [|apply IH].
    case_bool_decide; [apply IH|]. case_bool_decide; [|apply IH].
    eff_unfold. rewrite Hfg. destruct (JS.foreground_allows fg a); [done|].
    by rewrite IH.
Qed.

(** One run of checkForBlockedApp: no module, no work; no active limit, a
    cleared BlockState and nothing else; otherwise the refresh followed by
    the loop, on the usage map the refresh has left in the store. *)
Lemma checkForBlockedApp_run (rt : JS.Runtime) (apps : list JS.SelectedApp)
    (limits : gmap string Z) (st : JS.UsageStore) :
  let run := JS.checkForBlockedApp rt apps limits st in
  match JS.ForegroundAppModule rt with
  | None => run = (st, [], Ok tt)
  | Some getFg =>
      if JS.hasActiveLimits apps limits then
        ∃ st1 t1, JS.refreshUsage rt st = (st1, t1, Ok tt) ∧ JS.emitted t1 = [] ∧
                  state_of run = st1 ∧
                  JS.emitted (trace_of run)
                  = JS.emitted (trace_of (JS.scan getFg limits (JS.todayUsage st1) 0 apps st1))
      else run = (st, [JS.setBlockedApp None], Ok tt)
  end.
Proof.
  simpl. unfold JS.checkForBlockedApp.
  destruct (JS.ForegroundAppModule rt) as [getFg|]; [|done].
  destruct (JS.hasActiveLimits apps limits); simpl; [|done].
  destruct (refreshUsage_run rt st) as (st1 & t1 & Hr & He).
  exists st1, t1. split; [done|]. split; [done|].
  destruct (scan_sound getFg limits (JS.todayUsage st1) apps 0%nat st1) as (t2 & r & Hs & _).
  eff_unfold. rewrite Hr. simpl. rewrite Hs. simpl.
  destruct r; simpl; rewrite ?app_nil_r, ?emitted_app, ?He; simpl; [done|].
  by rewrite app_nil_r.
Qed.

(** A package of the selection with a limit above zero makes the limits
    active. *)
Lemma hasActiveLimits_intro (apps : list JS.SelectedApp) (limits : gmap string Z) p l :
  p ∈ map JS.packageName apps → limits !! p = Some l → 0 < l →
  JS.hasActiveLimits apps limits = true.
Proof.
  intros Hin Hl Hpos. unfold JS.hasActiveLimits. apply existsb_exists.
  apply list_elem_of_fmap in Hin as (app & -> & Hin).
  exists app. split; [by apply list_elem_of_In|]. rewrite Hl. by apply bool_decide_true.
Qed.

(** Under well-formed limits the test of the loop is the one of the
    specification. *)
Lemma candidate_spec (limits usage : gmap string Z) fg app :
  limits_wf limits →
  candidate limits usage app && JS.foreground_allows fg app
  = spec_blockable limits usage fg app.
Proof.
  intros Hwf. unfold candidate, spec_blockable, JS.foreground_allows.
  destruct (limits !! JS.packageName app) as [l|] eqn:Hl; [|done].
  apply Hwf in Hl. f_equal. f_equal.
  repeat case_bool_decide; simpl; try done; lia.
Qed.

Lemma find_ext_bool {A} (f g : A → bool) (l : list A) :
  (∀ x, f x = g x) → List.find f l = List.find g l.
Proof. intros H. induction l as [|x l IH]; simpl; [done|]. by rewrite H, IH. Qed.

(** What a run of checkForBlockedApp emits: nothing, or one BlockState, for
    an app of the selection that passed the tests of the loop on the usage
    map the run has left in the store. *)
Lemma checkForBlockedApp_sound (rt : JS.Runtime) (apps : list JS.SelectedApp)
    (limits : gmap string Z) (st : JS.UsageStore) :
  let run := JS.checkForBlockedApp rt apps limits st in
  let usage := JS.todayUsage (state_of run) in
  JS.emitted (trace_of run) = [] ∨
  ∃ getFg app n fg,
    JS.ForegroundAppModule rt = Some getFg ∧ app ∈ apps ∧ getFg n = Ok fg ∧
    JS.foreground_allows fg app = true ∧ candidate limits usage app = true ∧
    JS.emitted (trace_of run) = [block_of limits usage app].
Proof.
  simpl. pose proof (checkForBlockedApp_run rt apps limits st) as Hrun. simpl in Hrun.
  destruct (JS.ForegroundAppModule rt) as [getFg|] eqn:Hm; [|rewrite Hrun; by left].
  destruct (JS.hasActiveLimits apps limits); [|rewrite Hrun; by left].
  destruct Hrun as (st1 & t1 & Hr & He & -> & ->).
  destruct (scan_sound getFg limits (JS.todayUsage st1) apps 0%nat st1)
    as (t2 & r & -> & [Hem|(app & n & fg & Hin & Hq & Ha & Hc & Hem)]); simpl.
  - by left.
  - right. by exists getFg, app, n, fg.
Qed.

(** The same with a foreground answer that does not change during the run. *)
Lemma checkForBlockedApp_stable (rt : JS.Runtime) getFg fg (apps : list JS.SelectedApp)
    (limits : gmap string Z) (st : JS.UsageStore) :
  JS.ForegroundAppModule rt = Some getFg → (∀ n, getFg n = Ok fg) →
  let run := JS.checkForBlockedApp rt apps limits st in
  let usage := JS.todayUsage (state_of run) in
  JS.emitted (trace_of run) =
    if JS.hasActiveLimits apps limits then
      option_list (block_of limits usage <$>
        List.find (λ app, candidate limits usage app && JS.foreground_allows fg app) apps)
    else [].
Proof.
  intros Hm Hfg. simpl.
  pose proof (checkForBlockedApp_run rt apps limits st) as Hrun. simpl in Hrun.
  rewrite Hm in Hrun.
  destruct (JS.hasActiveLimits apps limits); [|by rewrite Hrun].
  destruct Hrun as (st1 & t1 & Hr & He & -> & ->).
  destruct (scan_stable getFg fg limits (JS.todayUsage st1) Hfg apps 0%nat st1) as (t2 & Hs & Ht).
  rewrite Hs. simpl. exact Ht.
Qed.

(** Without a limit above zero in the selection nothing meets the contract. *)
Lemma no_active_limits_no_match (limits usage : gmap string Z) fg (apps : list JS.SelectedApp) :
  JS.hasActiveLimits apps limits = false →
  List.find (spec_blockable limits usage fg) apps = None.
Proof.
  unfold JS.hasActiveLimits. induction apps as [|app rest IH]; simpl; [done|].
  intros [Happ Hrest]%orb_false_iff. rewrite (IH Hrest).
  unfold spec_blockable. destruct (limits !! JS.packageName app); [|done].
  by rewrite Happ.
Qed.

Lemma at_most_one_block (rt : JS.Runtime) (apps : list JS.SelectedApp)
    (limits : gmap string Z) (st : JS.UsageStore) :
  (length (JS.emitted (trace_of (JS.checkForBlockedApp rt apps limits st))) ≤ 1)%nat.
Proof.
  destruct (checkForBlockedApp_sound rt apps limits st)
    as [->|(? & ? & ? & ? & _ & _ & _ & _ & _ & ->)]; simpl; lia.
Qed.

(** With package [p] in the foreground, only an app named [p] can match. *)
Lemma find_foreground_under (limits usage : gmap string Z) fg L (apps : list JS.SelectedApp) :
  limits !! JS.fg_packageName fg = Some L →
  ¬ L ≤ default 0 (usage !! JS.fg_packageName fg) →
  List.find (λ app, candidate limits usage app && JS.foreground_allows (Some fg) app) apps = None.
Proof.
  intros HL Hu. induction apps as [|app rest IH]; [done|].
  cbn [List.find]. rewrite IH.
  assert (candidate limits usage app && JS.foreground_allows (Some fg) app = false) as ->; [|done].
  unfold candidate, JS.foreground_allows.
  case_bool_decide as Hp; [|by rewrite andb_false_r].
  rewrite <- Hp, HL. rewrite (bool_decide_false _ Hu). by rewrite andb_false_r.
Qed.

Lemma find_foreground_over (limits usage : gmap string Z) fg L (apps : list JS.SelectedApp) :
  limits !! JS.fg_packageName fg = Some L → L ≠ 0 →
  L ≤ default 0 (usage !! JS.fg_packageName fg) →
  JS.fg_packageName fg ∈ map JS.packageName apps →
  ∃ app, List.find (λ app, candidate limits usage app && JS.foreground_allows (Some fg) app) apps
         = Some app ∧ JS.packageName app = JS.fg_packageName fg.
Proof.
  intros HL Hz Hu. induction apps as [|app rest IH].
  - intros Hin. by apply elem_of_nil in Hin.
  - intros Hin. cbn [List.find]. unfold candidate at 1, JS.foreground_allows at 1.
    case_bool_decide as Hp.
    + exists app. rewrite <- Hp, HL.
      rewrite (bool_decide_false _ Hz), (bool_decide_true _ Hu). done.
    + rewrite andb_false_r. apply IH.
      cbn [map] in Hin. apply elem_of_cons in Hin as [Heq|Hin]; [congruence|done].
Qed.

(** The refresh makes no foreground query and sets no BlockState; when the
    native usage query throws it logs the error and keeps the cached map. *)
Lemma refreshUsage_trace (rt : JS.Runtime) (st : JS.UsageStore) :
  ¬ In JS.getCurrentForegroundApp (trace_of (JS.refreshUsage rt st)) ∧
  (∀ b, ¬ In (JS.setBlockedApp b) (trace_of (JS.refreshUsage rt st))) ∧
  ∀ e, JS.UsageStatsModule rt = Some (Threw e) →
       JS.refreshUsage rt st
       = ({| JS.todayUsage := JS.todayUsage st;
             JS.yesterdayUsage := JS.yesterdayUsage st;
             JS.lastUpdated := JS.lastUpdated st;
             JS.isLoading := false |},
          [JS.getTodayUsageStats; JS.console_error "Error refreshing usage stats:" e],
          Ok tt).
Proof.
  unfold JS.refreshUsage.
  destruct (JS.UsageStatsModule rt) as [[stats|e']|]; eff_unfold; simpl.
  - split; [|split]; [intuition discriminate|intros b; intuition discriminate|done].
  - split; [|split]; [intuition discriminate|intros b; intuition discriminate|].
    intros e Heq. by simplify_eq.
  - split; [|split]; [tauto|intros b; tauto|done].
Qed.


(** The loop does not read the usage store it is run on. *)
Lemma scan_state_irrelevant getFg (limits usage : gmap string Z) (apps : list JS.SelectedApp) :
  ∀ asked st st',
    trace_of (JS.scan getFg limits usage asked apps st)
    = trace_of (JS.scan getFg limits usage asked apps st').
Proof.
  induction apps as [|app rest IH]; intros asked st st'; simpl; [done|].
  destruct (limits !! JS.packageName app) as [l|]; [|apply IH].
  case_bool_decide; [apply IH|]. case_bool_decide; [|apply IH].
  eff_unfold. destruct (getFg asked) as [fg|e]; simpl; [|done].
  destruct (JS.foreground_allows fg app); simpl; [done|].
  specialize (IH (S asked) st st').
  destruct (JS.scan getFg limits usage (S asked) rest st) as [[s1 t1] r1].
  destruct (JS.scan getFg limits usage (S asked) rest st') as [[s2 t2] r2].
  simpl in *. by rewrite IH.
Qed.

(** ** Lemmas on the Kotlin side *)

Lemma harmless_not_block (t : list Kt.Event) :
  forallb harmless t = true → existsb is_block t = false.
Proof.
  induction t as [|ev t IH]; simpl; [done|].
  intros [Hev Ht]%andb_true_iff. rewrite (IH Ht), orb_false_r.
  by destruct ev.
Qed.

Lemma harmless_not_blocks (t : list Kt.Event) p :
  forallb harmless t = true → existsb (blocks p) t = false.
Proof.
  induction t as [|ev t IH]; simpl; [done|].
  intros [Hev Ht]%andb_true_iff. rewrite (IH Ht), orb_false_r.
  by destruct ev.
Qed.

Lemma getString_run key def (dev : Kt.Device) :
  ∃ r, Kt.getString key def dev = (dev, [], r).
Proof.
  unfold Kt.getString. eff_unfold. simpl.
  destruct (Kt.prefs dev !! key) as [[s|n]|]; eauto.
Qed.

Lemma parseStringArray_run os TAG json (dev : Kt.Device) :
  ∃ t l, Kt.parseStringArray os TAG json dev = (dev, t, Ok l) ∧ forallb harmless t = true.
Proof.
  unfold Kt.parseStringArray. eff_unfold.
  destruct (Kt.JSONArray os json); simpl; eauto.
Qed.

Lemma parseLimitsMap_run os TAG json (dev : Kt.Device) :
  ∃ t m, Kt.parseLimitsMap os TAG json dev = (dev, t, Ok m) ∧ forallb harmless t = true.
Proof.
  unfold Kt.parseLimitsMap. eff_unfold.
  destruct (Kt.JSONObject os json); simpl; eauto.
Qed.

Lemma getCurrentUsage_run os TAG p (dev : Kt.Device) :
  ∃ t u, Kt.getCurrentUsage os TAG p dev = (dev, t, Ok u) ∧ forallb harmless t = true.
Proof.
  unfold Kt.getCurrentUsage. eff_unfold.
  destruct (Kt.usageStatsManager os); simpl; [|eauto].
  destruct (Kt.queryUsageStats os Kt.INTERVAL_DAILY) as [[stats|]|e]; simpl; [|eauto..].
  destruct (List.find _ stats); simpl; eauto.
Qed.

Lemma first_foreground_not_ours ours procs :
  Kt.BlockingService.first_foreground ours procs ≠ Some ours.
Proof.
  induction procs as [|pi rest IH]; simpl; [done|].
  case_bool_decide; [|done].
  destruct (Kt.pkgList pi) as [[|p ps]|]; try done.
  case_bool_decide; [|done]. congruence.
Qed.

Lemma getForegroundApp_run os (dev : Kt.Device) :
  ∃ t r, Kt.BlockingService.getForegroundApp os dev = (dev, t, Ok r) ∧
         forallb harmless t = true ∧ r ≠ Some (Kt.context_packageName os).
Proof.
  unfold Kt.BlockingService.getForegroundApp. eff_unfold.
  destruct (Kt.activityManager os); simpl; [|by eauto 10].
  case_bool_decide; simpl; [|by eauto 10].
  destruct (Kt.runningAppProcesses os) as [[procs|]|e]; simpl; [|by eauto 10..].
  eexists _, _. split; [reflexivity|]. split; [done|]. apply first_foreground_not_ours.
Qed.

Lemma shouldBlockApp_run os p (dev : Kt.Device) :
  ∃ t, Kt.BlockingService.shouldBlockApp os p dev = (dev, t, Ok (service_verdict os dev p)) ∧
       forallb harmless t = true.
Proof.
  unfold Kt.BlockingService.shouldBlockApp, service_verdict, stored_config, label_or_suffix.
  eff_unfold.
  destruct (Kt.getSharedPreferences os) as [[]|e]; simpl; [|fin].
  destruct (getString_run Kt.KEY_SELECTED_APPS "[]" dev) as ([sel|e] & ->); simpl; [|fin].
  destruct (getString_run Kt.KEY_LIMITS "{}" dev) as ([lj|e] & ->); simpl; [|fin].
  destruct (parseStringArray_run os Kt.BlockingService.TAG sel dev) as (t1 & selected & -> & H1).
  simpl.
  destruct (parseLimitsMap_run os Kt.BlockingService.TAG lj dev) as (t2 & limits & -> & H2).
  simpl.
  case_bool_decide; simpl; [|fin].
  destruct (limits !! p) as [L|]; simpl; [|fin].
  case_bool_decide; simpl; [fin|].
  destruct (getCurrentUsage_run os Kt.BlockingService.TAG p dev) as (t3 & u & -> & H3).
  simpl. fin.
Qed.

Lemma accessibility_shouldBlockApp_run os p (dev : Kt.Device) :
  ∃ t, Kt.AppBlockingAccessibilityService.shouldBlockApp os p dev
       = (dev, t, Ok (accessibility_verdict os dev p)) ∧
       forallb harmless t = true.
Proof.
  unfold Kt.AppBlockingAccessibilityService.shouldBlockApp, accessibility_verdict, stored_config.
  eff_unfold.
  destruct (Kt.getSharedPreferences os) as [[]|e]; simpl; [|fin].
  destruct (getString_run Kt.KEY_SELECTED_APPS "[]" dev) as ([sel|e] & ->); simpl; [|fin].
  destruct (getString_run Kt.KEY_LIMITS "{}" dev) as ([lj|e] & ->); simpl; [|fin].
  destruct (parseStringArray_run os Kt.AppBlockingAccessibilityService.TAG sel dev)
    as (t1 & selected & -> & H1).
  simpl.
  destruct (parseLimitsMap_run os Kt.AppBlockingAccessibilityService.TAG lj dev)
    as (t2 & limits & -> & H2).
  simpl.
  case_bool_decide; simpl; [|fin].
  destruct (limits !! p) as [L|]; simpl; [|fin].
  case_bool_decide; simpl; [fin|].
  destruct (getCurrentUsage_run os Kt.AppBlockingAccessibilityService.TAG p dev)
    as (t3 & u & -> & H3).
  simpl. fin.
Qed.

Lemma bringAppToForeground_run os (dev : Kt.Device) :
  ∃ t, Kt.BlockingService.bringAppToForeground os dev
       = (dev, Kt.startActivity_MainActivity None :: t, Ok tt) ∧
       forallb harmless t = true.
Proof.
  unfold Kt.BlockingService.bringAppToForeground. eff_unfold.
  destruct (Kt.startActivity os) as [[]|e]; simpl; eauto.
Qed.

Lemma armed_as_refl dev : armed_as dev dev.
Proof. by repeat split. Qed.

(** One tick of the service, case by case. *)
Lemma checkAndBlock_run os (dev : Kt.Device) :
  ∃ dev' t,
    Kt.BlockingService.checkAndBlock os dev = (dev', t, Ok tt) ∧ armed_as dev dev' ∧
    match Kt.getSharedPreferences os, value_of (Kt.getString Kt.KEY_SELECTED_APPS "[]" dev) with
    | Ok _, Ok selectedAppsJson =>
        if bool_decide (selectedAppsJson = "[]") then
          dev' = dev ∧
          t = [Kt.Log_d Kt.BlockingService.TAG "No apps to monitor, stopping service"; Kt.stopSelf]
        else
          ∃ t1 fg, Kt.BlockingService.getForegroundApp os dev = (dev, t1, Ok fg) ∧
          match fg with
          | Some p =>
              ∃ t2, Kt.BlockingService.shouldBlockApp os p dev
                    = (dev, t2, Ok (service_verdict os dev p)) ∧
              match service_verdict os dev p with
              | Some (true, info) =>
                  ∃ t3,
                    t = t1 ++ t2 ++
                        [Kt.Log_d Kt.BlockingService.TAG
                           ("Blocking app detected: " +:+ p +:+ " ("
                            +:+ Kt.BlockingService.appName info +:+ ") - usage: "
                            +:+ pretty (Kt.BlockingService.usageMs info) +:+ "ms, limit: "
                            +:+ pretty (Kt.BlockingService.limitMs info) +:+ "ms");
                         Kt.prefs_edit
                           [Kt.putString Kt.KEY_BLOCKED_APP p;
                            Kt.putString Kt.KEY_BLOCKED_APP_NAME (Kt.BlockingService.appName info);
                            Kt.putLong "blocked_usage_ms" (Kt.BlockingService.usageMs info);
                            Kt.putLong "blocked_limit_ms" (Kt.BlockingService.limitMs info)];
                         Kt.startActivity_MainActivity None] ++ t3 ∧
                    forallb harmless t3 = true
              | Some (false, info) =>
                  t = t1 ++ t2 ++
                      [Kt.prefs_edit [Kt.remove Kt.KEY_BLOCKED_APP;
                                      Kt.remove Kt.KEY_BLOCKED_APP_NAME;
                                      Kt.remove "blocked_usage_ms";
                                      Kt.remove "blocked_limit_ms"]]
              | None => dev' = dev ∧ t = t1 ++ t2
              end
          | None => dev' = dev ∧ t = t1
          end
    | Threw e, _ | _, Threw e =>
        dev' = dev ∧
        t = [Kt.Log_e Kt.BlockingService.TAG ("Error in checkAndBlock: " +:+ e)]
    end.
Proof.
  unfold Kt.BlockingService.checkAndBlock.
  destruct (Kt.getSharedPreferences os) as [[]|e] eqn:Hprefs.
  2:{ eff_unfold. simpl. eexists _, _. split; [reflexivity|]. split; [apply armed_as_refl|done]. }
  destruct (getString_run Kt.KEY_SELECTED_APPS "[]" dev) as ([sel|e] & Hsel).
  2:{ eff_unfold. rewrite Hsel. simpl. eexists _, _. split; [reflexivity|].
      split; [apply armed_as_refl|done]. }
  unfold value_of. rewrite Hsel. simpl. eff_unfold. rewrite Hsel. simpl.
  case_bool_decide as Hempty; simpl.
  { eexists _, _. split; [reflexivity|]. split; [apply armed_as_refl|done]. }
  destruct (getForegroundApp_run os dev) as (t1 & fg & Hfg & H1 & Hours). rewrite Hfg. simpl.
  destruct fg as [p|]; simpl.
  2:{ eexists _, _. split; [reflexivity|]. split; [apply armed_as_refl|].
      exists t1, None. rewrite ?app_nil_r. done. }
  rewrite bool_decide_false by congruence. simpl.
  destruct (shouldBlockApp_run os p dev) as (t2 & Hsb & H2). rewrite Hsb. simpl.
  destruct (service_verdict os dev p) as [[[] info]|] eqn:Hv; simpl.
  - rewrite ?Hprefs. simpl.
    destruct (bringAppToForeground_run os
                {| Kt.prefs := foldl Kt.apply_edit (Kt.prefs dev)
                     [Kt.putString Kt.KEY_BLOCKED_APP p;
                      Kt.putString Kt.KEY_BLOCKED_APP_NAME (Kt.BlockingService.appName info);
                      Kt.putLong "blocked_usage_ms" (Kt.BlockingService.usageMs info);
                      Kt.putLong "blocked_limit_ms" (Kt.BlockingService.limitMs info)];
                   Kt.checkTask := Kt.checkTask dev |}) as (t3 & Hb & H3).
    simpl in Hb. rewrite Hb. simpl.
    eexists _, _. split; [reflexivity|]. split.
    { unfold armed_as. simpl. rewrite !lookup_insert_ne by (by compute). done. }
    exists t1, (Some p). split; [done|]. exists t2. rewrite Hv. split; [done|].
    exists t3. split; [|done]. by rewrite ?app_nil_r.
  - rewrite ?Hprefs. simpl.
    eexists _, _. split; [reflexivity|]. split.
    { unfold armed_as. simpl. by rewrite !lookup_delete_ne by (by compute). }
    exists t1, (Some p). split; [done|]. exists t2. rewrite Hv. split; [done|].
    by rewrite ?app_nil_r.
  - eexists _, _. split; [reflexivity|]. split; [apply armed_as_refl|].
    exists t1, (Some p). split; [done|]. exists t2. rewrite Hv. split; [done|].
    by rewrite ?app_nil_r.
Qed.

(** A configuration that was read: the preferences opened, both texts were
    strings, and the JSON helpers gave the two values. *)
Lemma stored_config_ok os TAG (dev : Kt.Device) selected limits :
  stored_config os TAG dev = Ok (selected, limits) →
  Kt.getSharedPreferences os = Ok tt ∧
  ∃ sel lj,
    Kt.getString Kt.KEY_SELECTED_APPS "[]" dev = (dev, [], Ok sel) ∧
    Kt.getString Kt.KEY_LIMITS "{}" dev = (dev, [], Ok lj) ∧
    selected = match Kt.JSONArray os sel with Ok l => l | Threw _ => [] end ∧
    limits = match Kt.JSONObject os lj with
             | Ok entries => foldl (λ result kv, <[kv.1 := kv.2]> result) ∅ entries
             | Threw _ => ∅
             end.
Proof.
  unfold stored_config. eff_unfold.
  destruct (Kt.getSharedPreferences os) as [[]|e]; simpl; [|done].
  destruct (getString_run Kt.KEY_SELECTED_APPS "[]" dev) as ([sel|e] & Hs); rewrite Hs; simpl; [|done].
  destruct (getString_run Kt.KEY_LIMITS "{}" dev) as ([lj|e] & Hl); rewrite Hl; simpl; [|done].
  unfold Kt.parseStringArray, Kt.parseLimitsMap. eff_unfold.
  intros H. split; [done|]. exists sel, lj. split; [done|]. split; [done|].
  destruct (Kt.JSONArray os sel), (Kt.JSONObject os lj); simpl in H; by simplify_eq.
Qed.

(** What a tick blocks: the foreground package, when the verdict on it says
    so, and nothing else. *)
Lemma checkAndBlock_blocks os (dev : Kt.Device) p :
  existsb (blocks p) (trace_of (Kt.BlockingService.checkAndBlock os dev)) = true →
  value_of (Kt.BlockingService.getForegroundApp os dev) = Ok (Some p) ∧
  ∃ info, service_verdict os dev p = Some (true, info).
Proof.
  destruct (checkAndBlock_run os dev) as (dev' & t & Hrun & _ & Hcases).
  rewrite Hrun. unfold trace_of, value_of in *. simpl in *.
  destruct (Kt.getSharedPreferences os) as [[]|e].
  2:{ destruct Hcases as [_ ->]. done. }
  destruct (Kt.getString Kt.KEY_SELECTED_APPS "[]" dev).2 as [sel|e].
  2:{ destruct Hcases as [_ ->]. done. }
  case_bool_decide.
  { destruct Hcases as [_ ->]. done. }
  destruct Hcases as (t1 & fg & Hfg & Hcases).
  pose proof (getForegroundApp_run os dev) as (t1' & fg' & Hfg' & H1 & _).
  rewrite Hfg in Hfg'. simplify_eq. rewrite Hfg. simpl.
  destruct fg' as [q|].
  2:{ destruct Hcases as [_ ->]. by rewrite (harmless_not_blocks _ _ H1). }
  destruct Hcases as (t2 & Hsb & Hcases).
  pose proof (shouldBlockApp_run os q dev) as (t2' & Hsb' & H2).
  rewrite Hsb in Hsb'. simplify_eq.
  destruct (service_verdict os dev q) as [[[] info]|] eqn:Hv.
  - destruct Hcases as (t3 & -> & H3).
    rewrite !existsb_app. simpl.
    rewrite (harmless_not_blocks _ _ H1), (harmless_not_blocks _ _ H2),
      (harmless_not_blocks _ _ H3). simpl.
    rewrite !orb_false_r. intros Hq%bool_decide_eq_true. subst q.
    split; [done|]. rewrite Hv. by exists info.
  - rewrite Hcases.
    rewrite !existsb_app, (harmless_not_blocks _ _ H1), (harmless_not_blocks _ _ H2). done.
  - destruct Hcases as [_ ->].
    rewrite !existsb_app, (harmless_not_blocks _ _ H1), (harmless_not_blocks _ _ H2). done.
Qed.

Lemma blockApp_run os p (dev : Kt.Device) :
  ∃ t, Kt.AppBlockingAccessibilityService.blockApp os p dev
       = (dev, Kt.startActivity_MainActivity (Some p) :: t, Ok tt) ∧
       ∀ q, existsb (blocks q) t = false.
Proof.
  unfold Kt.AppBlockingAccessibilityService.blockApp. eff_unfold.
  destruct (Kt.startActivity os) as [[]|e]; simpl; eauto.
Qed.

(** One accessibility event, case by case: an event that is no window
    change, has no package or comes from our own package does nothing; any
    other asks the verdict and redirects when it says so. *)
Lemma onAccessibilityEvent_run os event (dev : Kt.Device) :
  ∃ t, Kt.AppBlockingAccessibilityService.onAccessibilityEvent os event dev = (dev, t, Ok tt) ∧
       match event with
       | None => t = []
       | Some ev =>
           if bool_decide (Kt.eventType ev = Kt.TYPE_WINDOW_STATE_CHANGED) then
             match Kt.event_packageName ev with
             | None => t = []
             | Some p =>
                 if bool_decide (p = Kt.context_packageName os) then t = []
                 else
                   ∃ t1, forallb harmless t1 = true ∧
                         if accessibility_verdict os dev p then
                           ∃ t2, (∀ q, existsb (blocks q) t2 = false) ∧
                                 t = t1 ++ Kt.startActivity_MainActivity (Some p) :: t2
                         else t = t1
             end
           else t = []
       end.
Proof.
  unfold Kt.AppBlockingAccessibilityService.onAccessibilityEvent.
  destruct event as [ev|]; [|eff_unfold; eauto].
  eff_unfold. case_bool_decide; simpl; [|eauto].
  destruct (Kt.event_packageName ev) as [p|]; simpl; [|eauto].
  case_bool_decide; simpl; [eauto|].
  destruct (accessibility_shouldBlockApp_run os p dev) as (t1 & -> & H1). simpl.
  destruct (accessibility_verdict os dev p); simpl.
  - destruct (blockApp_run os p dev) as (t2 & -> & H2). simpl.
    eexists. split; [reflexivity|].
    exists (Kt.Log_d Kt.AppBlockingAccessibilityService.TAG ("Window state changed for: " +:+ p)
            :: t1 ++ [Kt.Log_d Kt.AppBlockingAccessibilityService.TAG
                        ("Blocking app launch: " +:+ p)]).
    split; [simpl; by rewrite forallb_app, H1|].
    exists t2. split; [done|]. simpl. by rewrite <- !app_assoc.
  - eexists. split; [reflexivity|].
    exists (Kt.Log_d Kt.AppBlockingAccessibilityService.TAG ("Window state changed for: " +:+ p)
            :: t1).
    split; [done|]. simpl. by rewrite ?app_nil_r.
Qed.

(** What an accessibility event blocks: the package of the window, when the
    verdict on it says so, and nothing else. *)
Lemma onAccessibilityEvent_blocks os event (dev : Kt.Device) p :
  existsb (blocks p)
    (trace_of (Kt.AppBlockingAccessibilityService.onAccessibilityEvent os event dev)) = true →
  accessibility_verdict os dev p = true ∧ p ≠ Kt.context_packageName os.
Proof.
  destruct (onAccessibilityEvent_run os event dev) as (t & -> & Hcases).
  unfold trace_of. simpl.
  destruct event as [ev|]; [|by subst t].
  case_bool_decide; [|by subst t].
  destruct (Kt.event_packageName ev) as [q|]; [|by subst t].
  case_bool_decide as Hq; [by subst t|].
  destruct Hcases as (t1 & H1 & Hcases).
  destruct (accessibility_verdict os dev q) eqn:Hv.
  - destruct Hcases as (t2 & H2 & ->). rewrite existsb_app. simpl.
    rewrite (harmless_not_blocks _ _ H1), H2, orb_false_r. simpl.
    intros ->%bool_decide_eq_true. done.
  - subst t. by rewrite (harmless_not_blocks _ _ H1).
Qed.


(** Every entry of the usage map is capped. *)
Lemma usageStatsMap_capped (stats : list Kt.UsageStats) :
  map_Forall (λ _ v, v ≤ Kt.UsageStatsModuleImpl.maxDailyUsage)
             (Kt.UsageStatsModuleImpl.usageStatsMap stats).
Proof.
  unfold Kt.UsageStatsModuleImpl.usageStatsMap.
  assert (H : ∀ (m : gmap string Z),
             map_Forall (λ _ v, v ≤ Kt.UsageStatsModuleImpl.maxDailyUsage) m →
             map_Forall (λ _ v, v ≤ Kt.UsageStatsModuleImpl.maxDailyUsage)
               (foldl (λ m stat, <[Kt.packageName stat :=
                                     Z.min (Kt.totalTimeInForeground stat)
                                           Kt.UsageStatsModuleImpl.maxDailyUsage]> m) m stats)).
  { induction stats as [|stat rest IH]; intros m Hm; simpl; [done|].
    apply IH. apply map_Forall_insert_2; [lia|done]. }
  apply H, map_Forall_empty.
Qed.

Lemma installed_loop_zero os processed apps e :
  e ∈ Kt.UsageStatsModuleImpl.installed_loop os processed apps →
  Kt.stat_totalTimeInForeground e = 0.
Proof.
  revert processed. induction apps as [|a rest IH]; intros processed; simpl.
  - intros H. by apply elem_of_nil in H.
  - repeat case_match; try apply IH;
      (intros [->|Hin]%elem_of_cons; [done|by apply IH in Hin]).
Qed.

Lemma retry_with_run os interval stats (dev : Kt.Device) :
  ∃ t r, Kt.UsageStatsModuleImpl.retry_with os interval stats dev = (dev, t, r).
Proof.
  unfold Kt.UsageStatsModuleImpl.retry_with. eff_unfold.
  destruct (Kt.UsageStatsModuleImpl.null_or_empty stats); simpl; [|eauto].
  destruct (Kt.queryUsageStats os interval); eauto.
Qed.

(** What getTodayUsageStats resolves with never exceeds 24 hours. *)
Lemma getTodayUsageStats_capped os (dev : Kt.Device) entries e :
  value_of (Kt.UsageStatsModuleImpl.getTodayUsageStats os dev) = Ok entries →
  e ∈ entries →
  Kt.stat_totalTimeInForeground e ≤ Kt.UsageStatsModuleImpl.maxDailyUsage.
Proof.
  unfold Kt.UsageStatsModuleImpl.getTodayUsageStats.
  eff_unfold.
  assert (Hmax : 0 ≤ Kt.UsageStatsModuleImpl.maxDailyUsage) by (by compute).
  assert (Hfinal : ∀ stats : option (list Kt.UsageStats), ∀ entries,
    match stats with
    | None => Ok []
    | Some [] => Ok (Kt.UsageStatsModuleImpl.installed_loop os None (Kt.getInstalledApplications os))
    | Some (s :: l) =>
        Ok (Kt.UsageStatsModuleImpl.from_usage os (Kt.UsageStatsModuleImpl.usageStatsMap (s :: l))
            ++ Kt.UsageStatsModuleImpl.installed_loop os
                 (Some (map Kt.stat_packageName
                          (Kt.UsageStatsModuleImpl.from_usage os
                             (Kt.UsageStatsModuleImpl.usageStatsMap (s :: l)))))
                 (Kt.getInstalledApplications os))
    end = Ok entries → e ∈ entries →
    Kt.stat_totalTimeInForeground e ≤ Kt.UsageStatsModuleImpl.maxDailyUsage).
  { intros [[|s l]|] ents Heq Hin; simplify_eq.
    - by rewrite (installed_loop_zero _ _ _ _ Hin).
    - apply elem_of_app in Hin as [Hin|Hin].
      + unfold Kt.UsageStatsModuleImpl.from_usage in Hin.
        apply list_elem_of_omap in Hin as ([k v] & Hkv & Hsome).
        case_bool_decide; simplify_eq. simpl.
        apply elem_of_map_to_list in Hkv.
        by apply (usageStatsMap_capped (s :: l)) in Hkv.
      + by rewrite (installed_loop_zero _ _ _ _ Hin).
    - by apply elem_of_nil in Hin. }
  destruct (Kt.usageStatsManager os); simpl.
  2:{ intros ? Hin. simplify_eq. by apply elem_of_nil in Hin. }
  destruct (Kt.queryUsageStats os Kt.INTERVAL_DAILY) as [s1|?]; simpl; [|done].
  destruct (retry_with_run os Kt.INTERVAL_BEST s1 dev) as (t2 & [s2|?] & ->); simpl; [|done].
  destruct (retry_with_run os Kt.INTERVAL_WEEKLY s2 dev) as (t3 & [s3|?] & ->); simpl; [|done].
  destruct (retry_with_run os Kt.INTERVAL_MONTHLY s3 dev) as (t4 & [s4|?] & ->); simpl; [|done].
  intros Heq. apply (Hfinal s4). by destruct s4 as [[|]|].
Qed.


Lemma parseStringArray_trace os TAG json (dev : Kt.Device) :
  forallb is_error_log (trace_of (Kt.parseStringArray os TAG json dev)) = true.
Proof. unfold Kt.parseStringArray. eff_unfold. by destruct (Kt.JSONArray os json). Qed.

Lemma parseLimitsMap_trace os TAG json (dev : Kt.Device) :
  forallb is_error_log (trace_of (Kt.parseLimitsMap os TAG json dev)) = true.
Proof. unfold Kt.parseLimitsMap. eff_unfold. by destruct (Kt.JSONObject os json). Qed.


(** The foreground query of the service: it never asks for usage, and when
    the process list throws, the answer is null and the error is logged. *)
Lemma getForegroundApp_trace os (dev : Kt.Device) :
  (∀ i, ¬ In (Kt.call_queryUsageStats i) (trace_of (Kt.BlockingService.getForegroundApp os dev))) ∧
  ∀ e, Kt.runningAppProcesses os = Threw e →
       ∃ t, Kt.BlockingService.getForegroundApp os dev = (dev, t, Ok None) ∧
            (In Kt.get_runningAppProcesses t →
             t = [Kt.get_runningAppProcesses;
                  Kt.Log_e Kt.BlockingService.TAG ("Error getting foreground app: " +:+ e)]).
Proof.
  unfold Kt.BlockingService.getForegroundApp. eff_unfold.
  destruct (Kt.activityManager os); simpl.
  2:{ split; [intros i; intuition discriminate|].
      intros e _. eexists. split; [done|]. intros [|[]]; done. }
  case_bool_decide; simpl.
  2:{ split; [intros i; tauto|]. intros e _. eexists. split; [done|]. intros []. }
  destruct (Kt.runningAppProcesses os) as [[procs|]|e']; simpl.
  - split; [intros i; intuition discriminate|]. done.
  - split; [intros i; intuition discriminate|]. done.
  - split; [intros i; intuition discriminate|]. intros e Heq. simplify_eq.
    eexists. split; [done|]. done.
Qed.



(** Without a limit for the package, the verdict is reached before any
    usage query. *)
Lemma shouldBlockApp_no_limit os p (dev : Kt.Device) selected (limits : gmap string Z) :
  stored_config os Kt.BlockingService.TAG dev = Ok (selected, limits) →
  limits !! p = None →
  ∀ i, ¬ In (Kt.call_queryUsageStats i) (trace_of (Kt.BlockingService.shouldBlockApp os p dev)).
Proof.
  intros Hcfg Hl i.
  destruct (stored_config_ok os _ dev selected limits Hcfg)
    as (Hprefs & sel & lj & Hsel & Hlj & Hselected & Hlimits).
  unfold Kt.BlockingService.shouldBlockApp. eff_unfold.
  rewrite Hprefs, Hsel. simpl. rewrite Hlj. simpl.
  pose proof (parseStringArray_trace os Kt.BlockingService.TAG sel dev) as Hl1.
  pose proof (parseLimitsMap_trace os Kt.BlockingService.TAG lj dev) as Hl2.
  unfold Kt.parseStringArray, Kt.parseLimitsMap in *. eff_unfold.
  destruct (Kt.JSONArray os sel) as [l1|e1], (Kt.JSONObject os lj) as [l2|e2];
    simpl in *; subst; rewrite ?Hl; simpl.
  all: try destruct (bool_decide (p ∈ _)); simpl; intuition discriminate.
Qed.

(** ** The limits store *)

(** C9. After setLimit(p, v), getLimit(p) returns v; after removeLimit(p),
    getLimit(p) returns undefined; in both cases the stored limit of every
    other package is unchanged. *)
Theorem limits_store_set_remove (st : JS.LimitsStore) (p : string) (v : Z) :
  JS.getLimit p (state_of (JS.setLimit p v st)) = Some v ∧
  JS.getLimit p (state_of (JS.removeLimit p st)) = None ∧
  ∀ q, q ≠ p →
       JS.getLimit q (state_of (JS.setLimit p v st)) = JS.getLimit q st ∧
       JS.getLimit q (state_of (JS.removeLimit p st)) = JS.getLimit q st.
Proof.
  unfold JS.setLimit, JS.removeLimit, JS.getLimit. eff_unfold. simpl.
  split; [apply lookup_insert_eq|]. split; [apply lookup_delete_eq|].
  intros q Hq. split; [by apply lookup_insert_ne|by apply lookup_delete_ne].
Qed.

Lemma limits_store_set_remove_witness :
  JS.getLimit "com.y" (state_of (JS.setLimit "com.x" 60000 {| JS.limits := {["com.y" := 5]} |}))
  = Some 5.
Proof.
  transitivity (JS.getLimit "com.y" {| JS.limits := {["com.y" := 5]} |}); [|reflexivity].
  apply (limits_store_set_remove {| JS.limits := {["com.y" := 5]} |} "com.x" 60000).
  vm_compute. discriminate.
Defined.

(** ** The JavaScript evaluation *)

(** C10. In the JS evaluation, a limited package (limit above zero) that is
    absent from the today-usage map is treated as having usage 0: it fails
    the comparison of the loop, and no BlockState is emitted for it. *)
Theorem absent_usage_never_blocked (rt : JS.Runtime) (apps : list JS.SelectedApp)
    (limits : gmap string Z) (st : JS.UsageStore) (p : string) (L : Z) :
  limits !! p = Some L → 0 < L →
  let run := JS.checkForBlockedApp rt apps limits st in
  JS.todayUsage (state_of run) !! p = None →
  (∀ app, JS.packageName app = p →
          candidate limits (JS.todayUsage (state_of run)) app = false) ∧
  ∀ b, b ∈ JS.emitted (trace_of run) → JS.blocked_packageName b ≠ p.
Proof.
  intros HL Hpos run Hu.
  assert (Hc : ∀ app, JS.packageName app = p →
                      candidate limits (JS.todayUsage (state_of run)) app = false).
  { intros app Hp. unfold candidate. rewrite Hp, HL, Hu. simpl.
    rewrite (bool_decide_false (L ≤ 0)) by lia. apply andb_false_r. }
  split; [done|]. intros b Hb.
  destruct (checkForBlockedApp_sound rt apps limits st)
    as [He|(getFg & app & n & fg & _ & _ & _ & _ & Hcand & He)];
    fold run in He; rewrite He in Hb.
  - by apply elem_of_nil in Hb.
  - fold run in Hcand. apply list_elem_of_singleton in Hb as ->. simpl.
    intros Hp. by rewrite (Hc app Hp) in Hcand.
Qed.

Lemma absent_usage_never_blocked_witness :
  candidate {["com.x" := 60000]}
    (JS.todayUsage (state_of (JS.checkForBlockedApp (runtime (Ok None) (Ok []))
                                [com_x] {["com.x" := 60000]} empty_store)))
    com_x = false ∧
  JS.emitted (trace_of (JS.checkForBlockedApp (runtime (Ok None) (Ok []))
                          [com_x] {["com.x" := 60000]} empty_store)) = [].
Proof.
  split; [|reflexivity].
  apply (absent_usage_never_blocked (runtime (Ok None) (Ok [])) [com_x]
           {["com.x" := 60000]} empty_store "com.x" 60000).
  - reflexivity.
  - lia.
  - reflexivity.
  - reflexivity.
Defined.

(** C5. Each evaluation of the blocking policy returns at most one
    BlockState, and it is the first limited package in the selection list's
    insertion order whose usage has met or exceeded its limit and that
    matches the foreground identity (or whose foreground identity is
    unknown); scanning stops at the first match: the run on the whole list
    is the run on the list cut after that match. *)
Theorem first_match_wins (rt : JS.Runtime) getFg fg (apps : list JS.SelectedApp)
    (limits : gmap string Z) (st : JS.UsageStore) :
  JS.ForegroundAppModule rt = Some getFg → (∀ n, getFg n = Ok fg) → limits_wf limits →
  let run := JS.checkForBlockedApp rt apps limits st in
  let usage := JS.todayUsage (state_of run) in
  (length (JS.emitted (trace_of run)) ≤ 1)%nat ∧
  JS.emitted (trace_of run) = option_list (spec_first_blocked limits usage fg apps) ∧
  ∀ pre app post,
    apps = pre ++ app :: post → spec_blockable limits usage fg app = true →
    run = JS.checkForBlockedApp rt (pre ++ [app]) limits st.
Proof.
  intros Hm Hfg Hwf run usage. split; [apply at_most_one_block|]. split.
  - unfold run, usage, spec_first_blocked.
    rewrite (checkForBlockedApp_stable rt getFg fg apps limits st Hm Hfg).
    destruct (JS.hasActiveLimits apps limits) eqn:Hact.
    + f_equal. f_equal. apply find_ext_bool. intros app. by apply candidate_spec.
    + by rewrite no_active_limits_no_match.
  - intros pre app post -> Happ.
    assert (Hlim : ∃ l, limits !! JS.packageName app = Some l ∧ 0 < l).
    { unfold spec_blockable in Happ. destruct (limits !! JS.packageName app) as [l|]; [|done].
      exists l. split; [done|].
      apply andb_true_iff in Happ as [[Hl _]%andb_true_iff _].
      by apply bool_decide_eq_true in Hl. }
    destruct Hlim as (l & Hl & Hpos).
    assert (Hact : ∀ post', JS.hasActiveLimits (pre ++ app :: post') limits = true).
    { intros post'. apply (hasActiveLimits_intro _ _ (JS.packageName app) l); [|done..].
      rewrite map_app. apply elem_of_app. right. apply elem_of_cons. by left. }
    pose proof (checkForBlockedApp_run rt (pre ++ app :: post) limits st) as Hrun.
    simpl in Hrun. rewrite Hm, Hact in Hrun. destruct Hrun as (st1 & t1 & Hr & _ & Hst & _).
    rewrite <- (candidate_spec _ _ _ _ Hwf) in Happ.
    unfold usage, run in Happ. rewrite Hst in Happ.
    unfold run, JS.checkForBlockedApp. rewrite Hm, (Hact post), (Hact []). simpl.
    eff_unfold. rewrite Hr. simpl.
    by rewrite (scan_stops getFg fg limits (JS.todayUsage st1) app post Hfg Happ).
Qed.

Lemma first_match_wins_witness :
  JS.emitted (trace_of (JS.checkForBlockedApp
                          (runtime (Ok None) (Ok (usage_x 60000)))
                          [com_y; com_x; com_x] {["com.x" := 60000]} empty_store))
  = [{| JS.blocked_packageName := "com.x"; JS.blocked_appName := "X";
        JS.usageMs := 60000; JS.limitMs := 60000 |}].
Proof.
  refine (proj1 (proj2 (first_match_wins (runtime (Ok None) (Ok (usage_x 60000)))
                          (λ _, Ok None) None [com_y; com_x; com_x] {["com.x" := 60000]}
                          empty_store _ _ _))).
  - reflexivity.
  - reflexivity.
  - apply (bool_decide_unpack _). vm_compute. exact I.
Defined.

(** C2, as amended. Whenever a run emits a BlockState for a package p, then
    (a) p is in the limit map with a limit above zero, (b) p is the package
    the foreground query reported, or the query reported no package, and (c)
    p's usage sample has met its limit.  Limits are taken as the data model
    has them, not below zero. *)
Theorem block_state_invariant (rt : JS.Runtime) (apps : list JS.SelectedApp)
    (limits : gmap string Z) (st : JS.UsageStore) (b : JS.BlockedApp) :
  limits_wf limits →
  let run := JS.checkForBlockedApp rt apps limits st in
  let usage := JS.todayUsage (state_of run) in
  let p := JS.blocked_packageName b in
  b ∈ JS.emitted (trace_of run) →
  (limits !! p = Some (JS.limitMs b) ∧ 0 < JS.limitMs b) ∧
  (∃ getFg n fg,
     JS.ForegroundAppModule rt = Some getFg ∧ getFg n = Ok fg ∧
     (fg = None ∨ ∃ info, fg = Some info ∧ JS.fg_packageName info = p)) ∧
  (JS.usageMs b = default 0 (usage !! p) ∧ JS.limitMs b ≤ JS.usageMs b).
Proof.
  intros Hwf run usage p Hb.
  destruct (checkForBlockedApp_sound rt apps limits st)
    as [He|(getFg & app & n & fg & Hm & _ & Hq & Ha & Hc & He)];
    fold run in He; rewrite He in Hb.
  { by apply elem_of_nil in Hb. }
  fold run in Hc. fold usage in Hc, Hb. apply list_elem_of_singleton in Hb.
  unfold p. rewrite Hb. unfold block_of. simpl.
  unfold candidate in Hc. destruct (limits !! JS.packageName app) as [l|] eqn:Hl; [|done].
  apply andb_true_iff in Hc as [Hz Hu]. apply negb_true_iff, bool_decide_eq_false in Hz.
  apply bool_decide_eq_true in Hu. apply Hwf in Hl as Hpos. simpl in *.
  split; [split; [done|lia]|]. split; [|done].
  exists getFg, n, fg. split; [done|]. split; [done|].
  destruct fg as [info|]; [|by left]. right. exists info. split; [done|].
  by apply bool_decide_eq_true in Ha.
Qed.

Lemma block_state_invariant_witness :
  ∃ getFg n fg,
    JS.ForegroundAppModule (runtime (Ok (Some foreground_x)) (Ok (usage_x 60000))) = Some getFg ∧
    getFg n = Ok fg ∧
    (fg = None ∨ ∃ info, fg = Some info ∧ JS.fg_packageName info = "com.x").
Proof.
  refine (proj1 (proj2 (block_state_invariant
                          (runtime (Ok (Some foreground_x)) (Ok (usage_x 60000)))
                          [com_x] {["com.x" := 60000]} empty_store
                          {| JS.blocked_packageName := "com.x"; JS.blocked_appName := "X";
                             JS.usageMs := 60000; JS.limitMs := 60000 |} _ _))).
  - apply (bool_decide_unpack _). vm_compute. exact I.
  - vm_compute. constructor.
Defined.

(** C2, as stated, fails: with com.x over its limit and a foreground query
    that reports no package, the run emits a BlockState for com.x although
    com.x is not the reported foreground package. *)
Lemma block_state_without_foreground :
  let rt := runtime (Ok None) (Ok (usage_x 60000)) in
  let run := JS.checkForBlockedApp rt [com_x] {["com.x" := 60000]} empty_store in
  JS.emitted (trace_of run)
  = [{| JS.blocked_packageName := "com.x"; JS.blocked_appName := "X";
        JS.usageMs := 60000; JS.limitMs := 60000 |}] ∧
  ¬ ∃ getFg n info,
      JS.ForegroundAppModule rt = Some getFg ∧ getFg n = Ok (Some info) ∧
      JS.fg_packageName info = "com.x".
Proof.
  split; [reflexivity|].
  intros (getFg & n & info & Hm & Hq & _). simpl in Hm.
  injection Hm as <-. discriminate Hq.
Qed.

(** ** Usage against limit *)

(** C1, as amended. For every package p of the selection list with a
    configured limit L above zero that is the current foreground package,
    the policy emits a BlockState for p if and only if today's usage u for p
    satisfies u >= L, and that BlockState carries u and L.  On the JS side u
    is the entry of the today-usage map (0 when absent); in the service it
    is what getCurrentUsage returns, shouldBlockApp gives the verdict
    u >= L, and the tick blocks p exactly when the verdict holds. *)
Theorem block_iff_usage_meets_limit (p : string) (L : Z) :
  0 < L →
  (∀ rt getFg fg (apps : list JS.SelectedApp) (limits : gmap string Z) st,
     JS.ForegroundAppModule rt = Some getFg → (∀ n, getFg n = Ok (Some fg)) →
     JS.fg_packageName fg = p →
     p ∈ map JS.packageName apps → limits !! p = Some L →
     let run := JS.checkForBlockedApp rt apps limits st in
     let u := default 0 (JS.todayUsage (state_of run) !! p) in
     ((∃ b, b ∈ JS.emitted (trace_of run) ∧ JS.blocked_packageName b = p) ↔ L ≤ u) ∧
     (∀ b, b ∈ JS.emitted (trace_of run) →
           JS.blocked_packageName b = p ∧ JS.usageMs b = u ∧ JS.limitMs b = L)) ∧
  (∀ os dev selected (limits : gmap string Z) u,
     stored_config os Kt.BlockingService.TAG dev = Ok (selected, limits) →
     p ∈ selected → limits !! p = Some L →
     value_of (Kt.getCurrentUsage os Kt.BlockingService.TAG p dev) = Ok u →
     value_of (Kt.BlockingService.shouldBlockApp os p dev)
     = Ok (Some (bool_decide (L ≤ u),
                 {| Kt.BlockingService.appName := label_or_suffix os p;
                    Kt.BlockingService.usageMs := u;
                    Kt.BlockingService.limitMs := L |})) ∧
     (Kt.JSONArray os "[]" = Ok [] →
      value_of (Kt.BlockingService.getForegroundApp os dev) = Ok (Some p) →
      existsb (blocks p) (trace_of (Kt.BlockingService.checkAndBlock os dev))
      = bool_decide (L ≤ u))).
Proof.
  intros Hpos. split.
  - intros rt getFg fg apps limits st Hm Hfg Hp Hin HL run u. subst p.
    assert (Hem : JS.emitted (trace_of run)
                  = option_list (block_of limits (JS.todayUsage (state_of run)) <$>
                      List.find (λ app, candidate limits (JS.todayUsage (state_of run)) app
                                        && JS.foreground_allows (Some fg) app) apps)).
    { unfold run. rewrite (checkForBlockedApp_stable rt getFg (Some fg) apps limits st Hm Hfg).
      by rewrite (hasActiveLimits_intro apps limits _ L Hin HL Hpos). }
    destruct (decide (L ≤ u)) as [Hu|Hu].
    + destruct (find_foreground_over limits (JS.todayUsage (state_of run)) fg L apps HL
                  ltac:(lia) Hu Hin) as (app & Hfind & Happ).
      rewrite Hfind in Hem. simpl in Hem. rewrite Hem. split.
      * split; [done|]. intros _. eexists. split; [apply list_elem_of_here|]. done.
      * intros b ->%list_elem_of_singleton. unfold block_of, u. simpl.
        by rewrite Happ, HL.
    + rewrite (find_foreground_under limits (JS.todayUsage (state_of run)) fg L apps HL Hu)
        in Hem.
      simpl in Hem. rewrite Hem. split.
      * split; [|done]. intros (b & Hb & _). by apply elem_of_nil in Hb.
      * intros b Hb. by apply elem_of_nil in Hb.
  - intros os dev selected limits u Hcfg Hin HL Hu.
    assert (Hv : service_verdict os dev p
                 = Some (bool_decide (L ≤ u),
                         {| Kt.BlockingService.appName := label_or_suffix os p;
                            Kt.BlockingService.usageMs := u;
                            Kt.BlockingService.limitMs := L |})).
    { unfold service_verdict. rewrite Hcfg, (bool_decide_true _ Hin), HL.
      rewrite bool_decide_false by lia. by rewrite Hu. }
    split.
    { destruct (shouldBlockApp_run os p dev) as (t & -> & _). simpl. by rewrite Hv. }
    intros Hjson Hfg.
    destruct (stored_config_ok os _ dev selected limits Hcfg)
      as (Hprefs & sel & lj & Hsel & _ & Hselected & _).
    destruct (checkAndBlock_run os dev) as (dev' & t & Hrun & _ & Hcases).
    rewrite Hrun. unfold trace_of, value_of in *. simpl in *.
    rewrite Hprefs, Hsel in Hcases. simpl in Hcases.
    rewrite bool_decide_false in Hcases.
    2:{ intros ->. rewrite Hjson in Hselected. subst selected. by apply elem_of_nil in Hin. }
    destruct Hcases as (t1 & fg & Hfg' & Hcases).
    pose proof (getForegroundApp_run os dev) as (t1' & fg'' & Hfg'' & H1 & _).
    rewrite Hfg' in Hfg, Hfg''. simpl in Hfg. simplify_eq.
    destruct Hcases as (t2 & Hsb & Hcases).
    pose proof (shouldBlockApp_run os p dev) as (t2' & Hsb' & H2).
    rewrite Hsb in Hsb'. simplify_eq. rewrite Hv in Hcases.
    destruct (bool_decide (L ≤ u)).
    + destruct Hcases as (t3 & -> & H3). rewrite !existsb_app. simpl.
      rewrite (harmless_not_blocks _ _ H1), (harmless_not_blocks _ _ H2). simpl.
      by rewrite (bool_decide_true (p = p)) by done.
    + rewrite Hcases. rewrite !existsb_app. simpl.
      by rewrite (harmless_not_blocks _ _ H1), (harmless_not_blocks _ _ H2).
Qed.

(** The two scenarios of the specification: usage at the limit gives the
    BlockState, usage one millisecond under it gives none. *)
Lemma block_iff_usage_meets_limit_witness :
  (∃ b, b ∈ JS.emitted (trace_of (JS.checkForBlockedApp
                                    (runtime (Ok (Some foreground_x)) (Ok (usage_x 60000)))
                                    [com_x] {["com.x" := 60000]} empty_store)) ∧
        JS.blocked_packageName b = "com.x") ∧
  (¬ ∃ b, b ∈ JS.emitted (trace_of (JS.checkForBlockedApp
                                      (runtime (Ok (Some foreground_x)) (Ok (usage_x 59999)))
                                      [com_x] {["com.x" := 60000]} empty_store)) ∧
          JS.blocked_packageName b = "com.x") ∧
  existsb (blocks "com.x")
    (trace_of (Kt.BlockingService.checkAndBlock
                 (phone (Ok tt) (Ok (Some [process "com.x"])) (stats_x 60000))
                 (device json_apps_x (json_limits_x 60000))))
  = true.
Proof.
  assert (Hpos : 0 < 60000) by lia.
  pose proof (block_iff_usage_meets_limit "com.x" 60000 Hpos) as [Hjs Hkt].
  split; [|split].
  - apply (Hjs (runtime (Ok (Some foreground_x)) (Ok (usage_x 60000))) (λ _, Ok (Some foreground_x))
             foreground_x [com_x] {["com.x" := 60000]} empty_store).
    + reflexivity.
    + reflexivity.
    + reflexivity.
    + vm_compute. constructor.
    + reflexivity.
    + vm_compute. discriminate.
  - intros Hex.
    apply (Hjs (runtime (Ok (Some foreground_x)) (Ok (usage_x 59999))) (λ _, Ok (Some foreground_x))
             foreground_x [com_x] {["com.x" := 60000]} empty_store) in Hex.
    + vm_compute in Hex. by apply Hex.
    + reflexivity.
    + reflexivity.
    + reflexivity.
    + vm_compute. constructor.
    + reflexivity.
  - apply (Hkt (phone (Ok tt) (Ok (Some [process "com.x"])) (stats_x 60000))
             (device json_apps_x (json_limits_x 60000)) ["com.x"] {["com.x" := 60000]} 60000).
    + reflexivity.
    + constructor.
    + reflexivity.
    + reflexivity.
    + reflexivity.
    + reflexivity.
Defined.

(** C1, as stated, fails for a package that has a limit but is not in the
    selection list (the limits store keeps the limit of an app the user has
    deselected): com.x has the limit 60000, its usage is 60000 and it is the
    foreground package, yet neither side blocks it. *)
Lemma limit_without_selection_not_blocked :
  let limits : gmap string Z := {["com.x" := 60000]} in
  let rt := runtime (Ok (Some foreground_x)) (Ok (usage_x 60000)) in
  let run := JS.checkForBlockedApp rt [] limits empty_store in
  let os := phone (Ok tt) (Ok (Some [process "com.x"])) (stats_x 60000) in
  let dev := device "[]" (json_limits_x 60000) in
  limits !! "com.x" = Some 60000 ∧
  JS.todayUsage (state_of (JS.refreshUsage rt empty_store)) !! "com.x" = Some 60000 ∧
  JS.emitted (trace_of run) = [] ∧
  stored_config os Kt.BlockingService.TAG dev = Ok ([], limits) ∧
  value_of (Kt.getCurrentUsage os Kt.BlockingService.TAG "com.x" dev) = Ok 60000 ∧
  value_of (Kt.BlockingService.shouldBlockApp os "com.x" dev) = Ok None.
Proof. repeat split; reflexivity. Qed.

(** ** Packages without a limit *)

(** Against the limit map it reads, no evaluation of the blocking policy
    blocks a package whose limit is 0 or absent, whatever its usage.  The
    JS run reads the limits store; the tick of the service and an
    accessibility event read the configuration the last
    startBlockingService has stored, which is another map once the last
    limit is removed (see the theorem after this one). *)
Lemma unlimited_package_never_blocked (p : string) :
  (∀ rt (apps : list JS.SelectedApp) (limits : gmap string Z) st,
     limits !! p = None ∨ limits !! p = Some 0 →
     ∀ b, b ∈ JS.emitted (trace_of (JS.checkForBlockedApp rt apps limits st)) →
          JS.blocked_packageName b ≠ p) ∧
  (∀ os dev selected (limits : gmap string Z),
     stored_config os Kt.BlockingService.TAG dev = Ok (selected, limits) →
     limits !! p = None ∨ limits !! p = Some 0 →
     value_of (Kt.BlockingService.shouldBlockApp os p dev) = Ok None ∧
     existsb (blocks p) (trace_of (Kt.BlockingService.checkAndBlock os dev)) = false) ∧
  (∀ os dev event selected (limits : gmap string Z),
     stored_config os Kt.AppBlockingAccessibilityService.TAG dev = Ok (selected, limits) →
     limits !! p = None ∨ limits !! p = Some 0 →
     value_of (Kt.AppBlockingAccessibilityService.shouldBlockApp os p dev) = Ok false ∧
     existsb (blocks p)
       (trace_of (Kt.AppBlockingAccessibilityService.onAccessibilityEvent os event dev))
     = false).
Proof.
  split; [|split].
  - intros rt apps limits st Hlim b Hb.
    destruct (checkForBlockedApp_sound rt apps limits st)
      as [He|(getFg & app & n & fg & _ & _ & _ & _ & Hc & He)]; rewrite He in Hb.
    { by apply elem_of_nil in Hb. }
    apply list_elem_of_singleton in Hb as ->. simpl. intros Hp.
    unfold candidate in Hc. rewrite Hp in Hc.
    destruct Hlim as [Hl|Hl]; rewrite Hl in Hc; [done|].
    by rewrite bool_decide_true in Hc.
  - intros os dev selected limits Hcfg Hlim.
    assert (Hv : service_verdict os dev p = None).
    { unfold service_verdict. rewrite Hcfg. case_bool_decide; [|done].
      destruct Hlim as [->| ->]; [done|]. by rewrite (bool_decide_true (0 ≤ 0)) by lia. }
    split.
    { destruct (shouldBlockApp_run os p dev) as (t & -> & _). simpl. by rewrite Hv. }
    apply not_true_is_false. intros Hb.
    apply checkAndBlock_blocks in Hb as (_ & info & Hinfo). congruence.
  - intros os dev event selected limits Hcfg Hlim.
    assert (Hv : accessibility_verdict os dev p = false).
    { unfold accessibility_verdict. rewrite Hcfg.
      destruct Hlim as [->| ->]; [by rewrite andb_false_r|].
      rewrite (bool_decide_true (0 ≤ 0)) by lia. by rewrite andb_false_r. }
    split.
    { destruct (accessibility_shouldBlockApp_run os p dev) as (t & -> & _). simpl.
      by rewrite Hv. }
    apply not_true_is_false. intros Hb.
    apply onAccessibilityEvent_blocks in Hb as [Hb _]. congruence.
Qed.

(** A limit of zero with 30 hours of reported usage: nobody blocks. *)
Lemma unlimited_package_never_blocked_witness :
  (∀ b, b ∈ JS.emitted (trace_of (JS.checkForBlockedApp
                                    (runtime (Ok None) (Ok (usage_x 108000000)))
                                    [com_x] {["com.x" := 0]} empty_store)) →
        JS.blocked_packageName b ≠ "com.x") ∧
  existsb (blocks "com.x")
    (trace_of (Kt.BlockingService.checkAndBlock
                 (phone (Ok tt) (Ok (Some [process "com.x"])) (stats_x 108000000))
                 (device json_apps_x (json_limits_x 0)))) = false ∧
  existsb (blocks "com.x")
    (trace_of (Kt.AppBlockingAccessibilityService.onAccessibilityEvent
                 (phone (Ok tt) (Ok (Some [process "com.x"])) (stats_x 108000000))
                 (Some (window_of "com.x"))
                 (device json_apps_x "{}"))) = false.
Proof.
  pose proof (unlimited_package_never_blocked "com.x") as (Hjs & Hsvc & Hacc).
  split; [|split].
  - apply Hjs. right. reflexivity.
  - apply (Hsvc _ _ ["com.x"] {["com.x" := 0]}); [reflexivity|]. right. reflexivity.
  - apply (Hacc _ _ _ ["com.x"] ∅); [reflexivity|]. left. reflexivity.
Defined.

(** C4 fails on the accessibility path once the last limit is removed.
    com.x is selected with a limit of one minute and has been used for one
    minute.  The hook starts the service, and startBlockingService stores
    the selection and the limit.  The user removes the limit: com.x is
    absent from the limit map, the JS run emits no BlockState, and the hook
    stops the service.  Stopping leaves the stored configuration as it is,
    so shouldBlockApp of the accessibility service still finds the limit
    there, and a window event of com.x blocks it. *)
Theorem removed_limit_still_blocked :
  let rt := runtime (Ok (Some foreground_x)) (Ok (usage_x 60000)) in
  trace_of (JS.limitsEffect rt [com_x] one_minute_limit empty_store)
  = [JS.console_log "BlockingService: Starting service";
     JS.startBlockingService ["com.x"]
       [{| JS.lim_packageName := "com.x"; JS.lim_limitMs := 60000 |}];
     JS.setIsServiceRunning true;
     JS.console_log "BlockingService: Service started successfully"] ∧
  trace_of (Kt.BlockingServiceModuleImpl.startBlockingService phone_x example_starter
              ["com.x"] [Some (Some "com.x", 60000)]
              {| Kt.prefs := ∅; Kt.checkTask := false |})
  = [Kt.Log_d "BlockingServiceModule" "Starting blocking service";
     Kt.prefs_edit [Kt.putString Kt.KEY_SELECTED_APPS json_apps_x;
                    Kt.putString Kt.KEY_LIMITS (json_limits_x 60000)];
     Kt.Log_d "BlockingService" "Starting blocking service";
     Kt.Log_d "BlockingService" "Starting monitoring task";
     Kt.Log_d "BlockingServiceModule" "Blocking service started"] ∧
  JS.getLimit "com.x" {| JS.limits := limit_removed |} = None ∧
  JS.checkForBlockedApp rt [com_x] limit_removed empty_store
  = (empty_store, [JS.setBlockedApp None], Ok tt) ∧
  In JS.stopBlockingService (trace_of (JS.limitsEffect rt [com_x] limit_removed empty_store)) ∧
  stored_config phone_x Kt.AppBlockingAccessibilityService.TAG device_stopped
  = Ok (["com.x"], one_minute_limit) ∧
  value_of (Kt.AppBlockingAccessibilityService.shouldBlockApp phone_x "com.x" device_stopped)
  = Ok true ∧
  existsb (blocks "com.x")
    (trace_of (Kt.AppBlockingAccessibilityService.onAccessibilityEvent phone_x
                 (Some (window_of "com.x")) device_stopped)) = true.
Proof.
  repeat split; try reflexivity.
  right. left. reflexivity.
Qed.

(** ** The host package *)




(** ** The 24-hour cap *)

(** C3 holds on the path of the JS evaluation: every entry that
    getTodayUsageStats hands to the usage store is at most 24 hours. *)
Lemma js_usage_capped os (dev : Kt.Device) stats stat :
  native_usage os dev = Ok stats → stat ∈ stats →
  JS.totalTimeInForeground stat ≤ 86400000.
Proof.
  unfold native_usage.
  destruct (value_of (Kt.UsageStatsModuleImpl.getTodayUsageStats os dev)) as [entries|e] eqn:Hv;
    [|done].
  intros Heq Hin. simplify_eq.
  apply list_elem_of_fmap in Hin as (entry & -> & Hin). simpl.
  by apply (getTodayUsageStats_capped os dev entries entry Hv Hin).
Qed.

(** C3 at the failing input.  The system reports 30 hours for com.x, whose
    limit is 25 hours.  The native module caps the value it hands to JS at
    24 hours, and the JS evaluation does not block; getCurrentUsage of the
    two services returns the 30 hours as they are, compares them with the
    limit, and both services block. *)
Theorem service_usage_not_capped :
  let os := phone (Ok tt) (Ok (Some [process "com.x"])) (stats_x (hours 30)) in
  let dev := device json_apps_x (json_limits_x (hours 25)) in
  native_usage os dev
  = Ok [{| JS.stat_packageName := "com.x"; JS.stat_appName := "X";
           JS.totalTimeInForeground := hours 24 |}] ∧
  JS.emitted (trace_of (JS.checkForBlockedApp
                          (runtime (Ok (Some foreground_x)) (native_usage os dev))
                          [com_x] {["com.x" := hours 25]} empty_store)) = [] ∧
  value_of (Kt.getCurrentUsage os Kt.BlockingService.TAG "com.x" dev) = Ok (hours 30) ∧
  value_of (Kt.BlockingService.shouldBlockApp os "com.x" dev)
  = Ok (Some (true, {| Kt.BlockingService.appName := "X";
                       Kt.BlockingService.usageMs := hours 30;
                       Kt.BlockingService.limitMs := hours 25 |})) ∧
  existsb (blocks "com.x") (trace_of (Kt.BlockingService.checkAndBlock os dev)) = true ∧
  value_of (Kt.AppBlockingAccessibilityService.shouldBlockApp os "com.x" dev) = Ok true ∧
  existsb (blocks "com.x")
    (trace_of (Kt.AppBlockingAccessibilityService.onAccessibilityEvent os
                 (Some (window_of "com.x")) dev)) = true.
Proof. repeat split; reflexivity. Qed.

(** ** Failing reads *)




(** ** An empty set of limited packages *)

(** What does stop.  Whenever no selected package has a limit above zero
    (in particular after removeLimit on the only such package), the effect
    of the hook stops the service, the JS run clears the BlockState without
    any query, and stopping the service cancels its check task.  A tick of
    the service stops itself, without any query, when the stored selection
    text is the empty array, and makes no usage query and blocks nothing
    when the stored limit map is empty. *)
Lemma no_active_limits_stops_monitoring :
  (∀ rt (apps : list JS.SelectedApp) (limits : gmap string Z) st native_start,
     JS.hasActiveLimits apps limits = false →
     JS.BlockingServiceModule rt = Some (native_start, Ok tt) →
     trace_of (JS.limitsEffect rt apps limits st)
     = [JS.console_log "BlockingService: Stopping service";
        JS.stopBlockingService;
        JS.setIsServiceRunning false;
        JS.setBlockedApp None;
        JS.console_log "BlockingService: Service stopped"]) ∧
  (∀ rt getFg (apps : list JS.SelectedApp) (limits : gmap string Z) st,
     JS.hasActiveLimits apps limits = false →
     JS.ForegroundAppModule rt = Some getFg →
     JS.checkForBlockedApp rt apps limits st = (st, [JS.setBlockedApp None], Ok tt)) ∧
  (∀ (apps : list JS.SelectedApp) (limits : gmap string Z) p,
     (∀ app l, app ∈ apps → JS.packageName app ≠ p →
               limits !! JS.packageName app = Some l → l ≤ 0) →
     JS.hasActiveLimits apps
       (JS.limits (state_of (JS.removeLimit p {| JS.limits := limits |}))) = false) ∧
  (∀ dev,
     Kt.checkTask (state_of (Kt.BlockingServiceModuleImpl.stopBlockingService dev)) = false) ∧
  (∀ os dev,
     Kt.getSharedPreferences os = Ok tt →
     value_of (Kt.getString Kt.KEY_SELECTED_APPS "[]" dev) = Ok "[]" →
     Kt.BlockingService.checkAndBlock os dev
     = (dev, [Kt.Log_d Kt.BlockingService.TAG "No apps to monitor, stopping service";
              Kt.stopSelf], Ok tt)) ∧
  (∀ os dev selected,
     stored_config os Kt.BlockingService.TAG dev = Ok (selected, ∅) →
     existsb is_block (trace_of (Kt.BlockingService.checkAndBlock os dev)) = false ∧
     ∀ i, ¬ In (Kt.call_queryUsageStats i) (trace_of (Kt.BlockingService.checkAndBlock os dev))).
Proof.
  split; [|split; [|split; [|split; [|split]]]].
  - intros rt apps limits st native_start Hact Hm.
    unfold JS.limitsEffect, JS.stopService. rewrite Hm, Hact. by eff_unfold.
  - intros rt getFg apps limits st Hact Hm.
    pose proof (checkForBlockedApp_run rt apps limits st) as Hrun. simpl in Hrun.
    by rewrite Hm, Hact in Hrun.
  - intros apps limits p Hothers. unfold JS.removeLimit. eff_unfold. simpl.
    unfold JS.hasActiveLimits. apply not_true_is_false.
    intros (app & Hin & Happ)%existsb_exists. apply list_elem_of_In in Hin.
    destruct (decide (JS.packageName app = p)) as [Hp|Hp].
    + by rewrite Hp, lookup_delete_eq in Happ.
    + rewrite lookup_delete_ne in Happ by done.
      destruct (limits !! JS.packageName app) as [l|] eqn:Hl; [|done].
      apply bool_decide_eq_true in Happ. specialize (Hothers app l Hin Hp Hl). lia.
  - intros dev. reflexivity.
  - intros os dev Hprefs Hsel.
    destruct (checkAndBlock_run os dev) as (dev' & t & Hrun & _ & Hcases).
    rewrite Hprefs, Hsel in Hcases. rewrite bool_decide_true in Hcases by done.
    destruct Hcases as [-> ->]. done.
  - intros os dev selected Hcfg.
    destruct (stored_config_ok os _ dev selected ∅ Hcfg)
      as (Hprefs & sel & lj & Hsel & _ & _ & _).
    destruct (checkAndBlock_run os dev) as (dev' & t & Hrun & _ & Hcases).
    rewrite Hrun. unfold trace_of, value_of in *. simpl.
    rewrite Hprefs, Hsel in Hcases. simpl in Hcases.
    case_bool_decide.
    { destruct Hcases as [_ ->]. split; [done|]. intros i Hin. simpl in Hin.
      intuition discriminate. }
    destruct Hcases as (t1 & fg & Hfg & Hcases).
    destruct (getForegroundApp_trace os dev) as [Hnq _].
    destruct (getForegroundApp_run os dev) as (t1' & fg' & Hfg' & H1 & _).
    rewrite Hfg in Hfg', Hnq. simplify_eq. unfold trace_of in Hnq. simpl in Hnq.
    destruct fg' as [p|].
    2:{ destruct Hcases as [_ ->]. split; [by apply harmless_not_block|done]. }
    destruct Hcases as (t2 & Hsb & Hcases).
    pose proof (shouldBlockApp_no_limit os p dev selected ∅ Hcfg (lookup_empty _)) as Hnq2.
    destruct (shouldBlockApp_run os p dev) as (t2' & Hsb' & H2).
    rewrite Hsb in Hsb', Hnq2. simplify_eq. unfold trace_of in Hnq2. simpl in Hnq2.
    assert (Hv : service_verdict os dev p = None).
    { unfold service_verdict. rewrite Hcfg. by case_bool_decide. }
    rewrite Hv in Hcases. destruct Hcases as [_ ->]. split.
    + by rewrite existsb_app, (harmless_not_block _ H1), (harmless_not_block _ H2).
    + intros i [Hin|Hin]%in_app_or; [by apply (Hnq i)|by apply (Hnq2 i)].
Qed.

Lemma no_active_limits_stops_monitoring_witness :
  JS.checkForBlockedApp (runtime (Ok (Some foreground_x)) (Ok (usage_x 60000)))
    [com_x] (JS.limits (state_of (JS.removeLimit "com.x" {| JS.limits := {["com.x" := 60000]} |})))
    empty_store
  = (empty_store, [JS.setBlockedApp None], Ok tt) ∧
  Kt.BlockingService.checkAndBlock (phone (Ok tt) (Ok (Some [process "com.x"])) (stats_x 60000))
    (device "[]" "{}")
  = (device "[]" "{}",
     [Kt.Log_d Kt.BlockingService.TAG "No apps to monitor, stopping service"; Kt.stopSelf],
     Ok tt).
Proof.
  destruct no_active_limits_stops_monitoring as (_ & Hjs & _ & _ & Htick & _). split.
  - apply (Hjs _ (λ _, Ok (Some foreground_x))); reflexivity.
  - apply Htick; reflexivity.
Defined.

(** C7 fails for the accessibility service.  When the user removes the last
    limit, the set of packages with a positive limit is empty and the hook
    stops the service: the check task is cancelled and the polling ends.
    But stopBlockingService leaves the stored configuration as it is, and
    the accessibility service reads it on every window event: after the
    stop, an event of com.x still issues a usage query and redirects. *)
Theorem last_limit_removed_events_still_monitored :
  let rt := runtime (Ok (Some foreground_x)) (Ok (usage_x 60000)) in
  limit_removed = ∅ ∧
  JS.hasActiveLimits [com_x] limit_removed = false ∧
  trace_of (JS.limitsEffect rt [com_x] limit_removed empty_store)
  = [JS.console_log "BlockingService: Stopping service";
     JS.stopBlockingService;
     JS.setIsServiceRunning false;
     JS.setBlockedApp None;
     JS.console_log "BlockingService: Service stopped"] ∧
  Kt.BlockingServiceModuleImpl.stopBlockingService device_started
  = (device_stopped,
     [Kt.Log_d "BlockingServiceModule" "Stopping blocking service";
      Kt.Log_d "BlockingService" "Stopped monitoring";
      Kt.Log_d "BlockingService" "BlockingService destroyed";
      Kt.Log_d "BlockingServiceModule" "Blocking service stopped"], Ok tt) ∧
  Kt.checkTask device_started = true ∧
  Kt.checkTask device_stopped = false ∧
  Kt.prefs device_stopped = Kt.prefs device_started ∧
  trace_of (Kt.AppBlockingAccessibilityService.onAccessibilityEvent phone_x
              (Some (window_of "com.x")) device_stopped)
  = [Kt.Log_d "AppBlockingAccessibility" "Window state changed for: com.x";
     Kt.call_queryUsageStats Kt.INTERVAL_DAILY;
     Kt.Log_d "AppBlockingAccessibility" "Checking app: com.x, usage: 60000ms, limit: 60000ms";
     Kt.Log_d "AppBlockingAccessibility" "Blocking app launch: com.x";
     Kt.startActivity_MainActivity (Some "com.x");
     Kt.performGlobalAction_BACK;
     Kt.Log_d "AppBlockingAccessibility" "Blocked app: com.x - brought Boundly to foreground"].
Proof. repeat split; reflexivity. Qed.

(** Stopping the service leaves the stored configuration as it is, and the
    accessibility service reads the same configuration: after the stop, an
    event for com.x still asks for its usage and redirects. *)
Lemma accessibility_reads_stale_configuration :
  let os := phone (Ok tt) (Ok (Some [process "com.x"])) (stats_x 60000) in
  let dev := state_of (Kt.BlockingServiceModuleImpl.stopBlockingService
                         (device json_apps_x (json_limits_x 60000))) in
  Kt.checkTask dev = false ∧
  trace_of (Kt.AppBlockingAccessibilityService.onAccessibilityEvent os
              (Some (window_of "com.x")) dev)
  = [Kt.Log_d "AppBlockingAccessibility" "Window state changed for: com.x";
     Kt.call_queryUsageStats Kt.INTERVAL_DAILY;
     Kt.Log_d "AppBlockingAccessibility" "Checking app: com.x, usage: 60000ms, limit: 60000ms";
     Kt.Log_d "AppBlockingAccessibility" "Blocking app launch: com.x";
     Kt.startActivity_MainActivity (Some "com.x");
     Kt.performGlobalAction_BACK;
     Kt.Log_d "AppBlockingAccessibility" "Blocked app: com.x - brought Boundly to foreground"].
Proof. split; reflexivity. Qed.

(** * Further properties of the code *)

(** ** Further properties: the stores *)

Lemma isSelected_spec p (st : JS.useAppStore.AppStore) :
  JS.useAppStore.isSelected p st = true ↔ p ∈ map JS.packageName (JS.useAppStore.selectedApps st).
Proof.
  unfold JS.useAppStore.isSelected. rewrite existsb_exists. split.
  - intros (app & Hin & Hp). apply bool_decide_eq_true in Hp. subst p.
    apply list_elem_of_In, in_map. exact Hin.
  - intros Hin. apply list_elem_of_In, in_map_iff in Hin as (app & Hp & Hin).
    exists app. split; [done|]. by apply bool_decide_eq_true.
Qed.

(** X1. addApp keeps the package names of the selection unique: an app whose
    package is already selected changes nothing and writes nothing; a new
    app goes to the end of the list, is selected afterwards, and the new
    list is what is handed to the storage. *)
Theorem addApp_keeps_unique (app : JS.SelectedApp) (st : JS.useAppStore.AppStore) :
  unique_apps (JS.useAppStore.selectedApps st) →
  let run := JS.useAppStore.addApp app st in
  unique_apps (JS.useAppStore.selectedApps (state_of run)) ∧
  JS.useAppStore.isSelected (JS.packageName app) (state_of run) = true ∧
  (JS.useAppStore.isSelected (JS.packageName app) st = true → run = (st, [], Ok tt)) ∧
  (JS.useAppStore.isSelected (JS.packageName app) st = false →
   JS.useAppStore.selectedApps (state_of run) = JS.useAppStore.selectedApps st ++ [app] ∧
   trace_of run = [JS.storage_set_apps (JS.useAppStore.selectedApps st ++ [app])]).
Proof.
  intros Huniq run. unfold run, JS.useAppStore.addApp. eff_unfold. simpl.
  destruct (JS.useAppStore.isSelected (JS.packageName app) st) eqn:Hsel;
    unfold JS.useAppStore.isSelected in Hsel; rewrite Hsel; simpl.
  - split; [done|]. split; [|done].
    unfold JS.useAppStore.isSelected. exact Hsel.
  - split; [|split; [|done]].
    + unfold unique_apps. rewrite map_app. apply NoDup_app. split; [done|]. split.
      * intros p Hp [<-|[]]%list_elem_of_In.
        apply isSelected_spec in Hp. unfold JS.useAppStore.isSelected in Hp. congruence.
      * apply NoDup_singleton.
    + apply isSelected_spec. simpl. rewrite map_app. apply elem_of_app. right.
      apply list_elem_of_here.
Qed.

Lemma addApp_keeps_unique_witness :
  JS.useAppStore.selectedApps
    (state_of (JS.useAppStore.addApp com_x {| JS.useAppStore.selectedApps := [com_y] |}))
  = [com_y; com_x] ∧
  JS.useAppStore.addApp com_y {| JS.useAppStore.selectedApps := [com_y] |}
  = ({| JS.useAppStore.selectedApps := [com_y] |}, [], Ok tt).
Proof.
  assert (Hu : unique_apps [com_y]).
  { apply (bool_decide_unpack _). vm_compute. exact I. }
  split.
  - apply (addApp_keeps_unique com_x {| JS.useAppStore.selectedApps := [com_y] |} Hu).
    reflexivity.
  - apply (addApp_keeps_unique com_y {| JS.useAppStore.selectedApps := [com_y] |} Hu).
    reflexivity.
Defined.

(** X2. removeApp removes every entry of the package and nothing else, keeps
    the order of the rest, and undoes an addApp of a package that was not
    selected. *)
Theorem removeApp_removes (p : string) (st : JS.useAppStore.AppStore) :
  let st' := state_of (JS.useAppStore.removeApp p st) in
  JS.useAppStore.isSelected p st' = false ∧
  (∀ app, app ∈ JS.useAppStore.selectedApps st' ↔
          app ∈ JS.useAppStore.selectedApps st ∧ JS.packageName app ≠ p) ∧
  JS.useAppStore.selectedApps st' `sublist_of` JS.useAppStore.selectedApps st ∧
  trace_of (JS.useAppStore.removeApp p st) = [JS.storage_set_apps (JS.useAppStore.selectedApps st')] ∧
  ∀ app, JS.packageName app = p → JS.useAppStore.isSelected p st = false →
         JS.useAppStore.selectedApps
           (state_of (JS.useAppStore.removeApp p (state_of (JS.useAppStore.addApp app st))))
         = JS.useAppStore.selectedApps st.
Proof.
  assert (Hmem : ∀ l app,
    app ∈ List.filter (λ a, bool_decide (JS.packageName a ≠ p)) l ↔ app ∈ l ∧ JS.packageName app ≠ p).
  { intros l app. rewrite !list_elem_of_In, filter_In. by rewrite bool_decide_eq_true. }
  assert (Hid : ∀ l, existsb (λ a, bool_decide (JS.packageName a = p)) l = false →
                     List.filter (λ a, bool_decide (JS.packageName a ≠ p)) l = l).
  { induction l as [|a l IH]; simpl; [done|].
    intros [Ha Hl]%orb_false_iff. apply bool_decide_eq_false in Ha.
    rewrite (bool_decide_true _ Ha). by rewrite IH. }
  simpl. unfold JS.useAppStore.removeApp. eff_unfold. simpl. split; [|split; [|split; [|split]]].
  - apply not_true_is_false. intros Hsel. apply isSelected_spec in Hsel. simpl in Hsel.
    apply list_elem_of_fmap in Hsel as (a & Hp & Ha). apply Hmem in Ha as [_ Ha]. congruence.
  - intros app. apply Hmem.
  - induction (JS.useAppStore.selectedApps st) as [|a l IH]; simpl; [done|].
    case_bool_decide; [by apply sublist_skip|by apply sublist_cons].
  - done.
  - intros app Hp Hsel. unfold JS.useAppStore.addApp. eff_unfold. simpl.
    unfold JS.useAppStore.isSelected in Hsel. rewrite Hp, Hsel. simpl.
    rewrite List.filter_app, (Hid _ Hsel). simpl.
    rewrite (bool_decide_false (JS.packageName app ≠ p)) by (intros H; by apply H).
    by rewrite app_nil_r.
Qed.

Lemma removeApp_removes_witness :
  JS.useAppStore.selectedApps
    (state_of (JS.useAppStore.removeApp "com.x"
                 (state_of (JS.useAppStore.addApp com_x
                              {| JS.useAppStore.selectedApps := [com_y] |}))))
  = [com_y].
Proof.
  apply (removeApp_removes "com.x" {| JS.useAppStore.selectedApps := [com_y] |}); reflexivity.
Defined.

(** X3. How the actions of the limits store compose: a second setLimit on a
    package overrides the first, removeLimit undoes a setLimit on a package
    that had no limit, removing a package without a limit changes no limit,
    actions on different packages commute, and clearLimits forgets every
    limit. *)
Theorem limits_actions_compose (st : JS.LimitsStore) (p q : string) (v w : Z) :
  let set p v st := state_of (JS.setLimit p v st) in
  let remove p st := state_of (JS.removeLimit p st) in
  set p w (set p v st) = set p w st ∧
  remove p (set p v st) = remove p st ∧
  (JS.getLimit p st = None → remove p (set p v st) = st ∧ remove p st = st) ∧
  (p ≠ q → set p v (set q w st) = set q w (set p v st) ∧
           remove p (set q w st) = set q w (remove p st)) ∧
  ∀ r, JS.getLimit r (state_of (JS.useLimitsStore.clearLimits st)) = None.
Proof.
  destruct st as [m]. unfold JS.setLimit, JS.removeLimit, JS.useLimitsStore.clearLimits, JS.getLimit.
  eff_unfold. simpl. split; [|split; [|split; [|split]]].
  - by rewrite insert_insert_eq.
  - by rewrite delete_insert_eq.
  - intros Hp. rewrite delete_insert_eq. by rewrite (delete_id m p Hp).
  - intros Hpq. split.
    + by rewrite insert_insert_ne.
    + by rewrite delete_insert_ne.
  - intros r. apply lookup_empty.
Qed.

Lemma limits_actions_compose_witness :
  state_of (JS.removeLimit "com.x"
              (state_of (JS.setLimit "com.x" 60000 {| JS.limits := {["com.y" := 5]} |})))
  = {| JS.limits := {["com.y" := 5]} |}.
Proof.
  apply (limits_actions_compose {| JS.limits := {["com.y" := 5]} |} "com.x" "com.y" 60000 0).
  reflexivity.
Defined.

(** clearLimits empties the store and throws at [storage.delete]. *)
Lemma clearLimits_run (st : JS.LimitsStore) :
  JS.useLimitsStore.clearLimits st = ({| JS.limits := ∅ |}, [], Threw JS.TypeError_delete).
Proof. reflexivity. Qed.

(** After any actions from the fresh store, the storage holds the limits of
    the store, unless the store is empty. *)
Lemma limits_in_sync (actions : list LimitsAction) :
  let final := foldl act fresh_limits actions in
  final.2 = Some (JS.limits final.1) ∨ JS.limits final.1 = ∅.
Proof.
  simpl. induction actions as [|a actions IH] using rev_ind; [by right|].
  rewrite foldl_app. simpl. destruct a; simpl; [by left|by left|by right].
Qed.

(** X4. The limits over a restart.  After any sequence of setLimit,
    removeLimit and clearLimits from the fresh store, loadFromStorage on a
    fresh store reads back what the storage holds, provided JSON.parse
    reads what JSON.stringify wrote (and that text is not empty).  After a
    setLimit or removeLimit the storage holds exactly the limits of the
    store.  clearLimits empties the store and then throws at
    storage.delete, so the storage keeps what it held: after a clearLimits
    the restart brings back the limits from before it. *)
Theorem limits_survive_restart (actions : list LimitsAction)
    (JSON_stringify : gmap string Z → string) (JSON_parse : string → Try (gmap string Z)) :
  let final := foldl act fresh_limits actions in
  (∀ m, final.2 = Some m →
        JSON_parse (JSON_stringify m) = Ok m ∧ JSON_stringify m ≠ EmptyString) →
  JS.useLimitsStore.loadFromStorage JSON_parse (JSON_stringify <$> final.2) fresh_limits.1
  = ({| JS.limits := default ∅ final.2 |}, [], Ok tt) ∧
  (final.2 = Some (JS.limits final.1) ∨ JS.limits final.1 = ∅) ∧
  (∀ before a, actions = before ++ [a] → a ≠ ClearLimits →
               final.2 = Some (JS.limits final.1)) ∧
  (∀ before, actions = before ++ [ClearLimits] →
             JS.limits final.1 = ∅ ∧ final.2 = (foldl act fresh_limits before).2) ∧
  (∀ st, JS.useLimitsStore.clearLimits st
         = ({| JS.limits := ∅ |}, [], Threw JS.TypeError_delete)).
Proof.
  simpl. intros Hjson. split; [|split; [|split; [|split]]].
  - destruct (foldl act fresh_limits actions).2 as [m|] eqn:Hstored; simpl; [|done].
    destruct (Hjson m eq_refl) as [Hparse Hne].
    unfold JS.useLimitsStore.loadFromStorage. eff_unfold.
    destruct (JSON_stringify m) as [|c s]; [done|]. by rewrite Hparse.
  - apply limits_in_sync.
  - intros before a -> Ha. rewrite foldl_app. simpl. by destruct a.
  - intros before ->. rewrite foldl_app. done.
  - apply clearLimits_run.
Qed.

Lemma limits_survive_restart_witness :
  JS.limits (foldl act fresh_limits [SetLimit "com.x" 60000; ClearLimits]).1 = ∅ ∧
  JS.useLimitsStore.loadFromStorage
    (λ text, if bool_decide (text = json_limits_x 60000) then Ok {["com.x" := 60000]}
             else Threw "SyntaxError")
    (Some (json_limits_x 60000)) {| JS.limits := ∅ |}
  = ({| JS.limits := {["com.x" := 60000]} |}, [], Ok tt).
Proof.
  split; [reflexivity|].
  refine (proj1 (limits_survive_restart
            [SetLimit "com.x" 60000; ClearLimits]
            (λ m, match m !! "com.x" with Some ms => json_limits_x ms | None => "{}" end)
            (λ text, if bool_decide (text = json_limits_x 60000) then Ok {["com.x" := 60000]}
                     else Threw "SyntaxError") _)).
  intros m [= <-]. split; [reflexivity|]. vm_compute. discriminate.
Defined.

(** A stored text that JSON.parse rejects leaves the store as it is and logs
    the error; so does nothing stored. *)
Lemma limits_load_failure JSON_parse text e (st : JS.LimitsStore) :
  text ≠ EmptyString → JSON_parse text = Threw e →
  JS.useLimitsStore.loadFromStorage JSON_parse (Some text) st
  = (st, [JS.store_console_error "Error loading limits from storage:" e], Ok tt).
Proof.
  intros Hne He. unfold JS.useLimitsStore.loadFromStorage. eff_unfold.
  destruct text; [done|]. by rewrite He.
Qed.

(** ** Further properties: the usage store *)

Lemma stats_to_map_snoc (stats : list JS.UsageStat) s :
  JS.stats_to_map (stats ++ [s])
  = <[JS.stat_packageName s := JS.totalTimeInForeground s]> (JS.stats_to_map stats).
Proof. unfold JS.stats_to_map. by rewrite foldl_app. Qed.

Lemma stats_to_map_lookup_None (stats : list JS.UsageStat) p :
  p ∉ map JS.stat_packageName stats → JS.stats_to_map stats !! p = None.
Proof.
  induction stats as [|s stats IH] using rev_ind; intros Hp; [done|].
  rewrite stats_to_map_snoc. rewrite map_app in Hp.
  rewrite lookup_insert_ne.
  - apply IH. intros Hin. apply Hp, elem_of_app. by left.
  - intros Heq. apply Hp, elem_of_app. right. simpl. rewrite Heq. apply list_elem_of_here.
Qed.

Lemma stats_to_map_last_wins (before after : list JS.UsageStat) s :
  JS.stat_packageName s ∉ map JS.stat_packageName after →
  JS.stats_to_map (before ++ s :: after) !! JS.stat_packageName s
  = Some (JS.totalTimeInForeground s).
Proof.
  induction after as [|a after IH] using rev_ind; intros Hp.
  - rewrite stats_to_map_snoc. apply lookup_insert_eq.
  - rewrite app_comm_cons, app_assoc, stats_to_map_snoc. rewrite map_app in Hp.
    rewrite lookup_insert_ne.
    + apply IH. intros Hin. apply Hp, elem_of_app. by left.
    + intros Heq. apply Hp, elem_of_app. right. simpl. rewrite Heq. apply list_elem_of_here.
Qed.

Lemma refreshUsage_success (rt : JS.Runtime) stats (st : JS.UsageStore) :
  JS.UsageStatsModule rt = Some (Ok stats) →
  JS.refreshUsage rt st
  = ({| JS.todayUsage := JS.stats_to_map stats;
        JS.yesterdayUsage := JS.todayUsage st;
        JS.lastUpdated := Some (JS.Date_now rt);
        JS.isLoading := false |},
     [JS.getTodayUsageStats;
      JS.storage_set_usage (JS.stats_to_map stats) (JS.todayUsage st) (JS.Date_now rt)],
     Ok tt).
Proof. intros Hm. unfold JS.refreshUsage. rewrite Hm. by eff_unfold. Qed.

(** X5. A successful refresh replaces today's usage by the answer of the
    native module, where the last entry of a package wins and a package
    without entry reads as 0, and it keeps the usage from before the refresh
    as yesterday's.  Without the native module the refresh does nothing; a
    rejected query leaves both usage maps as they were. *)
Theorem refresh_replaces_usage (rt : JS.Runtime) (st : JS.UsageStore) :
  let st' := state_of (JS.refreshUsage rt st) in
  (∀ stats, JS.UsageStatsModule rt = Some (Ok stats) →
     JS.yesterdayUsage st' = JS.todayUsage st ∧ JS.isLoading st' = false ∧
     JS.lastUpdated st' = Some (JS.Date_now rt) ∧
     (∀ p, p ∉ map JS.stat_packageName stats → JS.useUsageStore.getTodayUsage p st' = 0) ∧
     (∀ before s after,
        stats = before ++ s :: after →
        JS.stat_packageName s ∉ map JS.stat_packageName after →
        JS.useUsageStore.getTodayUsage (JS.stat_packageName s) st'
        = JS.totalTimeInForeground s)) ∧
  (JS.UsageStatsModule rt = None → JS.refreshUsage rt st = (st, [], Ok tt)) ∧
  (∀ e, JS.UsageStatsModule rt = Some (Threw e) →
     JS.todayUsage st' = JS.todayUsage st ∧ JS.yesterdayUsage st' = JS.yesterdayUsage st ∧
     JS.isLoading st' = false).
Proof.
  simpl. split; [|split].
  - intros stats Hm. rewrite (refreshUsage_success rt stats st Hm).
    unfold state_of, JS.useUsageStore.getTodayUsage. simpl.
    split; [done|]. split; [done|]. split; [done|]. split.
    + intros p Hp. by rewrite stats_to_map_lookup_None.
    + intros before s after -> Hs. by rewrite stats_to_map_last_wins.
  - intros Hm. unfold JS.refreshUsage. by rewrite Hm.
  - intros e Hm. destruct (refreshUsage_trace rt st) as (_ & _ & Hthrow).
    by rewrite (Hthrow e Hm).
Qed.

Lemma refresh_replaces_usage_witness :
  JS.useUsageStore.getTodayUsage "com.x"
    (state_of (JS.refreshUsage (runtime (Ok None) (Ok (usage_x 5 ++ usage_x 7))) (cached_store 9)))
  = 7 ∧
  JS.useUsageStore.getYesterdayUsage "com.x"
    (state_of (JS.refreshUsage (runtime (Ok None) (Ok (usage_x 5 ++ usage_x 7))) (cached_store 9)))
  = 9.
Proof.
  split; [|reflexivity].
  refine (proj2 (proj2 (proj2 (proj2 (proj1 (refresh_replaces_usage
            (runtime (Ok None) (Ok (usage_x 5 ++ usage_x 7))) (cached_store 9))
            (usage_x 5 ++ usage_x 7) _))))
            (usage_x 5)
            {| JS.stat_packageName := "com.x"; JS.stat_appName := "X";
               JS.totalTimeInForeground := 7 |} [] _ _).
  - reflexivity.
  - reflexivity.
  - vm_compute. intros H. inversion H.
Defined.

(** X6. The time saved is never negative, and after two successful
    refreshes in a row with the same answer it is 0 for every package and in
    total: what the store keeps as yesterday's usage is today's usage from
    before the last refresh. *)
Theorem time_saved_after_two_refreshes (rt : JS.Runtime) stats (st : JS.UsageStore)
    (apps : list JS.SelectedApp) :
  JS.UsageStatsModule rt = Some (Ok stats) →
  let st2 := state_of (JS.refreshUsage rt (state_of (JS.refreshUsage rt st))) in
  (∀ p any, 0 ≤ JS.useUsageStore.getTimeSaved p any) ∧
  (∀ p, JS.useUsageStore.getYesterdayUsage p st2 = JS.useUsageStore.getTodayUsage p st2 ∧
        JS.useUsageStore.getTimeSaved p st2 = 0) ∧
  JS.totalTimeSaved apps st2 = 0.
Proof.
  intros Hm. simpl. rewrite !(refreshUsage_success rt stats _ Hm). unfold state_of. simpl.
  assert (Hzero : ∀ p, JS.useUsageStore.getTimeSaved p
                         {| JS.todayUsage := JS.stats_to_map stats;
                            JS.yesterdayUsage := JS.stats_to_map stats;
                            JS.lastUpdated := Some (JS.Date_now rt);
                            JS.isLoading := false |} = 0).
  { intros p. unfold JS.useUsageStore.getTimeSaved, JS.useUsageStore.getTodayUsage,
      JS.useUsageStore.getYesterdayUsage. simpl. lia. }
  split; [|split].
  - intros p any. unfold JS.useUsageStore.getTimeSaved. lia.
  - intros p. split; [done|apply Hzero].
  - unfold JS.totalTimeSaved.
    assert (H : ∀ acc, foldl (λ total app, total + JS.useUsageStore.getTimeSaved (JS.packageName app)
                         {| JS.todayUsage := JS.stats_to_map stats;
                            JS.yesterdayUsage := JS.stats_to_map stats;
                            JS.lastUpdated := Some (JS.Date_now rt);
                            JS.isLoading := false |}) acc apps = acc).
    { induction apps as [|a apps IH]; intros acc; simpl; [done|]. rewrite Hzero, IH. lia. }
    apply H.
Qed.

Lemma time_saved_after_two_refreshes_witness :
  JS.useUsageStore.getTimeSaved "com.x" (cached_store 9) = 0 ∧
  JS.totalTimeSaved [com_x]
    (state_of (JS.refreshUsage (runtime (Ok None) (Ok (usage_x 5)))
                 (state_of (JS.refreshUsage (runtime (Ok None) (Ok (usage_x 5)))
                              (cached_store 9))))) = 0.
Proof.
  split; [reflexivity|].
  apply (time_saved_after_two_refreshes (runtime (Ok None) (Ok (usage_x 5))) (usage_x 5)
           (cached_store 9) [com_x]).
  reflexivity.
Defined.

Lemma stats_to_map_bounded (stats : list JS.UsageStat) bound :
  (∀ s, s ∈ stats → JS.totalTimeInForeground s ≤ bound) →
  map_Forall (λ _ v, v ≤ bound) (JS.stats_to_map stats).
Proof.
  induction stats as [|s stats IH] using rev_ind; intros Hb.
  - apply map_Forall_empty.
  - rewrite stats_to_map_snoc. apply map_Forall_insert_2.
    + apply Hb, elem_of_app. right. apply list_elem_of_here.
    + apply IH. intros s' Hs'. apply Hb, elem_of_app. by left.
Qed.

(** X7. The 24-hour cap reaches the JS evaluation.  When the usage store is
    refreshed from the native module on a platform, every usage the store
    holds is at most 24 hours, the BlockState of the run carries a usage of
    at most 24 hours, and a package whose limit is above 24 hours is never
    blocked by the run. *)
Theorem js_never_blocks_above_24h (os : Kt.Android) (dev : Kt.Device) (rt : JS.Runtime)
    stats (apps : list JS.SelectedApp) (limits : gmap string Z) (st : JS.UsageStore) :
  JS.UsageStatsModule rt = Some (native_usage os dev) → native_usage os dev = Ok stats →
  map_Forall (λ _ usageMs, usageMs ≤ 86400000)
             (JS.todayUsage (state_of (JS.refreshUsage rt st))) ∧
  ∀ b, b ∈ JS.emitted (trace_of (JS.checkForBlockedApp rt apps limits st)) →
       JS.usageMs b ≤ 86400000 ∧ JS.limitMs b ≤ 86400000.
Proof.
  intros Hm Hstats. rewrite Hstats in Hm.
  assert (Hcap : map_Forall (λ _ usageMs, usageMs ≤ 86400000) (JS.stats_to_map stats)).
  { apply stats_to_map_bounded. intros s Hs. by apply (js_usage_capped os dev stats s). }
  split.
  { by rewrite (refreshUsage_success rt stats st Hm). }
  intros b Hb.
  pose proof (checkForBlockedApp_run rt apps limits st) as Hrun. simpl in Hrun.
  destruct (checkForBlockedApp_sound rt apps limits st)
    as [He|(getFg & app & n & fg & Hfm & _ & _ & _ & Hc & He)]; rewrite He in Hb.
  { by apply elem_of_nil in Hb. }
  apply list_elem_of_singleton in Hb as ->.
  rewrite Hfm in Hrun. destruct (JS.hasActiveLimits apps limits).
  2:{ rewrite Hrun in He. done. }
  destruct Hrun as (st1 & t1 & Hr & _ & Hst & _).
  rewrite (refreshUsage_success rt stats st Hm) in Hr.
  assert (Hmap : JS.todayUsage (state_of (JS.checkForBlockedApp rt apps limits st))
                 = JS.stats_to_map stats).
  { rewrite Hst. by injection Hr as <- _. }
  rewrite Hmap in Hc |- *. clear He Hst Hr.
  unfold candidate in Hc. unfold block_of. simpl.
  destruct (limits !! JS.packageName app) as [l|]; [|done]. simpl.
  apply andb_true_iff in Hc as [_ Hu%bool_decide_eq_true].
  assert (Hle : default 0 (JS.stats_to_map stats !! JS.packageName app) ≤ 86400000).
  { destruct (JS.stats_to_map stats !! JS.packageName app) as [u|] eqn:Hu'; simpl; [|lia].
    by apply Hcap in Hu'. }
  lia.
Qed.

Lemma js_never_blocks_above_24h_witness :
  map_Forall (λ _ usageMs, usageMs ≤ 86400000)
    (JS.todayUsage
       (state_of (JS.refreshUsage
                    (runtime (Ok None)
                       (native_usage (phone (Ok tt) (Ok None) (stats_x (hours 30)))
                          (device json_apps_x "{}")))
                    empty_store))).
Proof.
  refine (proj1 (js_never_blocks_above_24h
                   (phone (Ok tt) (Ok None) (stats_x (hours 30))) (device json_apps_x "{}")
                   (runtime (Ok None)
                      (native_usage (phone (Ok tt) (Ok None) (stats_x (hours 30)))
                         (device json_apps_x "{}")))
                   (usage_x (hours 24)) [] ∅ empty_store _ _)); reflexivity.
Defined.

(** ** Further properties: the hook *)

Lemma limitsArray_nil_iff (apps : list JS.SelectedApp) (limits : gmap string Z) :
  JS.hasActiveLimits apps limits = true ↔ JS.limitsArray apps limits ≠ [].
Proof.
  unfold JS.hasActiveLimits, JS.limitsArray.
  induction apps as [|app rest IH]; simpl; [done|].
  destruct (limits !! JS.packageName app) as [l|]; simpl; [|apply IH].
  case_bool_decide; simpl; [done|apply IH].
Qed.

Lemma limitsArray_length (apps : list JS.SelectedApp) (limits : gmap string Z) :
  length (JS.limitsArray apps limits) = JS.activeAppsCount apps limits.
Proof.
  unfold JS.activeAppsCount, JS.limitsArray.
  induction apps as [|app rest IH]; simpl; [done|].
  destruct (limits !! JS.packageName app) as [l|]; simpl; [|apply IH].
  case_bool_decide; simpl; [f_equal; apply IH|apply IH].
Qed.

(** X8. What the hook hands to the native service.  The limits array holds,
    in the order of the selection, exactly the selected packages with a
    limit above zero, each with its limit; it is non-empty exactly when the
    limits are active, and its length is the count of active apps of the
    home screen.  So the effect of the hook, when the limits are active,
    always reaches the native start call with the whole selection and this
    array, and never the stop branch of startService. *)
Theorem start_hands_over_active_limits (apps : list JS.SelectedApp) (limits : gmap string Z) :
  (JS.hasActiveLimits apps limits = true ↔ JS.limitsArray apps limits ≠ []) ∧
  length (JS.limitsArray apps limits) = JS.activeAppsCount apps limits ∧
  (∀ enabled, JS.needsAccessibility apps limits enabled
              = JS.hasActiveLimits apps limits && negb enabled) ∧
  (∀ l, l ∈ JS.limitsArray apps limits ↔
        ∃ app, app ∈ apps ∧ JS.lim_packageName l = JS.packageName app ∧
               limits !! JS.packageName app = Some (JS.lim_limitMs l) ∧ 0 < JS.lim_limitMs l) ∧
  map JS.lim_packageName (JS.limitsArray apps limits) `sublist_of` map JS.packageName apps ∧
  (∀ rt st native_stop,
     JS.hasActiveLimits apps limits = true →
     JS.BlockingServiceModule rt = Some (Ok tt, native_stop) →
     JS.limitsEffect rt apps limits st
     = (st, [JS.console_log "BlockingService: Starting service";
             JS.startBlockingService (map JS.packageName apps) (JS.limitsArray apps limits);
             JS.setIsServiceRunning true;
             JS.console_log "BlockingService: Service started successfully"], Ok tt)) ∧
  (∀ rt st native_stop e,
     JS.hasActiveLimits apps limits = true →
     JS.BlockingServiceModule rt = Some (Threw e, native_stop) →
     JS.limitsEffect rt apps limits st
     = (st, [JS.console_log "BlockingService: Starting service";
             JS.startBlockingService (map JS.packageName apps) (JS.limitsArray apps limits);
             JS.console_error "BlockingService: Error starting service:" e;
             JS.setIsServiceRunning false], Ok tt)).
Proof.
  split; [apply limitsArray_nil_iff|]. split; [apply limitsArray_length|].
  split; [|split; [|split; [|split]]].
  - intros enabled. unfold JS.needsAccessibility. f_equal.
    rewrite <- limitsArray_length.
    destruct (JS.hasActiveLimits apps limits) eqn:Hact.
    + apply limitsArray_nil_iff in Hact. apply bool_decide_true.
      destruct (JS.limitsArray apps limits); [done|simpl; lia].
    + apply bool_decide_false. intros Hlen.
      assert (Hne : JS.limitsArray apps limits ≠ []).
      { intros Hnil. rewrite Hnil in Hlen. simpl in Hlen. lia. }
      apply limitsArray_nil_iff in Hne. congruence.
  - intros l. unfold JS.limitsArray. rewrite list_elem_of_omap. split.
    + intros (app & Hin & Hl). exists app. split; [done|].
      destruct (limits !! JS.packageName app) as [v|]; [|done].
      case_bool_decide; [|done]. by simplify_eq.
    + intros (app & Hin & Hp & Hl & Hpos). exists app. split; [done|].
      rewrite Hl, bool_decide_true by done. destruct l. simpl in *. by rewrite Hp.
  - unfold JS.limitsArray. induction apps as [|app rest IH]; simpl; [constructor|].
    destruct (limits !! JS.packageName app) as [v|]; simpl.
    + case_bool_decide; simpl; [by constructor|by constructor].
    + by constructor.
  - intros rt st native_stop Hact Hm. unfold JS.limitsEffect, JS.startService.
    rewrite Hm, Hact. apply limitsArray_nil_iff in Hact.
    assert (Happs : map JS.packageName apps ≠ []).
    { destruct apps; [|done]. by destruct Hact. }
    rewrite (bool_decide_false _ Happs), (bool_decide_false _ Hact).
    by eff_unfold.
  - intros rt st native_stop e Hact Hm. unfold JS.limitsEffect, JS.startService.
    rewrite Hm, Hact. apply limitsArray_nil_iff in Hact.
    assert (Happs : map JS.packageName apps ≠ []).
    { destruct apps; [|done]. by destruct Hact. }
    rewrite (bool_decide_false _ Happs), (bool_decide_false _ Hact).
    by eff_unfold.
Qed.

Lemma start_hands_over_active_limits_witness :
  JS.limitsEffect (runtime (Ok None) (Ok [])) [com_y; com_x]
    {["com.x" := 60000; "com.y" := 0]} empty_store
  = (empty_store,
     [JS.console_log "BlockingService: Starting service";
      JS.startBlockingService ["com.y"; "com.x"]
        [{| JS.lim_packageName := "com.x"; JS.lim_limitMs := 60000 |}];
      JS.setIsServiceRunning true;
      JS.console_log "BlockingService: Service started successfully"], Ok tt).
Proof.
  refine (proj1 (proj2 (proj2 (proj2 (proj2 (proj2 (start_hands_over_active_limits
            [com_y; com_x] {["com.x" := 60000; "com.y" := 0]})))))) 
            (runtime (Ok None) (Ok [])) empty_store (Ok tt) _ _); reflexivity.
Defined.

Lemma count_events_app {E} (test : E → bool) (t1 t2 : list E) :
  count_events test (t1 ++ t2) = (count_events test t1 + count_events test t2)%nat.
Proof. unfold count_events. by rewrite List.filter_app, length_app. Qed.

Lemma scan_queries getFg (limits usage : gmap string Z) (apps : list JS.SelectedApp) :
  ∀ asked st,
    let t := trace_of (JS.scan getFg limits usage asked apps st) in
    (count_events is_foreground_query t
     ≤ length (List.filter (candidate limits usage) apps))%nat ∧
    count_events is_service_call t = 0%nat ∧
    count_events is_usage_refresh t = 0%nat.
Proof.
  induction apps as [|app rest IH]; intros asked st.
  { simpl. unfold count_events. simpl. lia. }
  cbn [JS.scan].
  assert (Hrest : ∀ asked,
    (count_events is_foreground_query
       (trace_of (JS.scan getFg limits usage asked rest st))
     ≤ length (List.filter (candidate limits usage) (app :: rest)))%nat ∧
    count_events is_service_call (trace_of (JS.scan getFg limits usage asked rest st)) = 0%nat ∧
    count_events is_usage_refresh (trace_of (JS.scan getFg limits usage asked rest st)) = 0%nat).
  { intros k. destruct (IH k st) as (H1 & H2 & H3). split; [|done].
    simpl. destruct (candidate limits usage app); simpl; lia. }
  destruct (limits !! JS.packageName app) as [l|] eqn:Hl; [|apply Hrest].
  case_bool_decide as Hz; [apply Hrest|].
  case_bool_decide as Hu; [|apply Hrest].
  assert (Hc : candidate limits usage app = true).
  { unfold candidate. by rewrite Hl, (bool_decide_false _ Hz), (bool_decide_true _ Hu). }
  cbn [List.filter]. rewrite Hc. clear Hrest.
  eff_unfold. destruct (getFg asked) as [fg|e]; simpl.
  2:{ unfold count_events. simpl. lia. }
  destruct (JS.foreground_allows fg app); simpl.
  { unfold count_events. simpl. lia. }
  destruct (IH (S asked) st) as (H1 & H2 & H3).
  destruct (JS.scan getFg limits usage (S asked) rest st) as [[s1 t1] r1].
  simpl in *. unfold count_events in *. simpl. lia.
Qed.

(** X9. The queries of one run of checkForBlockedApp: it never calls the
    blocking service, it asks for the usage statistics at most once, and it
    asks for the foreground app at most once per selected app whose usage
    has reached its non-zero limit, so at most once per selected app.
    Without active limits it asks nothing at all. *)
Theorem run_queries_bounded (rt : JS.Runtime) (apps : list JS.SelectedApp)
    (limits : gmap string Z) (st : JS.UsageStore) :
  let run := JS.checkForBlockedApp rt apps limits st in
  count_events is_service_call (trace_of run) = 0%nat ∧
  (count_events is_usage_refresh (trace_of run) ≤ 1)%nat ∧
  (count_events is_foreground_query (trace_of run)
   ≤ length (List.filter (candidate limits (JS.todayUsage (state_of run))) apps))%nat ∧
  (count_events is_foreground_query (trace_of run) ≤ length apps)%nat ∧
  (JS.hasActiveLimits apps limits = false →
   count_events is_usage_refresh (trace_of run) = 0%nat ∧
   count_events is_foreground_query (trace_of run) = 0%nat).
Proof.
  simpl.
  assert (Hlen : ∀ usage, (length (List.filter (candidate limits usage) apps) ≤ length apps)%nat).
  { intros usage. apply List.filter_length_le. }
  unfold JS.checkForBlockedApp.
  destruct (JS.ForegroundAppModule rt) as [getFg|].
  2:{ eff_unfold. simpl. unfold count_events. simpl. repeat split; lia. }
  destruct (JS.hasActiveLimits apps limits) eqn:Hact; simpl.
  2:{ eff_unfold. simpl. unfold count_events. simpl. repeat split; lia. }
  assert (Hr : ∃ st1 t1, JS.refreshUsage rt st = (st1, t1, Ok tt) ∧
                 count_events is_service_call t1 = 0%nat ∧
                 (count_events is_usage_refresh t1 ≤ 1)%nat ∧
                 count_events is_foreground_query t1 = 0%nat).
  { unfold JS.refreshUsage.
    destruct (JS.UsageStatsModule rt) as [[stats|e]|]; eff_unfold; simpl;
      eexists _, _; (split; [reflexivity|]); unfold count_events; simpl; lia. }
  destruct Hr as (st1 & t1 & Hr & Hs1 & Hu1 & Hf1).
  destruct (scan_sound getFg limits (JS.todayUsage st1) apps 0%nat st1) as (t2 & r & Hs & _).
  pose proof (scan_queries getFg limits (JS.todayUsage st1) apps 0%nat st1) as Hq.
  simpl in Hq. rewrite Hs in Hq. unfold trace_of in Hq. simpl in Hq.
  destruct Hq as (Hf2 & Hs2 & Hu2).
  specialize (Hlen (JS.todayUsage st1)).
  eff_unfold. rewrite Hr. simpl. rewrite Hs. simpl.
  destruct r; simpl; rewrite ?app_nil_r, ?count_events_app;
    try (change (count_events is_service_call [JS.console_error _ _]) with 0%nat);
    try (change (count_events is_usage_refresh [JS.console_error _ _]) with 0%nat);
    try (change (count_events is_foreground_query [JS.console_error _ _]) with 0%nat);
    repeat split; try lia; intros; discriminate.
Qed.

Lemma run_queries_bounded_witness :
  count_events is_usage_refresh
    (trace_of (JS.checkForBlockedApp (runtime (Ok (Some foreground_x)) (Ok (usage_x 60000)))
                 [com_x] {["com.x" := 0]} empty_store)) = 0%nat ∧
  count_events is_foreground_query
    (trace_of (JS.checkForBlockedApp (runtime (Ok (Some foreground_x)) (Ok (usage_x 60000)))
                 [com_x] {["com.x" := 0]} empty_store)) = 0%nat.
Proof.
  apply (run_queries_bounded (runtime (Ok (Some foreground_x)) (Ok (usage_x 60000)))
           [com_x] {["com.x" := 0]} empty_store).
  reflexivity.
Defined.

(** ** Further properties: a limit of zero *)

(** Two limit maps that differ only in that one holds 0 where the other
    holds nothing are read alike by the hook. *)
Lemma limits_upto_zero (limits : gmap string Z) p q :
  <[p := 0]> limits !! q = delete p limits !! q ∨
  (<[p := 0]> limits !! q = Some 0 ∧ delete p limits !! q = None).
Proof.
  destruct (decide (p = q)) as [->|Hne].
  - right. by rewrite lookup_insert_eq, lookup_delete_eq.
  - left. by rewrite lookup_insert_ne, lookup_delete_ne.
Qed.

Lemma scan_upto_zero getFg (limits usage : gmap string Z) p (apps : list JS.SelectedApp) :
  ∀ asked st,
    JS.scan getFg (<[p := 0]> limits) usage asked apps st
    = JS.scan getFg (delete p limits) usage asked apps st.
Proof.
  induction apps as [|app rest IH]; intros asked st; simpl; [done|].
  destruct (limits_upto_zero limits p (JS.packageName app)) as [->|[-> ->]].
  - destruct (delete p limits !! JS.packageName app) as [l|]; [|apply IH].
    case_bool_decide; [apply IH|]. case_bool_decide; [|apply IH].
    eff_unfold. destruct (getFg asked) as [fg|e]; [|done].
    destruct (JS.foreground_allows fg app); [done|]. by rewrite IH.
  - rewrite bool_decide_true by done. apply IH.
Qed.

Lemma active_test_upto_zero (limits : gmap string Z) p (app : JS.SelectedApp) :
  match <[p := 0]> limits !! JS.packageName app with
  | Some limit => bool_decide (0 < limit)
  | None => false
  end
  = match delete p limits !! JS.packageName app with
    | Some limit => bool_decide (0 < limit)
    | None => false
    end.
Proof. by destruct (limits_upto_zero limits p (JS.packageName app)) as [->|[-> ->]]. Qed.

Lemma hasActiveLimits_upto_zero (limits : gmap string Z) p (apps : list JS.SelectedApp) :
  JS.hasActiveLimits apps (<[p := 0]> limits) = JS.hasActiveLimits apps (delete p limits).
Proof.
  unfold JS.hasActiveLimits. induction apps as [|app rest IH]; simpl; [done|].
  by rewrite active_test_upto_zero, IH.
Qed.

Lemma limitsArray_upto_zero (limits : gmap string Z) p (apps : list JS.SelectedApp) :
  JS.limitsArray apps (<[p := 0]> limits) = JS.limitsArray apps (delete p limits).
Proof.
  unfold JS.limitsArray. induction apps as [|app rest IH]; [done|].
  cbn [omap list_omap]. rewrite IH.
  by destruct (limits_upto_zero limits p (JS.packageName app)) as [->|[-> ->]].
Qed.

(** X10. A limit of zero is no limit.  Setting the limit of a package to 0
    on the limits screen and clearing it there leave the hook with the same
    behaviour: the same active limits, the same array for the native
    service, the same count on the home screen, and the same run of
    checkForBlockedApp and of the start/stop effect, on every runtime. *)
Theorem zero_limit_is_no_limit (p : string) (st : JS.LimitsStore) (apps : list JS.SelectedApp) :
  let zero := JS.limits (state_of (JS.handleLimitChange p (Some 0) st)) in
  let none := JS.limits (state_of (JS.handleLimitChange p None st)) in
  JS.getLimit p {| JS.limits := zero |} = Some 0 ∧
  JS.getLimit p {| JS.limits := none |} = None ∧
  JS.hasActiveLimits apps zero = JS.hasActiveLimits apps none ∧
  JS.limitsArray apps zero = JS.limitsArray apps none ∧
  JS.activeAppsCount apps zero = JS.activeAppsCount apps none ∧
  (∀ rt ust, JS.checkForBlockedApp rt apps zero ust = JS.checkForBlockedApp rt apps none ust) ∧
  (∀ rt ust, JS.limitsEffect rt apps zero ust = JS.limitsEffect rt apps none ust).
Proof.
  unfold JS.handleLimitChange, JS.setLimit, JS.removeLimit, JS.getLimit. eff_unfold. simpl.
  split; [apply lookup_insert_eq|]. split; [apply lookup_delete_eq|].
  split; [apply hasActiveLimits_upto_zero|]. split; [apply limitsArray_upto_zero|].
  split; [|split].
  - by rewrite <- !limitsArray_length, limitsArray_upto_zero.
  - intros rt ust. unfold JS.checkForBlockedApp.
    rewrite hasActiveLimits_upto_zero.
    destruct (JS.ForegroundAppModule rt) as [getFg|]; [|done].
    destruct (JS.hasActiveLimits apps (delete p (JS.limits st))); [|done].
    eff_unfold. simpl. destruct (JS.refreshUsage rt ust) as [[st1 t1] [[]|e]]; [|done].
    by rewrite scan_upto_zero.
  - intros rt ust. unfold JS.limitsEffect, JS.startService.
    by rewrite hasActiveLimits_upto_zero, limitsArray_upto_zero.
Qed.

(** ** Further properties: the selection over time *)

Lemma filter_keeps_unique p (apps : list JS.SelectedApp) :
  unique_apps apps →
  unique_apps (List.filter (λ app, bool_decide (JS.packageName app ≠ p)) apps).
Proof.
  unfold unique_apps. induction apps as [|a apps IH]; simpl; [done|].
  intros [Ha Hu]%NoDup_cons. case_bool_decide; simpl; [|by apply IH].
  apply NoDup_cons. split; [|by apply IH].
  intros Hin. apply Ha. apply list_elem_of_fmap in Hin as (b & Hb & Hin).
  apply list_elem_of_In, filter_In in Hin as [Hin _].
  apply list_elem_of_fmap. exists b. split; [done|by apply list_elem_of_In].
Qed.

Lemma select_invariant (state : JS.useAppStore.AppStore * option (list JS.SelectedApp)) a :
  unique_apps (JS.useAppStore.selectedApps state.1) ∧
  (state.2 = Some (JS.useAppStore.selectedApps state.1) ∨
   JS.useAppStore.selectedApps state.1 = []) ∧
  (∀ apps, state.2 = Some apps → unique_apps apps) →
  unique_apps (JS.useAppStore.selectedApps (select state a).1) ∧
  ((select state a).2 = Some (JS.useAppStore.selectedApps (select state a).1) ∨
   JS.useAppStore.selectedApps (select state a).1 = []) ∧
  (∀ apps, (select state a).2 = Some apps → unique_apps apps).
Proof.
  destruct state as [[apps] stored]. simpl. intros (Hu & Hsync & Hstored).
  destruct a as [app|p|]; unfold select; simpl.
  - unfold JS.useAppStore.addApp. eff_unfold. simpl.
    destruct (existsb _ apps) eqn:Hsel; simpl.
    + done.
    + assert (Hnew : unique_apps (apps ++ [app])).
      { unfold unique_apps. rewrite map_app. apply NoDup_app.
        split; [done|]. split; [|apply NoDup_singleton].
        intros q Hq [<-|[]]%list_elem_of_In.
        apply list_elem_of_fmap in Hq as (b & Hb & Hin).
        apply not_true_iff_false in Hsel. apply Hsel, existsb_exists.
        exists b. split; [by apply list_elem_of_In|]. by apply bool_decide_eq_true. }
      split; [done|]. split; [by left|]. by intros ? [= <-].
  - split; [by apply filter_keeps_unique|]. split; [by left|].
    intros ? [= <-]. by apply filter_keeps_unique.
  - split; [apply NoDup_nil_2|]. split; [by right|done].
Qed.

Lemma selection_invariant (actions : list SelectionAction) :
  let final := foldl select fresh_selection actions in
  unique_apps (JS.useAppStore.selectedApps final.1) ∧
  (final.2 = Some (JS.useAppStore.selectedApps final.1) ∨
   JS.useAppStore.selectedApps final.1 = []) ∧
  (∀ apps, final.2 = Some apps → unique_apps apps).
Proof.
  simpl. induction actions as [|a actions IH] using rev_ind.
  - split; [apply NoDup_nil_2|]. split; [by right|done].
  - rewrite foldl_app. simpl. by apply select_invariant.
Qed.

(** X11. The selection over time.  From the empty selection, after any
    sequence of addApp, removeApp and clearApps the package names of the
    selection are unique, and so are those of the stored selection.  After
    an addApp or removeApp the storage holds exactly the selection.
    clearApps empties the selection and then throws at storage.delete, so
    the storage keeps what it held: after a clearApps a restart brings back
    the selection from before it.  loadFromStorage on a fresh store reads
    back what the storage holds when JSON.parse reads what JSON.stringify
    wrote; a stored text that JSON.parse rejects leaves the store as it is
    and logs the error. *)
Theorem selection_unique_and_restored (actions : list SelectionAction) :
  let final := foldl select fresh_selection actions in
  unique_apps (JS.useAppStore.selectedApps final.1) ∧
  (∀ apps, final.2 = Some apps → unique_apps apps) ∧
  (final.2 = Some (JS.useAppStore.selectedApps final.1) ∨
   JS.useAppStore.selectedApps final.1 = []) ∧
  (∀ before a, actions = before ++ [a] → a ≠ ClearApps →
               final.2 = Some (JS.useAppStore.selectedApps final.1)) ∧
  (∀ before, actions = before ++ [ClearApps] →
             JS.useAppStore.selectedApps final.1 = [] ∧
             final.2 = (foldl select fresh_selection before).2) ∧
  (∀ st, JS.useAppStore.clearApps st
         = ({| JS.useAppStore.selectedApps := [] |}, [], Threw JS.TypeError_delete)) ∧
  (∀ (JSON_stringify : list JS.SelectedApp → string) JSON_parse,
     (∀ apps, final.2 = Some apps →
              JSON_parse (JSON_stringify apps) = Ok apps ∧
              JSON_stringify apps ≠ EmptyString) →
     JS.useAppStore.loadFromStorage JSON_parse (JSON_stringify <$> final.2) fresh_selection.1
     = ({| JS.useAppStore.selectedApps := default [] final.2 |}, [], Ok tt)) ∧
  (∀ JSON_parse text e st,
     text ≠ EmptyString → JSON_parse text = Threw e →
     JS.useAppStore.loadFromStorage JSON_parse (Some text) st
     = (st, [JS.store_console_error "Error loading selected apps from storage:" e], Ok tt)).
Proof.
  simpl. destruct (selection_invariant actions) as (Hu & Hsync & Hstored). simpl in *.
  split; [done|]. split; [done|]. split; [done|].
  split; [|split; [|split; [|split]]].
  - intros before a -> Ha.
    pose proof (selection_invariant before) as (_ & Hsync' & _). simpl in Hsync'.
    rewrite foldl_app. simpl.
    destruct (foldl select fresh_selection before) as [[apps] stored]. simpl in *.
    destruct a as [app|p|]; [|done..]. unfold select. simpl.
    unfold JS.useAppStore.addApp. eff_unfold. simpl.
    destruct (existsb _ apps) eqn:Hsel; simpl; [|done].
    destruct Hsync' as [->| ->]; [done|done].
  - intros before ->. rewrite foldl_app. done.
  - done.
  - intros JSON_stringify JSON_parse Hjson.
    destruct (foldl select fresh_selection actions).2 as [apps|] eqn:Hst; simpl; [|done].
    destruct (Hjson apps eq_refl) as [Hparse Hne].
    unfold JS.useAppStore.loadFromStorage. eff_unfold.
    destruct (JSON_stringify apps) as [|c s]; [done|]. by rewrite Hparse.
  - intros JSON_parse text e st Hne He.
    unfold JS.useAppStore.loadFromStorage. eff_unfold.
    destruct text; [done|]. by rewrite He.
Qed.

Lemma selection_unique_and_restored_witness :
  JS.useAppStore.selectedApps
    (foldl select fresh_selection [AddApp com_y; AddApp com_x; RemoveApp "com.y"; ClearApps]).1
  = [] ∧
  JS.useAppStore.loadFromStorage
    (λ text, if bool_decide (text = "com.x:X") then Ok [com_x] else Threw "SyntaxError")
    (Some "com.x:X") {| JS.useAppStore.selectedApps := [] |}
  = ({| JS.useAppStore.selectedApps := [com_x] |}, [], Ok tt) ∧
  JS.useAppStore.loadFromStorage
    (λ text, if bool_decide (text = "com.x:X") then Ok [com_x] else Threw "SyntaxError")
    (Some "[") {| JS.useAppStore.selectedApps := [com_y] |}
  = ({| JS.useAppStore.selectedApps := [com_y] |},
     [JS.store_console_error "Error loading selected apps from storage:" "SyntaxError"], Ok tt).
Proof.
  split; [reflexivity|]. split.
  - destruct (selection_unique_and_restored
                [AddApp com_y; AddApp com_x; RemoveApp "com.y"; ClearApps])
      as (_ & _ & _ & _ & _ & _ & Hload & _).
    refine (Hload
              (λ apps, String.concat ","
                         (map (λ app, JS.packageName app +:+ ":" +:+ JS.appName app) apps))
              (λ text, if bool_decide (text = "com.x:X") then Ok [com_x]
                       else Threw "SyntaxError") _).
    intros apps [= <-]. split; [reflexivity|]. vm_compute. discriminate.
  - destruct (selection_unique_and_restored []) as (_ & _ & _ & _ & _ & _ & _ & Hfail).
    apply Hfail; [discriminate|reflexivity].
Defined.

(** ** Further properties: running the check again *)

Lemma refreshUsage_today_again (rt : JS.Runtime) (st : JS.UsageStore) :
  JS.todayUsage (state_of (JS.refreshUsage rt (state_of (JS.refreshUsage rt st))))
  = JS.todayUsage (state_of (JS.refreshUsage rt st)).
Proof.
  unfold JS.refreshUsage.
  by destruct (JS.UsageStatsModule rt) as [[stats|e]|]; eff_unfold.
Qed.

(** X12. Running the check again gives the same BlockState.  A second run
    of checkForBlockedApp on the store the first run has left, with the
    native modules answering as before, emits exactly what the first run
    emitted and leaves the same usage of today: the check keeps no memory
    of what it has emitted or of what was dismissed. *)
Theorem check_again_emits_same (rt : JS.Runtime) (apps : list JS.SelectedApp)
    (limits : gmap string Z) (st : JS.UsageStore) :
  let first := JS.checkForBlockedApp rt apps limits st in
  let second := JS.checkForBlockedApp rt apps limits (state_of first) in
  JS.emitted (trace_of second) = JS.emitted (trace_of first) ∧
  JS.todayUsage (state_of second) = JS.todayUsage (state_of first).
Proof.
  simpl.
  pose proof (checkForBlockedApp_run rt apps limits st) as H1.
  pose proof (checkForBlockedApp_run rt apps limits
                (state_of (JS.checkForBlockedApp rt apps limits st))) as H2.
  simpl in H1, H2.
  destruct (JS.ForegroundAppModule rt) as [getFg|].
  2:{ rewrite H2, H1. done. }
  destruct (JS.hasActiveLimits apps limits).
  2:{ rewrite H2, H1. done. }
  destruct H1 as (st1 & t1 & Hr1 & _ & Hs1 & He1).
  destruct H2 as (st2 & t2 & Hr2 & _ & Hs2 & He2).
  rewrite Hs1 in *. rewrite Hs2, He2, He1.
  assert (Htoday : JS.todayUsage st2 = JS.todayUsage st1).
  { pose proof (refreshUsage_today_again rt st) as Hagain.
    rewrite Hr1 in Hagain. unfold state_of in Hagain at 2 3. simpl in Hagain.
    rewrite Hr2 in Hagain. exact Hagain. }
  rewrite Htoday. split; [|done].
  by rewrite (scan_state_irrelevant getFg limits (JS.todayUsage st1) apps 0%nat st2 st1).
Qed.

(** ** Further properties: the life cycle of the service *)

Lemma onStartCommand_state action (dev : Kt.Device) :
  state_of (Kt.BlockingService.onStartCommand action dev)
  = {| Kt.prefs := Kt.prefs dev;
       Kt.checkTask := match action with
                       | Some Kt.BlockingService.ACTION_START => true
                       | Some Kt.BlockingService.ACTION_STOP => false
                       | None => Kt.checkTask dev
                       end |}.
Proof.
  destruct dev as [prefs task].
  destruct action as [[]|]; unfold Kt.BlockingService.onStartCommand,
    Kt.BlockingService.startMonitoring, Kt.BlockingService.stopMonitoring; eff_unfold; simpl;
    [by destruct task|done..].
Qed.

Lemma after_commands_snoc dev commands action :
  after_commands dev (commands ++ [action])
  = state_of (Kt.BlockingService.onStartCommand action (after_commands dev commands)).
Proof. unfold after_commands. by rewrite foldl_app. Qed.

(** X13. The life cycle of the service.  Whatever commands the service has
    received, its check task is scheduled exactly when the last command
    that carried an action was a start (a null intent changes nothing), and
    the stored configuration is never touched.  A start while the task is
    scheduled schedules no second task; only a stop command makes the
    service stop itself; stopping through the native module is idempotent
    and keeps the stored configuration. *)
Theorem service_lifecycle (dev : Kt.Device) (commands : list (option Kt.BlockingService.Action)) :
  let dev' := after_commands dev commands in
  Kt.prefs dev' = Kt.prefs dev ∧
  Kt.checkTask dev'
  = match last (omap id commands) with
    | Some Kt.BlockingService.ACTION_START => true
    | Some Kt.BlockingService.ACTION_STOP => false
    | None => Kt.checkTask dev
    end ∧
  (Kt.checkTask dev = true →
   Kt.BlockingService.onStartCommand (Some Kt.BlockingService.ACTION_START) dev
   = (dev, [Kt.Log_d Kt.BlockingService.TAG "Starting blocking service";
            Kt.Log_d Kt.BlockingService.TAG "Monitoring already started"], Ok tt)) ∧
  (∀ action, existsb is_stop (trace_of (Kt.BlockingService.onStartCommand action dev))
             = match action with Some Kt.BlockingService.ACTION_STOP => true | _ => false end) ∧
  (let stopped := state_of (Kt.BlockingServiceModuleImpl.stopBlockingService dev) in
   Kt.prefs stopped = Kt.prefs dev ∧ Kt.checkTask stopped = false ∧
   state_of (Kt.BlockingServiceModuleImpl.stopBlockingService stopped) = stopped).
Proof.
  simpl. split; [|split; [|split; [|split]]].
  - induction commands as [|action commands IH] using rev_ind; [done|].
    by rewrite after_commands_snoc, onStartCommand_state.
  - induction commands as [|action commands IH] using rev_ind; [done|].
    rewrite after_commands_snoc, onStartCommand_state, omap_app. simpl.
    destruct action as [a|]; simpl.
    + rewrite last_snoc. by destruct a.
    + by rewrite app_nil_r.
  - intros Htask. destruct dev as [prefs task]. simpl in Htask. subst task. reflexivity.
  - intros action. destruct dev as [prefs task].
    destruct action as [[]|]; [by destruct task|done..].
  - done.
Qed.

Lemma service_lifecycle_witness :
  Kt.BlockingService.onStartCommand (Some Kt.BlockingService.ACTION_START)
    (device json_apps_x "{}")
  = (device json_apps_x "{}",
     [Kt.Log_d Kt.BlockingService.TAG "Starting blocking service";
      Kt.Log_d Kt.BlockingService.TAG "Monitoring already started"], Ok tt).
Proof.
  apply (service_lifecycle (device json_apps_x "{}") []). reflexivity.
Defined.

(** ** Further properties: the two services against each other *)

Lemma stored_config_tag os TAG1 TAG2 (dev : Kt.Device) :
  stored_config os TAG1 dev = stored_config os TAG2 dev.
Proof.
  unfold stored_config. eff_unfold.
  destruct (Kt.getSharedPreferences os) as [[]|e]; simpl; [|done].
  destruct (getString_run Kt.KEY_SELECTED_APPS "[]" dev) as ([sel|e] & ->); simpl; [|done].
  destruct (getString_run Kt.KEY_LIMITS "{}" dev) as ([lj|e] & ->); simpl; [|done].
  unfold Kt.parseStringArray, Kt.parseLimitsMap. eff_unfold.
  by destruct (Kt.JSONArray os sel), (Kt.JSONObject os lj).
Qed.

Lemma getCurrentUsage_tag os TAG1 TAG2 p (dev : Kt.Device) :
  value_of (Kt.getCurrentUsage os TAG1 p dev) = value_of (Kt.getCurrentUsage os TAG2 p dev).
Proof.
  unfold Kt.getCurrentUsage. eff_unfold.
  destruct (Kt.usageStatsManager os); simpl; [|done].
  destruct (Kt.queryUsageStats os Kt.INTERVAL_DAILY) as [[stats|]|e]; simpl; [|done..].
  by destruct (List.find _ stats).
Qed.

Lemma verdicts_agree os (dev : Kt.Device) p :
  accessibility_verdict os dev p = verdict_bool (Ok (service_verdict os dev p)).
Proof.
  unfold accessibility_verdict, service_verdict, verdict_bool.
  rewrite (stored_config_tag os Kt.AppBlockingAccessibilityService.TAG Kt.BlockingService.TAG).
  rewrite (getCurrentUsage_tag os Kt.AppBlockingAccessibilityService.TAG Kt.BlockingService.TAG).
  destruct (stored_config os Kt.BlockingService.TAG dev) as [[selected limits]|e]; [|done].
  case_bool_decide; simpl; [|done].
  destruct (limits !! p) as [l|]; [|done].
  case_bool_decide; simpl; [done|].
  by destruct (value_of (Kt.getCurrentUsage os Kt.BlockingService.TAG p dev)).
Qed.

Lemma service_verdict_selected os (dev : Kt.Device) p v :
  service_verdict os dev p = Some v →
  Kt.getSharedPreferences os = Ok tt ∧
  ∃ sel, value_of (Kt.getString Kt.KEY_SELECTED_APPS "[]" dev) = Ok sel ∧
         p ∈ match Kt.JSONArray os sel with Ok l => l | Threw _ => [] end.
Proof.
  unfold service_verdict.
  destruct (stored_config os Kt.BlockingService.TAG dev) as [[selected limits]|e] eqn:Hcfg;
    [|done].
  case_bool_decide as Hin; [|done]. intros _.
  destruct (stored_config_ok _ _ _ _ _ Hcfg) as (Hp & sel & lj & Hs & _ & -> & _).
  split; [done|]. exists sel. by rewrite Hs.
Qed.

(** What the tick does to the package in the foreground. *)
Lemma checkAndBlock_blocks_iff os (dev : Kt.Device) p :
  Kt.JSONArray os "[]" = Ok [] →
  value_of (Kt.BlockingService.getForegroundApp os dev) = Ok (Some p) →
  existsb (blocks p) (trace_of (Kt.BlockingService.checkAndBlock os dev))
  = verdict_bool (Ok (service_verdict os dev p)).
Proof.
  intros Hempty Hfgp.
  destruct (checkAndBlock_run os dev) as (dev' & t & Hrun & _ & Hcases).
  rewrite Hrun. unfold trace_of, value_of in *. simpl in *.
  pose proof (getForegroundApp_run os dev) as (t1' & fg' & Hfg' & H1 & _).
  rewrite Hfg' in Hfgp. simpl in Hfgp. simplify_eq.
  pose proof (shouldBlockApp_run os p dev) as (t2' & Hsb' & H2).
  destruct (service_verdict os dev p) as [[b info]|] eqn:Hv.
  - destruct (service_verdict_selected _ _ _ _ Hv) as (Hprefs & sel & Hs & Hin).
    unfold value_of in Hs. rewrite Hprefs, Hs in Hcases.
    case_bool_decide as He.
    { subst sel. rewrite Hempty in Hin. by apply elem_of_nil in Hin. }
    destruct Hcases as (t1 & fg & Hfg & Hcases). rewrite Hfg' in Hfg. simplify_eq.
    destruct Hcases as (t2 & Hsb & Hcases). rewrite Hsb' in Hsb. simplify_eq.
    rewrite Hv in Hcases. destruct b.
    + destruct Hcases as (t3 & -> & H3). rewrite !existsb_app. simpl.
      rewrite bool_decide_true by done. simpl. by rewrite !orb_true_r.
    + rewrite Hcases, !existsb_app. simpl.
      by rewrite (harmless_not_blocks _ _ H1), (harmless_not_blocks _ _ H2).
  - simpl. destruct (Kt.getSharedPreferences os) as [[]|e].
    2:{ destruct Hcases as [_ ->]. done. }
    destruct (Kt.getString Kt.KEY_SELECTED_APPS "[]" dev).2 as [sel|e].
    2:{ destruct Hcases as [_ ->]. done. }
    case_bool_decide.
    { destruct Hcases as [_ ->]. done. }
    destruct Hcases as (t1 & fg & Hfg & Hcases). rewrite Hfg' in Hfg. simplify_eq.
    destruct Hcases as (t2 & Hsb & Hcases). rewrite Hsb' in Hsb. simplify_eq.
    rewrite Hv in Hcases. destruct Hcases as [_ ->].
    by rewrite existsb_app, (harmless_not_blocks _ _ H1), (harmless_not_blocks _ _ H2).
Qed.

(** What an accessibility event does to the package of its window. *)
Lemma onAccessibilityEvent_blocks_iff os (dev : Kt.Device) p :
  p ≠ Kt.context_packageName os →
  existsb (blocks p)
    (trace_of (Kt.AppBlockingAccessibilityService.onAccessibilityEvent os
                 (Some (window_of p)) dev))
  = accessibility_verdict os dev p.
Proof.
  intros Hp.
  destruct (onAccessibilityEvent_run os (Some (window_of p)) dev) as (t & -> & Hcases).
  unfold trace_of. simpl in *.
  rewrite (bool_decide_false _ Hp) in Hcases.
  destruct Hcases as (t1 & H1 & Hcases).
  destruct (accessibility_verdict os dev p).
  - destruct Hcases as (t2 & H2 & ->). rewrite existsb_app. simpl.
    rewrite bool_decide_true by done. simpl. by rewrite orb_true_r.
  - subst t. by apply harmless_not_blocks.
Qed.

(** X14. The two services decide alike.  On the same device and platform,
    shouldBlockApp of the accessibility service returns true exactly when
    shouldBlockApp of BlockingService returns a verdict that says block,
    and neither changes the device.  So a tick that finds package p in the
    foreground blocks p exactly when a window event of p makes the
    accessibility service redirect. *)
Theorem services_agree (os : Kt.Android) (dev : Kt.Device) (p : string) :
  value_of (Kt.AppBlockingAccessibilityService.shouldBlockApp os p dev)
  = Ok (verdict_bool (value_of (Kt.BlockingService.shouldBlockApp os p dev))) ∧
  state_of (Kt.AppBlockingAccessibilityService.shouldBlockApp os p dev) = dev ∧
  state_of (Kt.BlockingService.shouldBlockApp os p dev) = dev ∧
  (Kt.JSONArray os "[]" = Ok [] →
   value_of (Kt.BlockingService.getForegroundApp os dev) = Ok (Some p) →
   existsb (blocks p) (trace_of (Kt.BlockingService.checkAndBlock os dev))
   = existsb (blocks p)
       (trace_of (Kt.AppBlockingAccessibilityService.onAccessibilityEvent os
                    (Some (window_of p)) dev))).
Proof.
  destruct (accessibility_shouldBlockApp_run os p dev) as (ta & Ha & _).
  destruct (shouldBlockApp_run os p dev) as (ts & Hs & _).
  rewrite Ha, Hs. unfold value_of, state_of. simpl.
  split; [by rewrite verdicts_agree|]. split; [done|]. split; [done|].
  intros Hempty Hfg.
  rewrite (checkAndBlock_blocks_iff os dev p Hempty Hfg), <- verdicts_agree.
  symmetry. apply onAccessibilityEvent_blocks_iff.
  destruct (getForegroundApp_run os dev) as (t & r & Hr & _ & Hne).
  rewrite Hr in Hfg. unfold value_of in Hfg. simpl in Hfg. congruence.
Qed.

Lemma services_agree_witness :
  existsb (blocks "com.x")
    (trace_of (Kt.BlockingService.checkAndBlock
                 (phone (Ok tt) (Ok (Some [process "com.x"])) (stats_x 60000))
                 (device json_apps_x (json_limits_x 60000))))
  = existsb (blocks "com.x")
      (trace_of (Kt.AppBlockingAccessibilityService.onAccessibilityEvent
                   (phone (Ok tt) (Ok (Some [process "com.x"])) (stats_x 60000))
                   (Some (window_of "com.x"))
                   (device json_apps_x (json_limits_x 60000)))).
Proof.
  apply (services_agree (phone (Ok tt) (Ok (Some [process "com.x"])) (stats_x 60000))
           (device json_apps_x (json_limits_x 60000)) "com.x"); reflexivity.
Defined.

(** ** Further properties: what a tick leaves behind *)

Lemma replay_app prefs (t1 t2 : list Kt.Event) :
  replay prefs (t1 ++ t2) = replay (replay prefs t1) t2.
Proof. unfold replay. apply foldl_app. Qed.

Lemma replay_harmless prefs (t : list Kt.Event) :
  forallb harmless t = true → replay prefs t = prefs.
Proof.
  revert prefs. induction t as [|ev t IH]; intros prefs; simpl; [done|].
  intros [Hev Ht]%andb_true_iff. destruct ev; try done; by apply IH.
Qed.

(** The device after a tick: the task as before, the preferences with the
    edits of the trace applied. *)
Lemma checkAndBlock_replay os (dev : Kt.Device) :
  Kt.checkTask (state_of (Kt.BlockingService.checkAndBlock os dev)) = Kt.checkTask dev ∧
  Kt.prefs (state_of (Kt.BlockingService.checkAndBlock os dev))
  = replay (Kt.prefs dev) (trace_of (Kt.BlockingService.checkAndBlock os dev)).
Proof.
  unfold Kt.BlockingService.checkAndBlock.
  destruct (Kt.getSharedPreferences os) as [[]|e] eqn:Hprefs.
  2:{ eff_unfold. simpl. done. }
  destruct (getString_run Kt.KEY_SELECTED_APPS "[]" dev) as ([sel|e] & Hsel).
  2:{ eff_unfold. rewrite Hsel. simpl. done. }
  eff_unfold. rewrite Hsel. simpl.
  case_bool_decide as Hempty; simpl; [done|].
  destruct (getForegroundApp_run os dev) as (t1 & fg & Hfg & H1 & Hours). rewrite Hfg. simpl.
  destruct fg as [p|]; simpl.
  2:{ rewrite ?app_nil_r. by rewrite replay_harmless. }
  rewrite bool_decide_false by congruence. simpl.
  destruct (shouldBlockApp_run os p dev) as (t2 & Hsb & H2). rewrite Hsb. simpl.
  destruct (service_verdict os dev p) as [[[] info]|] eqn:Hv; simpl.
  - rewrite ?Hprefs. simpl.
    destruct (bringAppToForeground_run os
                {| Kt.prefs := foldl Kt.apply_edit (Kt.prefs dev)
                     [Kt.putString Kt.KEY_BLOCKED_APP p;
                      Kt.putString Kt.KEY_BLOCKED_APP_NAME (Kt.BlockingService.appName info);
                      Kt.putLong "blocked_usage_ms" (Kt.BlockingService.usageMs info);
                      Kt.putLong "blocked_limit_ms" (Kt.BlockingService.limitMs info)];
                   Kt.checkTask := Kt.checkTask dev |}) as (t3 & Hb & H3).
    simpl in Hb. rewrite Hb. simpl. split; [done|].
    rewrite ?app_nil_r, !replay_app, (replay_harmless _ _ H1), (replay_harmless _ _ H2).
    change (?a :: ?b :: ?c :: t3) with ([a; b] ++ c :: t3).
    rewrite replay_app. simpl. symmetry. apply (replay_harmless _ t3 H3).
  - rewrite ?Hprefs. simpl. split; [done|].
    rewrite ?app_nil_r, !replay_app, (replay_harmless _ _ H1), (replay_harmless _ _ H2). done.
  - split; [done|].
    rewrite ?app_nil_r, !replay_app, (replay_harmless _ _ H1), (replay_harmless _ _ H2). done.
Qed.

(** What a verdict of the service carries. *)
Lemma service_verdict_info os (dev : Kt.Device) p b info :
  service_verdict os dev p = Some (b, info) →
  Kt.BlockingService.appName info = label_or_suffix os p ∧
  0 < Kt.BlockingService.limitMs info ∧
  b = bool_decide (Kt.BlockingService.limitMs info ≤ Kt.BlockingService.usageMs info) ∧
  value_of (Kt.getCurrentUsage os Kt.BlockingService.TAG p dev)
  = Ok (Kt.BlockingService.usageMs info) ∧
  ∃ selected limits,
    stored_config os Kt.BlockingService.TAG dev = Ok (selected, limits) ∧
    p ∈ selected ∧ limits !! p = Some (Kt.BlockingService.limitMs info).
Proof.
  unfold service_verdict.
  destruct (stored_config os Kt.BlockingService.TAG dev) as [[selected limits]|e]; [|done].
  case_bool_decide as Hin; [|done].
  destruct (limits !! p) as [l|] eqn:Hl; [|done].
  case_bool_decide as Hpos; [done|].
  destruct (value_of (Kt.getCurrentUsage os Kt.BlockingService.TAG p dev)) as [u|e]; [|done].
  intros [= <- <-]. simpl. split; [done|]. split; [lia|]. split; [done|]. split; [done|].
  by exists selected, limits.
Qed.

(** The three outcomes of a tick: nothing recorded, a block recorded, the
    record cleared. *)
Lemma tick_outcome os (dev : Kt.Device) :
  let run := Kt.BlockingService.checkAndBlock os dev in
  (state_of run = dev ∧ (∀ q, existsb (blocks q) (trace_of run) = false) ∧
   (∀ p v, Kt.JSONArray os "[]" = Ok [] →
           value_of (Kt.BlockingService.getForegroundApp os dev) = Ok (Some p) →
           service_verdict os dev p ≠ Some v)) ∨
  (∃ p info,
     value_of (Kt.BlockingService.getForegroundApp os dev) = Ok (Some p) ∧
     service_verdict os dev p = Some (true, info) ∧
     Kt.prefs (state_of run)
     = foldl Kt.apply_edit (Kt.prefs dev)
         [Kt.putString Kt.KEY_BLOCKED_APP p;
          Kt.putString Kt.KEY_BLOCKED_APP_NAME (Kt.BlockingService.appName info);
          Kt.putLong "blocked_usage_ms" (Kt.BlockingService.usageMs info);
          Kt.putLong "blocked_limit_ms" (Kt.BlockingService.limitMs info)] ∧
     (∀ q, existsb (blocks q) (trace_of run) = true → q = p)) ∨
  (∃ p info,
     value_of (Kt.BlockingService.getForegroundApp os dev) = Ok (Some p) ∧
     service_verdict os dev p = Some (false, info) ∧
     Kt.prefs (state_of run)
     = foldl Kt.apply_edit (Kt.prefs dev)
         [Kt.remove Kt.KEY_BLOCKED_APP; Kt.remove Kt.KEY_BLOCKED_APP_NAME;
          Kt.remove "blocked_usage_ms"; Kt.remove "blocked_limit_ms"] ∧
     (∀ q, existsb (blocks q) (trace_of run) = false)).
Proof.
  simpl.
  destruct (checkAndBlock_run os dev) as (dev' & t & Hrun & _ & Hcases).
  destruct (checkAndBlock_replay os dev) as [_ Hrep].
  rewrite Hrun in *. unfold state_of, trace_of, value_of in *. simpl in *.
  assert (Hno : ∀ p v, service_verdict os dev p = Some v →
            Kt.getSharedPreferences os = Ok tt ∧
            ∃ sel, (Kt.getString Kt.KEY_SELECTED_APPS "[]" dev).2 = Ok sel ∧
                   p ∈ match Kt.JSONArray os sel with Ok l => l | Threw _ => [] end).
  { intros p v Hv. apply (service_verdict_selected os dev p v Hv). }
  destruct (Kt.getSharedPreferences os) as [[]|e].
  2:{ destruct Hcases as [-> ->]. left. split; [done|]. split; [done|].
      intros p v _ _ Hv. by destruct (Hno p v Hv). }
  destruct (Kt.getString Kt.KEY_SELECTED_APPS "[]" dev).2 as [sel|e] eqn:Hs.
  2:{ destruct Hcases as [-> ->]. left. split; [done|]. split; [done|].
      intros p v _ _ Hv. by destruct (Hno p v Hv) as (_ & sel & ? & _). }
  case_bool_decide as He.
  { destruct Hcases as [-> ->]. left. split; [done|]. split; [done|].
    intros p v Hempty _ Hv. destruct (Hno p v Hv) as (_ & sel' & Hsel' & Hin).
    simplify_eq. rewrite Hempty in Hin. by apply elem_of_nil in Hin. }
  destruct Hcases as (t1 & fg & Hfg & Hcases).
  destruct (getForegroundApp_run os dev) as (t1' & fg' & Hfg' & H1 & _).
  rewrite Hfg in Hfg'. simplify_eq. rewrite Hfg. simpl.
  destruct fg' as [p|].
  2:{ destruct Hcases as [-> ->]. left. split; [done|].
      split; [intros q; by apply harmless_not_blocks|]. intros p v _ Hp. done. }
  destruct Hcases as (t2 & Hsb & Hcases).
  destruct (shouldBlockApp_run os p dev) as (t2' & Hsb' & H2).
  rewrite Hsb in Hsb'. simplify_eq.
  destruct (service_verdict os dev p) as [[[] info]|] eqn:Hv.
  - destruct Hcases as (t3 & -> & H3). right. left. exists p, info.
    split; [done|]. split; [done|]. split.
    + rewrite Hrep, !replay_app, (replay_harmless _ _ H1), (replay_harmless _ _ H2).
      simpl. apply (replay_harmless _ t3 H3).
    + intros q. rewrite !existsb_app. simpl.
      rewrite (harmless_not_blocks _ _ H1), (harmless_not_blocks _ _ H2),
        (harmless_not_blocks _ _ H3). simpl. rewrite !orb_false_r.
      by intros ->%bool_decide_eq_true.
  - subst t. right. right. exists p, info.
    split; [done|]. split; [done|]. split.
    + by rewrite Hrep, !replay_app, (replay_harmless _ _ H1), (replay_harmless _ _ H2).
    + intros q. rewrite !existsb_app. simpl.
      by rewrite (harmless_not_blocks _ _ H1), (harmless_not_blocks _ _ H2).
  - destruct Hcases as [-> ->]. left. split; [done|]. split.
    + intros q. by rewrite existsb_app, (harmless_not_blocks _ _ H1), (harmless_not_blocks _ _ H2).
    + intros p' v _ [= ->]. by rewrite Hv.
Qed.

Lemma not_blocked_key k :
  k ∉ blocked_keys →
  k ≠ Kt.KEY_BLOCKED_APP ∧ k ≠ Kt.KEY_BLOCKED_APP_NAME ∧
  k ≠ "blocked_usage_ms" ∧ k ≠ "blocked_limit_ms".
Proof.
  unfold blocked_keys. rewrite !not_elem_of_cons. tauto.
Qed.

(** X15. What a tick of the service leaves in the shared preferences.  It
    never touches the check task nor any key but the four of the blocked
    app.  When it blocks package p, the four keys hold p, the name of p, and
    the usage and limit of the verdict, with 0 < limit <= usage.  When the
    verdict on the foreground package says do not block, the four keys are
    removed.  When there is no verdict (no foreground package, a package
    that is not selected or has no limit), the device is left as it was, so
    an earlier record of a blocked app stays. *)
Theorem tick_records_block (os : Kt.Android) (dev : Kt.Device) :
  let run := Kt.BlockingService.checkAndBlock os dev in
  let dev' := state_of run in
  Kt.checkTask dev' = Kt.checkTask dev ∧
  (∀ k, k ∉ blocked_keys → Kt.prefs dev' !! k = Kt.prefs dev !! k) ∧
  (∀ p, existsb (blocks p) (trace_of run) = true →
     ∃ info,
       service_verdict os dev p = Some (true, info) ∧
       0 < Kt.BlockingService.limitMs info ≤ Kt.BlockingService.usageMs info ∧
       Kt.prefs dev' !! Kt.KEY_BLOCKED_APP = Some (Kt.PString p) ∧
       Kt.prefs dev' !! Kt.KEY_BLOCKED_APP_NAME = Some (Kt.PString (label_or_suffix os p)) ∧
       Kt.prefs dev' !! "blocked_usage_ms" = Some (Kt.PLong (Kt.BlockingService.usageMs info)) ∧
       Kt.prefs dev' !! "blocked_limit_ms" = Some (Kt.PLong (Kt.BlockingService.limitMs info))) ∧
  (∀ p info,
     Kt.JSONArray os "[]" = Ok [] →
     value_of (Kt.BlockingService.getForegroundApp os dev) = Ok (Some p) →
     service_verdict os dev p = Some (false, info) →
     ∀ k, k ∈ blocked_keys → Kt.prefs dev' !! k = None) ∧
  (∀ p, value_of (Kt.BlockingService.getForegroundApp os dev) = Ok (Some p) →
        service_verdict os dev p = None → dev' = dev) ∧
  (value_of (Kt.BlockingService.getForegroundApp os dev) = Ok None → dev' = dev).
Proof.
  simpl. destruct (checkAndBlock_replay os dev) as [Htask _].
  split; [done|].
  destruct (tick_outcome os dev) as [(Hdev & Hnb & Hnv)|[(p & info & Hfg & Hv & Hprefs & Hb)|
                                     (p & info & Hfg & Hv & Hprefs & Hnb)]]; simpl in *.
  - rewrite Hdev. split; [done|]. split; [|split; [|by split]].
    + intros p Hp. by rewrite Hnb in Hp.
    + intros p info Hempty Hfg Hv. by destruct (Hnv p (false, info) Hempty Hfg).
  - rewrite Hprefs. simpl. split; [|split; [|split; [|split]]].
    + intros k (H1 & H2 & H3 & H4)%not_blocked_key.
      by rewrite !lookup_insert_ne by done.
    + intros q Hq. apply Hb in Hq as ->. exists info.
      destruct (service_verdict_info os dev p true info Hv) as (Hname & Hpos & Hle & _).
      symmetry in Hle. apply bool_decide_eq_true in Hle.
      split; [done|]. split; [lia|]. rewrite <- Hname.
      split; [|split; [|split]].
      * rewrite !lookup_insert_ne by (by compute). apply lookup_insert_eq.
      * rewrite !lookup_insert_ne by (by compute). apply lookup_insert_eq.
      * rewrite !lookup_insert_ne by (by compute). apply lookup_insert_eq.
      * apply lookup_insert_eq.
    + intros q info' _ Hfg' Hv'. rewrite Hfg in Hfg'. simplify_eq; congruence.
    + intros q Hfg' Hv'. rewrite Hfg in Hfg'. simplify_eq; congruence.
    + intros Hfg'. rewrite Hfg in Hfg'. done.
  - rewrite Hprefs. simpl. split; [|split; [|split; [|split]]].
    + intros k (H1 & H2 & H3 & H4)%not_blocked_key.
      by rewrite !lookup_delete_ne by done.
    + intros q Hq. by rewrite Hnb in Hq.
    + intros q info' _ _ _ k Hk. unfold blocked_keys in Hk.
      rewrite !elem_of_cons in Hk. destruct Hk as [->|[->|[->|[->|Hk]]]].
      * rewrite !lookup_delete_ne by (by compute). apply lookup_delete_eq.
      * rewrite !lookup_delete_ne by (by compute). apply lookup_delete_eq.
      * rewrite !lookup_delete_ne by (by compute). apply lookup_delete_eq.
      * apply lookup_delete_eq.
      * by apply elem_of_nil in Hk.
    + intros q Hfg' Hv'. rewrite Hfg in Hfg'. simplify_eq; congruence.
    + intros Hfg'. rewrite Hfg in Hfg'. done.
Qed.

Lemma tick_records_block_witness :
  Kt.prefs (state_of (Kt.BlockingService.checkAndBlock
                        (phone (Ok tt) (Ok (Some [process "com.x"])) (stats_x 60000))
                        (device json_apps_x (json_limits_x 60000))))
  !! Kt.KEY_BLOCKED_APP = Some (Kt.PString "com.x").
Proof.
  destruct (proj1 (proj2 (proj2 (tick_records_block
              (phone (Ok tt) (Ok (Some [process "com.x"])) (stats_x 60000))
              (device json_apps_x (json_limits_x 60000))))) "com.x" eq_refl)
    as (info & _ & _ & Hkey & _).
  exact Hkey.
Defined.

(** ** Further properties: what the services never do *)

(** Below Android 10 the polling of the service finds nothing. *)
Lemma getForegroundApp_below_Q os (dev : Kt.Device) :
  Kt.SDK_INT os < Kt.Q →
  ∃ t, Kt.BlockingService.getForegroundApp os dev = (dev, t, Ok None) ∧
       forallb harmless t = true ∧ count_events is_process_query t = 0%nat ∧
       count_events is_usage_query t = 0%nat.
Proof.
  intros Hsdk. unfold Kt.BlockingService.getForegroundApp. eff_unfold.
  destruct (Kt.activityManager os); simpl; [|by eauto].
  rewrite bool_decide_false by lia. simpl. by eauto.
Qed.

(** X16. Below Android 10 the polling is blind.  On a platform whose SDK
    level is below Q, getForegroundApp of the service returns null without
    asking for the running processes, so a tick never blocks, never reads
    the usage and leaves the device as it is, whatever is stored and
    whatever the usage; and getCurrentForegroundApp of the native module
    resolves with null, without any query, from Lollipop on whenever the
    app has a task. *)
Theorem polling_blind_below_android_10 (os : Kt.Android) (dev : Kt.Device) :
  Kt.SDK_INT os < Kt.Q →
  value_of (Kt.BlockingService.getForegroundApp os dev) = Ok None ∧
  (let run := Kt.BlockingService.checkAndBlock os dev in
   state_of run = dev ∧ value_of run = Ok tt ∧
   existsb is_block (trace_of run) = false ∧
   count_events is_process_query (trace_of run) = 0%nat ∧
   count_events is_usage_query (trace_of run) = 0%nat) ∧
  (Kt.LOLLIPOP ≤ Kt.SDK_INT os → Kt.appTasks_isNotEmpty os = true →
   Kt.ForegroundAppModuleImpl.getCurrentForegroundApp os dev = (dev, [], Ok None)).
Proof.
  intros Hsdk.
  destruct (getForegroundApp_below_Q os dev Hsdk) as (t1 & Hfg & H1 & Hq1 & Hu1).
  split; [by rewrite Hfg|]. split.
  - simpl. destruct (checkAndBlock_run os dev) as (dev' & t & Hrun & _ & Hcases).
    rewrite Hrun. unfold state_of, trace_of, value_of in *. simpl in *.
    destruct (Kt.getSharedPreferences os) as [[]|e].
    2:{ by destruct Hcases as [-> ->]. }
    destruct (Kt.getString Kt.KEY_SELECTED_APPS "[]" dev).2 as [sel|e].
    2:{ by destruct Hcases as [-> ->]. }
    case_bool_decide.
    { by destruct Hcases as [-> ->]. }
    destruct Hcases as (t1' & fg & Hfg' & Hcases). rewrite Hfg in Hfg'. simplify_eq.
    destruct Hcases as [-> ->]. split; [done|]. split; [done|].
    split; [by apply harmless_not_block|]. by split.
  - intros Hl Htasks.
    unfold Kt.ForegroundAppModuleImpl.getCurrentForegroundApp,
      Kt.ForegroundAppModuleImpl.getForegroundAppLegacy. eff_unfold.
    destruct (Kt.activityManager os); simpl; [|done].
    rewrite bool_decide_false by lia.
    rewrite (bool_decide_true _ Hl), Htasks. done.
Qed.

Lemma polling_blind_below_android_10_witness :
  Kt.BlockingService.checkAndBlock
    (phone_on 28 true (phone (Ok tt) (Ok (Some [process "com.x"])) (stats_x 60000)))
    (device json_apps_x (json_limits_x 60000))
  = (device json_apps_x (json_limits_x 60000), [], Ok tt) ∧
  Kt.ForegroundAppModuleImpl.getCurrentForegroundApp
    (phone_on 28 true (phone (Ok tt) (Ok (Some [process "com.x"])) (stats_x 60000)))
    (device json_apps_x (json_limits_x 60000))
  = (device json_apps_x (json_limits_x 60000), [], Ok None).
Proof.
  split; [reflexivity|].
  apply (polling_blind_below_android_10
           (phone_on 28 true (phone (Ok tt) (Ok (Some [process "com.x"])) (stats_x 60000)))
           (device json_apps_x (json_limits_x 60000))); [reflexivity| |reflexivity].
  vm_compute. discriminate.
Defined.

(** Without a verdict of the service on a package, neither service blocks
    it. *)
Lemma no_verdict_no_block os (dev : Kt.Device) p :
  service_verdict os dev p = None →
  value_of (Kt.BlockingService.shouldBlockApp os p dev) = Ok None ∧
  value_of (Kt.AppBlockingAccessibilityService.shouldBlockApp os p dev) = Ok false ∧
  existsb (blocks p) (trace_of (Kt.BlockingService.checkAndBlock os dev)) = false ∧
  ∀ event, existsb (blocks p)
             (trace_of (Kt.AppBlockingAccessibilityService.onAccessibilityEvent os event dev))
           = false.
Proof.
  intros Hv.
  destruct (shouldBlockApp_run os p dev) as (ts & Hs & _).
  destruct (accessibility_shouldBlockApp_run os p dev) as (ta & Ha & _).
  assert (Hacc : accessibility_verdict os dev p = false).
  { by rewrite verdicts_agree, Hv. }
  rewrite Hs, Ha, Hv, Hacc. unfold value_of. simpl.
  split; [done|]. split; [done|]. split.
  - apply not_true_is_false. intros Hb.
    destruct (checkAndBlock_blocks os dev p Hb) as (_ & info & Hinfo). congruence.
  - intros event. apply not_true_is_false. intros Hb.
    destruct (onAccessibilityEvent_blocks os event dev p Hb) as [Hacc' _]. congruence.
Qed.

(** X17. A package outside the stored selection is never blocked, whatever
    its limit and usage: neither shouldBlockApp gives a verdict on it, and
    neither the tick nor an accessibility event blocks it.  The same holds
    for every package when the stored selection cannot be parsed (it is
    read as the empty selection), and when the stored configuration cannot
    be read at all. *)
Theorem unselected_package_never_blocked (os : Kt.Android) (dev : Kt.Device) (p : string) :
  let quiet :=
    value_of (Kt.BlockingService.shouldBlockApp os p dev) = Ok None ∧
    value_of (Kt.AppBlockingAccessibilityService.shouldBlockApp os p dev) = Ok false ∧
    existsb (blocks p) (trace_of (Kt.BlockingService.checkAndBlock os dev)) = false ∧
    ∀ event, existsb (blocks p)
               (trace_of (Kt.AppBlockingAccessibilityService.onAccessibilityEvent os event dev))
             = false in
  (∀ selected limits,
     stored_config os Kt.BlockingService.TAG dev = Ok (selected, limits) →
     p ∉ selected → quiet) ∧
  (∀ sel e,
     value_of (Kt.getString Kt.KEY_SELECTED_APPS "[]" dev) = Ok sel →
     Kt.JSONArray os sel = Threw e → quiet) ∧
  (∀ e, stored_config os Kt.BlockingService.TAG dev = Threw e → quiet).
Proof.
  simpl. split; [|split].
  - intros selected limits Hcfg Hp. apply no_verdict_no_block.
    unfold service_verdict. rewrite Hcfg. by rewrite bool_decide_false.
  - intros sel e Hsel Hparse. apply no_verdict_no_block.
    destruct (service_verdict os dev p) as [v|] eqn:Hv; [|done].
    destruct (service_verdict_selected os dev p v Hv) as (_ & sel' & Hsel' & Hin).
    rewrite Hsel in Hsel'. simplify_eq. rewrite Hparse in Hin. by apply elem_of_nil in Hin.
  - intros e Hcfg. apply no_verdict_no_block. unfold service_verdict. by rewrite Hcfg.
Qed.

Lemma unselected_package_never_blocked_witness :
  existsb (blocks "com.y")
    (trace_of (Kt.BlockingService.checkAndBlock
                 (phone (Ok tt) (Ok (Some [process "com.y"])) (stats_x 60000))
                 (device json_apps_x (json_limits_x 60000)))) = false ∧
  value_of (Kt.AppBlockingAccessibilityService.shouldBlockApp
              (phone (Ok tt) (Ok (Some [process "com.x"])) (stats_x 60000)) "com.x"
              (device "[com.x" (json_limits_x 60000))) = Ok false.
Proof.
  split.
  - refine (proj1 (proj2 (proj2 (proj1 (unselected_package_never_blocked
              (phone (Ok tt) (Ok (Some [process "com.y"])) (stats_x 60000))
              (device json_apps_x (json_limits_x 60000)) "com.y")
              ["com.x"] {["com.x" := 60000]} _ _)))).
    + reflexivity.
    + apply (bool_decide_unpack _). vm_compute. exact I.
  - refine (proj1 (proj2 (proj1 (proj2 (unselected_package_never_blocked
              (phone (Ok tt) (Ok (Some [process "com.x"])) (stats_x 60000))
              (device "[com.x" (json_limits_x 60000)) "com.x"))
              "[com.x" "org.json.JSONException" _ _))).
    + reflexivity.
    + reflexivity.
Defined.

(** ** Further properties: the two foreground detections *)

Lemma module_first_foreground_sound procs p :
  Kt.ForegroundAppModuleImpl.first_foreground procs = Some p →
  ∃ before proc others after,
    procs = before ++ proc :: after ∧
    Kt.importance proc = Kt.IMPORTANCE_FOREGROUND ∧ Kt.pkgList proc = Some (p :: others) ∧
    Kt.ForegroundAppModuleImpl.first_foreground before = None.
Proof.
  induction procs as [|proc rest IH]; simpl; [done|].
  assert (Hrest : Kt.ForegroundAppModuleImpl.first_foreground rest = Some p →
                  (bool_decide (Kt.importance proc = Kt.IMPORTANCE_FOREGROUND) = false ∨
                   Kt.pkgList proc = None ∨ Kt.pkgList proc = Some []) →
                  ∃ before proc0 others after,
                    proc :: rest = before ++ proc0 :: after ∧
                    Kt.importance proc0 = Kt.IMPORTANCE_FOREGROUND ∧
                    Kt.pkgList proc0 = Some (p :: others) ∧
                    Kt.ForegroundAppModuleImpl.first_foreground before = None).
  { intros (before & proc0 & others & after & -> & Hi & Hp & Hb)%IH Hskip.
    exists (proc :: before), proc0, others, after. split; [done|]. split; [done|].
    split; [done|]. simpl. destruct Hskip as [->|[->| ->]]; [done|..].
    - by destruct (bool_decide _).
    - by destruct (bool_decide _). }
  case_bool_decide as Himp.
  - destruct (Kt.pkgList proc) as [[|q qs]|] eqn:Hpk.
    + intros H. apply Hrest; auto.
    + intros [= ->]. by exists [], proc, qs, rest.
    + intros H. apply Hrest; auto.
  - intros H. apply Hrest; auto.
Qed.

(** X18. The two foreground detections on the same list of running
    processes.  What the native module detects is the first package of the
    first process of foreground importance that has a package.  When that
    package is not the host's, the polling of the service detects the same
    package; when the polling of the service detects nothing, the module
    detects nothing or the host; and what the service detects is always the
    first package of some foreground process. *)
Theorem foreground_detections_agree (ours : string) (procs : list Kt.RunningAppProcessInfo) :
  (∀ p, Kt.ForegroundAppModuleImpl.first_foreground procs = Some p → p ≠ ours →
        Kt.BlockingService.first_foreground ours procs = Some p) ∧
  (Kt.BlockingService.first_foreground ours procs = None →
   Kt.ForegroundAppModuleImpl.first_foreground procs = None ∨
   Kt.ForegroundAppModuleImpl.first_foreground procs = Some ours) ∧
  (∀ p, Kt.BlockingService.first_foreground ours procs = Some p →
        p ≠ ours ∧
        ∃ proc others, proc ∈ procs ∧ Kt.importance proc = Kt.IMPORTANCE_FOREGROUND ∧
                       Kt.pkgList proc = Some (p :: others)) ∧
  (∀ p, Kt.ForegroundAppModuleImpl.first_foreground procs = Some p →
        ∃ before proc others after,
          procs = before ++ proc :: after ∧
          Kt.importance proc = Kt.IMPORTANCE_FOREGROUND ∧ Kt.pkgList proc = Some (p :: others) ∧
          Kt.ForegroundAppModuleImpl.first_foreground before = None).
Proof.
  split; [|split; [|split]].
  - induction procs as [|proc rest IH]; simpl; [done|].
    intros p. case_bool_decide; [|apply IH].
    destruct (Kt.pkgList proc) as [[|q qs]|]; [apply IH| |apply IH].
    intros [= ->] Hne. by rewrite bool_decide_true.
  - induction procs as [|proc rest IH]; simpl; [by left|].
    case_bool_decide; [|apply IH].
    destruct (Kt.pkgList proc) as [[|q qs]|]; [apply IH| |apply IH].
    case_bool_decide as Hq; [done|]. intros _. right. f_equal.
    by destruct (decide (q = ours)).
  - induction procs as [|proc rest IH]; simpl; [done|].
    intros p.
    assert (Hrest : Kt.BlockingService.first_foreground ours rest = Some p →
              p ≠ ours ∧
              ∃ proc0 others, proc0 ∈ proc :: rest ∧
                              Kt.importance proc0 = Kt.IMPORTANCE_FOREGROUND ∧
                              Kt.pkgList proc0 = Some (p :: others)).
    { intros (Hne & proc0 & others & Hin & Hi & Hp)%IH. split; [done|].
      exists proc0, others. split; [by right|done]. }
    case_bool_decide as Himp; [|apply Hrest].
    destruct (Kt.pkgList proc) as [[|q qs]|] eqn:Hpk; [apply Hrest| |apply Hrest].
    case_bool_decide as Hq; [|apply Hrest].
    intros [= ->]. split; [done|]. exists proc, qs. split; [by left|done].
  - intros p. apply module_first_foreground_sound.
Qed.

Lemma foreground_detections_agree_witness :
  Kt.BlockingService.first_foreground "com.dailyfocus"
    [process "com.x"; process "com.dailyfocus"] = Some "com.x".
Proof.
  apply (foreground_detections_agree "com.dailyfocus"
           [process "com.x"; process "com.dailyfocus"]).
  - reflexivity.
  - discriminate.
Defined.

(** ** Further properties: starting the service *)

(** X19. Starting the service stores the configuration the service reads.
    When the preferences can be opened, the service starts, and org.json
    reads back what it printed, then after startBlockingService the check
    task is scheduled, the stored configuration is the selection and the
    limit object of the call (the last entry of a package wins, null
    entries are dropped), and no other key of the preferences has changed.
    When starting the service throws, the promise is rejected and no task
    is scheduled, but the new configuration is already stored. *)
Theorem start_stores_configuration (os : Kt.Android)
    (st : Kt.BlockingServiceModuleImpl.Starter) (selectedApps : list string)
    (limits : list Kt.BlockingServiceModuleImpl.ReadableLimit) (dev : Kt.Device) :
  let run := Kt.BlockingServiceModuleImpl.startBlockingService os st selectedApps limits dev in
  let limitsObject := Kt.BlockingServiceModuleImpl.limitsObject limits in
  Kt.getSharedPreferences os = Ok tt →
  Kt.JSONArray os (Kt.BlockingServiceModuleImpl.JSONArray_toString st selectedApps)
  = Ok selectedApps →
  (∃ entries,
     Kt.JSONObject os (Kt.BlockingServiceModuleImpl.JSONObject_toString st limitsObject)
     = Ok entries ∧
     foldl (λ result kv, <[kv.1 := kv.2]> result) ∅ entries = limitsObject) →
  (∀ k, k ≠ Kt.KEY_SELECTED_APPS → k ≠ Kt.KEY_LIMITS →
        Kt.prefs (state_of run) !! k = Kt.prefs dev !! k) ∧
  (∀ TAG, stored_config os TAG (state_of run) = Ok (selectedApps, limitsObject)) ∧
  (Kt.BlockingServiceModuleImpl.startForegroundService st = Ok tt →
   value_of run = Ok tt ∧ Kt.checkTask (state_of run) = true) ∧
  (∀ e, Kt.BlockingServiceModuleImpl.startForegroundService st = Threw e →
        value_of run = Threw ("Error starting blocking service: " +:+ e) ∧
        Kt.checkTask (state_of run) = Kt.checkTask dev).
Proof.
  intros run limitsObject Hprefs Harray (entries & Hobject & Hentries).
  assert (Hstate : Kt.prefs (state_of run)
                   = <[Kt.KEY_LIMITS := Kt.PString
                         (Kt.BlockingServiceModuleImpl.JSONObject_toString st limitsObject)]>
                       (<[Kt.KEY_SELECTED_APPS := Kt.PString
                            (Kt.BlockingServiceModuleImpl.JSONArray_toString st selectedApps)]>
                          (Kt.prefs dev))).
  { unfold run, Kt.BlockingServiceModuleImpl.startBlockingService. eff_unfold.
    rewrite Hprefs. simpl.
    destruct (Kt.BlockingServiceModuleImpl.startForegroundService st) as [[]|e]; simpl; [|done].
    unfold Kt.BlockingService.startMonitoring. eff_unfold. simpl.
    by destruct (Kt.checkTask dev). }
  assert (Hok : Kt.BlockingServiceModuleImpl.startForegroundService st = Ok tt →
                value_of run = Ok tt ∧ Kt.checkTask (state_of run) = true).
  { intros Hstart. unfold run, Kt.BlockingServiceModuleImpl.startBlockingService. eff_unfold.
    rewrite Hprefs, Hstart. simpl.
    unfold Kt.BlockingService.startMonitoring. eff_unfold. simpl.
    by destruct (Kt.checkTask dev). }
  assert (Hfail : ∀ e, Kt.BlockingServiceModuleImpl.startForegroundService st = Threw e →
                  value_of run = Threw ("Error starting blocking service: " +:+ e) ∧
                  Kt.checkTask (state_of run) = Kt.checkTask dev).
  { intros e Hstart. unfold run, Kt.BlockingServiceModuleImpl.startBlockingService. eff_unfold.
    rewrite Hprefs, Hstart. simpl. done. }
  assert (Hsel : Kt.prefs (state_of run) !! Kt.KEY_SELECTED_APPS
                 = Some (Kt.PString
                           (Kt.BlockingServiceModuleImpl.JSONArray_toString st selectedApps))).
  { rewrite Hstate, lookup_insert_ne by (by compute). apply lookup_insert_eq. }
  assert (Hlim : Kt.prefs (state_of run) !! Kt.KEY_LIMITS
                 = Some (Kt.PString
                           (Kt.BlockingServiceModuleImpl.JSONObject_toString st limitsObject))).
  { rewrite Hstate. apply lookup_insert_eq. }
  split; [|split; [|split]]; [| |exact Hok|exact Hfail].
  - intros k Hk1 Hk2. rewrite Hstate. by rewrite !lookup_insert_ne by done.
  - intros TAG. clear Hok Hfail Hstate.
    remember (state_of run) as dev' eqn:Hdev'. clear Hdev' run.
    unfold stored_config, Kt.getString, Kt.parseStringArray, Kt.parseLimitsMap.
    eff_unfold. rewrite Hprefs. cbn [fst snd]. rewrite Hsel. cbn [fst snd app].
    rewrite Hlim. cbn [fst snd app]. rewrite Harray. cbn [fst snd app].
    rewrite Hobject. cbn [fst snd app]. by rewrite Hentries.
Qed.

Lemma start_stores_configuration_witness :
  stored_config (phone (Ok tt) (Ok None) (stats_x 0)) Kt.BlockingService.TAG
    (state_of (Kt.BlockingServiceModuleImpl.startBlockingService
                 (phone (Ok tt) (Ok None) (stats_x 0)) example_starter ["com.x"]
                 [Some (Some "com.x", 5); None; Some (None, 7); Some (Some "com.x", 60000)]
                 (device "[]" "{}")))
  = Ok (["com.x"], {["com.x" := 60000]}).
Proof.
  refine (proj1 (proj2 (start_stores_configuration (phone (Ok tt) (Ok None) (stats_x 0))
            example_starter ["com.x"]
            [Some (Some "com.x", 5); None; Some (None, 7); Some (Some "com.x", 60000)]
            (device "[]" "{}") _ _ _)) Kt.BlockingService.TAG).
  - reflexivity.
  - reflexivity.
  - exists [("com.x", 60000)]. split; reflexivity.
Defined.

(** ** Further properties: today's usage statistics *)

Lemma usageStatsMap_snoc (stats : list Kt.UsageStats) stat :
  Kt.UsageStatsModuleImpl.usageStatsMap (stats ++ [stat])
  = <[Kt.packageName stat := Z.min (Kt.totalTimeInForeground stat)
                                   Kt.UsageStatsModuleImpl.maxDailyUsage]>
      (Kt.UsageStatsModuleImpl.usageStatsMap stats).
Proof. unfold Kt.UsageStatsModuleImpl.usageStatsMap. by rewrite foldl_app. Qed.

Lemma usageStatsMap_last_wins (before after : list Kt.UsageStats) stat :
  Kt.packageName stat ∉ map Kt.packageName after →
  Kt.UsageStatsModuleImpl.usageStatsMap (before ++ stat :: after) !! Kt.packageName stat
  = Some (Z.min (Kt.totalTimeInForeground stat) Kt.UsageStatsModuleImpl.maxDailyUsage).
Proof.
  induction after as [|a after IH] using rev_ind; intros Hp.
  - rewrite usageStatsMap_snoc. apply lookup_insert_eq.
  - rewrite app_comm_cons, app_assoc, usageStatsMap_snoc. rewrite map_app in Hp.
    rewrite lookup_insert_ne.
    + apply IH. intros Hin. apply Hp, elem_of_app. by left.
    + intros Heq. apply Hp, elem_of_app. right. simpl. rewrite Heq. apply list_elem_of_here.
Qed.

Lemma usageStatsMap_lookup_None (stats : list Kt.UsageStats) p :
  p ∉ map Kt.packageName stats → Kt.UsageStatsModuleImpl.usageStatsMap stats !! p = None.
Proof.
  induction stats as [|s stats IH] using rev_ind; intros Hp; [done|].
  rewrite usageStatsMap_snoc. rewrite map_app in Hp.
  rewrite lookup_insert_ne.
  - apply IH. intros Hin. apply Hp, elem_of_app. by left.
  - intros Heq. apply Hp, elem_of_app. right. simpl. rewrite Heq. apply list_elem_of_here.
Qed.

Lemma from_usage_names os (l : list (string * Z)) :
  map Kt.stat_packageName
    (omap (λ '(packageName, totalTime),
           if bool_decide (packageName = Kt.context_packageName os) then None
           else Some {| Kt.stat_packageName := packageName;
                        Kt.stat_appName := Kt.usageAppName os packageName;
                        Kt.stat_totalTimeInForeground := totalTime |}) l)
  `sublist_of` map fst l.
Proof.
  induction l as [|[k v] l IH]; simpl; [constructor|].
  case_bool_decide; simpl; by constructor.
Qed.

Lemma from_usage_unique os (m : gmap string Z) :
  NoDup (map Kt.stat_packageName (Kt.UsageStatsModuleImpl.from_usage os m)).
Proof.
  apply (sublist_NoDup _ (map fst (map_to_list m)));
    [apply NoDup_fst_map_to_list|apply from_usage_names].
Qed.

Lemma from_usage_elem os (m : gmap string Z) e :
  e ∈ Kt.UsageStatsModuleImpl.from_usage os m ↔
  Kt.stat_packageName e ≠ Kt.context_packageName os ∧
  m !! Kt.stat_packageName e = Some (Kt.stat_totalTimeInForeground e) ∧
  Kt.stat_appName e = Kt.usageAppName os (Kt.stat_packageName e).
Proof.
  unfold Kt.UsageStatsModuleImpl.from_usage. rewrite list_elem_of_omap. split.
  - intros ([k v] & Hkv & Hsome). apply elem_of_map_to_list in Hkv.
    case_bool_decide; simplify_eq. done.
  - intros (Hne & Hm & Hname). exists (Kt.stat_packageName e, Kt.stat_totalTimeInForeground e).
    split; [by apply elem_of_map_to_list|].
    rewrite bool_decide_false by done. destruct e. simpl in *. by rewrite Hname.
Qed.

(** The loop over the installed applications adds no package twice when it
    keeps the set of processed packages, none that was processed before,
    and never the host. *)
Lemma installed_loop_fresh os (apps : list Kt.ApplicationInfo) :
  ∀ processed,
    NoDup (map Kt.stat_packageName
             (Kt.UsageStatsModuleImpl.installed_loop os (Some processed) apps)) ∧
    ∀ p, p ∈ map Kt.stat_packageName
               (Kt.UsageStatsModuleImpl.installed_loop os (Some processed) apps) →
         p ∉ processed.
Proof.
  induction apps as [|a rest IH]; intros processed; simpl.
  - split; [apply NoDup_nil_2|]. intros p Hp. by apply elem_of_nil in Hp.
  - case_bool_decide as Hhost; simpl; [apply IH|].
    case_bool_decide as Hseen; simpl; [apply IH|].
    destruct (negb (Kt.UsageStatsModuleImpl.isUserInstalled a)
              && negb (Kt.hasLauncher os (Kt.app_packageName a))); [apply IH|].
    destruct (Kt.getApplicationLabel os (Kt.app_packageName a)); [|apply IH..].
    simpl. destruct (IH (Kt.app_packageName a :: processed)) as [Hnd Hfresh]. split.
    + apply NoDup_cons. split; [|done]. intros Hin. apply Hfresh in Hin.
      apply Hin. by left.
    + intros p [->|Hin]%elem_of_cons; [done|].
      apply Hfresh in Hin. intros Hp. apply Hin. by right.
Qed.

Lemma installed_loop_not_host os processed (apps : list Kt.ApplicationInfo) e :
  e ∈ Kt.UsageStatsModuleImpl.installed_loop os processed apps →
  Kt.stat_packageName e ≠ Kt.context_packageName os.
Proof.
  revert processed. induction apps as [|a rest IH]; intros processed; simpl.
  - intros H. by apply elem_of_nil in H.
  - case_bool_decide as Hhost; simpl.
    { apply IH. }
    destruct (match processed with
              | Some processed0 => bool_decide (Kt.app_packageName a ∈ processed0)
              | None => false
              end); [apply IH|].
    destruct (negb (Kt.UsageStatsModuleImpl.isUserInstalled a)
              && negb (Kt.hasLauncher os (Kt.app_packageName a))); [apply IH|].
    destruct (Kt.getApplicationLabel os (Kt.app_packageName a)); [|apply IH..].
    intros [->|Hin]%elem_of_cons; [done|]. by apply IH in Hin.
Qed.

(** X21. What getTodayUsageStats resolves with.  The host package is never
    in the result, and the device is left as it is.  When the daily query
    answers with entries, no further query is made, no package appears
    twice in the result, and every package of the answer other than the
    host appears with the usage of its last entry, capped at 24 hours; an
    entry added from the installed applications has usage 0 and a package
    that was not in the answer. *)
Theorem today_usage_entries (os : Kt.Android) (dev : Kt.Device) :
  let run := Kt.UsageStatsModuleImpl.getTodayUsageStats os dev in
  state_of run = dev ∧
  (∀ entries e, value_of run = Ok entries → e ∈ entries →
                Kt.stat_packageName e ≠ Kt.context_packageName os) ∧
  (∀ stat stats,
     Kt.usageStatsManager os = true →
     Kt.queryUsageStats os Kt.INTERVAL_DAILY = Ok (Some (stat :: stats)) →
     trace_of run = [Kt.call_queryUsageStats Kt.INTERVAL_DAILY] ∧
     ∃ entries,
       value_of run = Ok entries ∧
       NoDup (map Kt.stat_packageName entries) ∧
       (∀ before s after,
          stat :: stats = before ++ s :: after →
          Kt.packageName s ∉ map Kt.packageName after →
          Kt.packageName s ≠ Kt.context_packageName os →
          {| Kt.stat_packageName := Kt.packageName s;
             Kt.stat_appName := Kt.usageAppName os (Kt.packageName s);
             Kt.stat_totalTimeInForeground :=
               Z.min (Kt.totalTimeInForeground s) Kt.UsageStatsModuleImpl.maxDailyUsage |}
          ∈ entries) ∧
       (∀ e, e ∈ entries →
             Kt.stat_packageName e ∈ map Kt.packageName (stat :: stats) ∨
             Kt.stat_totalTimeInForeground e = 0)).
Proof.
  simpl. split; [|split].
  - unfold Kt.UsageStatsModuleImpl.getTodayUsageStats. eff_unfold.
    destruct (Kt.usageStatsManager os); simpl; [|done].
    destruct (Kt.queryUsageStats os Kt.INTERVAL_DAILY) as [s1|?]; simpl; [|done].
    destruct (retry_with_run os Kt.INTERVAL_BEST s1 dev) as (t2 & [s2|?] & ->); simpl; [|done].
    destruct (retry_with_run os Kt.INTERVAL_WEEKLY s2 dev) as (t3 & [s3|?] & ->); simpl; [|done].
    destruct (retry_with_run os Kt.INTERVAL_MONTHLY s3 dev) as (t4 & [s4|?] & ->); simpl; [|done].
    by destruct s4 as [[|]|].
  - intros entries e. unfold Kt.UsageStatsModuleImpl.getTodayUsageStats. eff_unfold.
    destruct (Kt.usageStatsManager os); simpl.
    2:{ intros ? Hin. simplify_eq. by apply elem_of_nil in Hin. }
    destruct (Kt.queryUsageStats os Kt.INTERVAL_DAILY) as [s1|?]; simpl; [|done].
    destruct (retry_with_run os Kt.INTERVAL_BEST s1 dev) as (t2 & [s2|?] & ->); simpl; [|done].
    destruct (retry_with_run os Kt.INTERVAL_WEEKLY s2 dev) as (t3 & [s3|?] & ->); simpl; [|done].
    destruct (retry_with_run os Kt.INTERVAL_MONTHLY s3 dev) as (t4 & [s4|?] & ->); simpl; [|done].
    destruct s4 as [[|s l]|]; simpl; intros Heq Hin; simplify_eq.
    + by apply installed_loop_not_host in Hin.
    + apply elem_of_app in Hin as [Hin|Hin].
      * by apply from_usage_elem in Hin as [Hne _].
      * by apply installed_loop_not_host in Hin.
    + by apply elem_of_nil in Hin.
  - intros stat stats Hmgr Hdaily.
    unfold Kt.UsageStatsModuleImpl.getTodayUsageStats, Kt.UsageStatsModuleImpl.retry_with.
    eff_unfold. rewrite Hmgr, Hdaily. simpl. split; [done|].
    eexists. split; [reflexivity|].
    set (m := Kt.UsageStatsModuleImpl.usageStatsMap (stat :: stats)).
    set (result := Kt.UsageStatsModuleImpl.from_usage os m).
    destruct (installed_loop_fresh os (Kt.getInstalledApplications os)
                (map Kt.stat_packageName result)) as [Hnd Hfresh].
    split; [|split].
    + rewrite map_app. apply NoDup_app. split; [apply from_usage_unique|].
      split; [|done]. intros p Hp Hin. by apply Hfresh in Hin.
    + intros before s after Heq Hlast Hne. apply elem_of_app. left.
      apply from_usage_elem. simpl. split; [done|]. split; [|done].
      unfold m. rewrite Heq. by apply usageStatsMap_last_wins.
    + intros e [Hin|Hin]%elem_of_app.
      * left. apply from_usage_elem in Hin as (_ & Hm & _).
        destruct (decide (Kt.stat_packageName e ∈ map Kt.packageName (stat :: stats)))
          as [|Hnot]; [done|].
        unfold m in Hm. by rewrite (usageStatsMap_lookup_None _ _ Hnot) in Hm.
      * right. by apply installed_loop_zero in Hin.
Qed.

Lemma today_usage_entries_witness :
  value_of (Kt.UsageStatsModuleImpl.getTodayUsageStats
              (phone (Ok tt) (Ok None)
                 (Ok (Some [{| Kt.packageName := "com.x"; Kt.totalTimeInForeground := 5 |};
                            {| Kt.packageName := "com.dailyfocus";
                               Kt.totalTimeInForeground := 9 |};
                            {| Kt.packageName := "com.x";
                               Kt.totalTimeInForeground := hours 30 |}])))
              (device "[]" "{}"))
  = Ok [{| Kt.stat_packageName := "com.x"; Kt.stat_appName := "X";
           Kt.stat_totalTimeInForeground := hours 24 |}] ∧
  trace_of (Kt.UsageStatsModuleImpl.getTodayUsageStats
              (phone (Ok tt) (Ok None) (stats_x 5)) (device "[]" "{}"))
  = [Kt.call_queryUsageStats Kt.INTERVAL_DAILY].
Proof.
  split; [reflexivity|].
  refine (proj1 (proj2 (proj2 (today_usage_entries (phone (Ok tt) (Ok None) (stats_x 5))
                                 (device "[]" "{}")))
                   {| Kt.packageName := "com.x"; Kt.totalTimeInForeground := 5 |} [] _ _)).
  - reflexivity.
  - reflexivity.
Defined.

(** ** Further properties: the name of a package without label *)

Lemma after_last_dot_spec (s : string) :
  match Kt.BlockingService.after_last_dot s with
  | Some tail => has_dot s = true ∧ has_dot tail = false ∧
                 ∃ prefix, s = prefix +:+ "." +:+ tail
  | None => has_dot s = false
  end.
Proof.
  induction s as [|c rest IH]; simpl; [done|].
  destruct (Kt.BlockingService.after_last_dot rest) as [tail|].
  - destruct IH as (Hdot & Htail & prefix & ->).
    split; [by rewrite Hdot, orb_true_r|]. split; [done|]. by exists (String c prefix).
  - destruct (Ascii.eqb c ".") eqn:Hc; simpl; [|done].
    apply Ascii.eqb_eq in Hc as ->. split; [done|]. split; [done|]. by exists EmptyString.
Qed.

(** X22. The name BlockingService shows for a package without label is the
    part of the package name after its last dot: it holds no dot, the
    package name is some prefix, a dot and that part, and a package name
    without dot is shown as it is. *)
Theorem name_after_last_dot (s : string) :
  let name := Kt.BlockingService.substringAfterLast_dot s in
  has_dot name = false ∧
  (has_dot s = true → ∃ prefix, s = prefix +:+ "." +:+ name) ∧
  (has_dot s = false → name = s) ∧
  (∀ os, Kt.getApplicationLabel os s = Kt.NameNotFoundException → label_or_suffix os s = name).
Proof.
  simpl. unfold Kt.BlockingService.substringAfterLast_dot, label_or_suffix.
  pose proof (after_last_dot_spec s) as Hspec.
  destruct (Kt.BlockingService.after_last_dot s) as [tail|] eqn:Hal; simpl.
  - destruct Hspec as (Hdot & Htail & Hprefix).
    split; [done|]. split; [done|]. split; [congruence|].
    intros os ->. unfold Kt.BlockingService.substringAfterLast_dot. by rewrite Hal.
  - split; [done|]. split; [congruence|]. split; [done|].
    intros os ->. unfold Kt.BlockingService.substringAfterLast_dot. by rewrite Hal.
Qed.

Lemma name_after_last_dot_witness :
  (∃ prefix, "com.example.app" = prefix +:+ "." +:+ "app") ∧
  Kt.BlockingService.substringAfterLast_dot "nodots" = "nodots".
Proof.
  split.
  - apply (name_after_last_dot "com.example.app"). reflexivity.
  - apply (name_after_last_dot "nodots"). reflexivity.
Defined.

(** ** Further properties: the usage of one package *)

Lemma find_package_split (stats : list Kt.UsageStats) p appStat :
  List.find (λ it, bool_decide (Kt.packageName it = p)) stats = Some appStat →
  Kt.packageName appStat = p ∧
  ∃ before after, stats = before ++ appStat :: after ∧ p ∉ map Kt.packageName before.
Proof.
  induction stats as [|s stats IH]; simpl; [done|].
  case_bool_decide as Hs.
  - intros [= ->]. split; [done|]. exists [], stats. split; [done|]. apply not_elem_of_nil.
  - intros (Hp & before & after & -> & Hb)%IH. split; [done|].
    exists (s :: before), after. split; [done|]. simpl.
    apply not_elem_of_cons. split; [congruence|done].
Qed.

(** X23. The usage of one package.  getAppUsageToday leaves the device as
    it is; when it resolves with a map, the map is for the requested
    package, its usage is not 0 and is the usage getCurrentUsage of the
    services reads, uncapped, and its name is the label of the package.
    When no package appears twice in the answer of the daily query, the
    entry of getTodayUsageStats for that package carries the same usage
    capped at 24 hours.  Without a usage stats manager there is no
    permission, no usage and no query. *)
Theorem app_usage_today (os : Kt.Android) (p : string) (dev : Kt.Device) :
  let run := Kt.UsageStatsModuleImpl.getAppUsageToday os p dev in
  state_of run = dev ∧
  (∀ m, value_of run = Ok (Some m) →
        Kt.stat_packageName m = p ∧ Kt.stat_totalTimeInForeground m ≠ 0 ∧
        Kt.getApplicationLabel os p = Kt.Labelled (Kt.stat_appName m) ∧
        (∀ TAG, value_of (Kt.getCurrentUsage os TAG p dev)
                = Ok (Kt.stat_totalTimeInForeground m)) ∧
        (∀ stats, Kt.queryUsageStats os Kt.INTERVAL_DAILY = Ok (Some stats) →
                  NoDup (map Kt.packageName stats) → p ≠ Kt.context_packageName os →
                  ∃ entries,
                    value_of (Kt.UsageStatsModuleImpl.getTodayUsageStats os dev) = Ok entries ∧
                    {| Kt.stat_packageName := p;
                       Kt.stat_appName := Kt.usageAppName os p;
                       Kt.stat_totalTimeInForeground :=
                         Z.min (Kt.stat_totalTimeInForeground m)
                               Kt.UsageStatsModuleImpl.maxDailyUsage |} ∈ entries)) ∧
  (Kt.usageStatsManager os = false →
   run = (dev, [], Ok None) ∧
   Kt.UsageStatsModuleImpl.hasUsageStatsPermission os dev = (dev, [], Ok false) ∧
   Kt.UsageStatsModuleImpl.getTodayUsageStats os dev = (dev, [], Ok []) ∧
   ∀ TAG, Kt.getCurrentUsage os TAG p dev = (dev, [], Ok 0)).
Proof.
  simpl. split; [|split].
  - unfold Kt.UsageStatsModuleImpl.getAppUsageToday. eff_unfold.
    destruct (Kt.usageStatsManager os); simpl; [|done].
    destruct (Kt.queryUsageStats os Kt.INTERVAL_DAILY) as [[stats|]|e]; simpl; [|done..].
    destruct (List.find _ stats) as [appStat|]; simpl; [|done].
    case_bool_decide; simpl; [done|].
    by destruct (Kt.getApplicationLabel os p).
  - intros m. unfold Kt.UsageStatsModuleImpl.getAppUsageToday, Kt.getCurrentUsage. eff_unfold.
    destruct (Kt.usageStatsManager os) eqn:Hmgr; simpl; [|done].
    destruct (Kt.queryUsageStats os Kt.INTERVAL_DAILY) as [[stats|]|e] eqn:Hq; simpl; [|done..].
    destruct (List.find _ stats) as [appStat|] eqn:Hfind; simpl; [|done].
    case_bool_decide as Hzero; simpl; [done|].
    destruct (Kt.getApplicationLabel os p) as [name| |msg] eqn:Hlabel; simpl; [|done..].
    intros [= <-]. simpl. split; [done|]. split; [done|]. split; [done|]. split; [done|].
    intros stats' [= <-] Hnd Hhost.
    destruct (find_package_split stats p appStat Hfind) as (Hp & before & after & -> & Hb).
    unfold Kt.UsageStatsModuleImpl.getTodayUsageStats, Kt.UsageStatsModuleImpl.retry_with.
    eff_unfold. rewrite Hmgr, Hq. simpl.
    assert (Hne : ∃ s l, before ++ appStat :: after = s :: l).
    { destruct before; simpl; eauto. }
    destruct Hne as (s & l & Hsl). rewrite Hsl. simpl.
    eexists. split; [reflexivity|]. apply elem_of_app. left.
    apply from_usage_elem. simpl. split; [done|]. split; [|done].
    rewrite <- Hsl, <- Hp. apply usageStatsMap_last_wins.
    rewrite map_app in Hnd. simpl in Hnd.
    apply NoDup_app in Hnd as (_ & _ & Hnd). by apply NoDup_cons in Hnd as [Hnd _].
  - intros Hmgr.
    unfold Kt.UsageStatsModuleImpl.getAppUsageToday,
      Kt.UsageStatsModuleImpl.hasUsageStatsPermission,
      Kt.UsageStatsModuleImpl.getTodayUsageStats, Kt.getCurrentUsage.
    eff_unfold. by rewrite Hmgr.
Qed.

Lemma app_usage_today_witness :
  value_of (Kt.getCurrentUsage (phone (Ok tt) (Ok None) (stats_x (hours 30)))
              Kt.BlockingService.TAG "com.x" (device "[]" "{}"))
  = Ok (hours 30) ∧
  (∃ entries,
     value_of (Kt.UsageStatsModuleImpl.getTodayUsageStats
                 (phone (Ok tt) (Ok None) (stats_x (hours 30))) (device "[]" "{}"))
     = Ok entries ∧
     {| Kt.stat_packageName := "com.x"; Kt.stat_appName := "X";
        Kt.stat_totalTimeInForeground := hours 24 |} ∈ entries).
Proof.
  destruct (proj1 (proj2 (app_usage_today (phone (Ok tt) (Ok None) (stats_x (hours 30)))
                            "com.x" (device "[]" "{}")))
              {| Kt.stat_packageName := "com.x"; Kt.stat_appName := "X";
                 Kt.stat_totalTimeInForeground := hours 30 |} eq_refl)
    as (_ & _ & _ & Husage & Hcapped).
  split; [apply Husage|].
  apply (Hcapped [{| Kt.packageName := "com.x"; Kt.totalTimeInForeground := hours 30 |}]).
  - reflexivity.
  - apply (bool_decide_unpack _). vm_compute. exact I.
  - discriminate.
Defined.

(** ** Further properties: what the callbacks read *)

Lemma ro_run {A} (m : Eff Kt.Device Kt.Event A) dev :
  reads_prefs_only m → m dev = (dev, trace_of (m dev), value_of (m dev)).
Proof. intros Hm. destruct dev as [prefs task]. apply (Hm {| Kt.prefs := prefs; Kt.checkTask := task |}). Qed.

Lemma ro_ret {A} (a : A) : reads_prefs_only (mret a).
Proof. done. Qed.

Lemma ro_emit ev : reads_prefs_only (emit ev).
Proof. done. Qed.

Lemma ro_lift {A} (r : Try A) : reads_prefs_only (lift r).
Proof. done. Qed.

Lemma ro_throw {A} msg : reads_prefs_only (throw msg : Eff Kt.Device Kt.Event A).
Proof. done. Qed.

Lemma ro_bind {A B} (m : Eff Kt.Device Kt.Event A) (k : A → Eff Kt.Device Kt.Event B) :
  reads_prefs_only m → (∀ a, reads_prefs_only (k a)) → reads_prefs_only (m ≫= k).
Proof.
  intros Hm Hk dev task. pose proof (ro_run m dev Hm) as Hrun.
  specialize (Hm dev task). unfold mbind, Eff_bind, eff_bind.
  rewrite Hm. destruct (m dev) as [[s t] [a|e]]; unfold trace_of, value_of in *; simpl in *;
    [|done].
  injection Hrun as ->. rewrite (Hk a dev task).
  destruct (k a dev) as [[s' t'] r']. done.
Qed.

Lemma ro_catch {A} (m : Eff Kt.Device Kt.Event A) (h : string → Eff Kt.Device Kt.Event A) :
  reads_prefs_only m → (∀ e, reads_prefs_only (h e)) → reads_prefs_only (catch m h).
Proof.
  intros Hm Hh dev task. pose proof (ro_run m dev Hm) as Hrun.
  specialize (Hm dev task). unfold catch.
  rewrite Hm. destruct (m dev) as [[s t] [a|e]]; unfold trace_of, value_of in *; simpl in *;
    [done|].
  injection Hrun as ->. rewrite (Hh e dev task).
  destruct (h e dev) as [[s' t'] r']. done.
Qed.

Lemma ro_getString key def : reads_prefs_only (Kt.getString key def).
Proof.
  intros dev task. unfold Kt.getString. eff_unfold. simpl.
  by destruct (Kt.prefs dev !! key) as [[s|n]|].
Qed.

Lemma ro_getCurrentUsage os TAG p : reads_prefs_only (Kt.getCurrentUsage os TAG p).
Proof.
  unfold Kt.getCurrentUsage.
  repeat first
    [ apply ro_getString | apply ro_ret | apply ro_emit | apply ro_lift | apply ro_throw
    | apply ro_catch | apply ro_bind
    | match goal with
      | |- reads_prefs_only (if ?b then _ else _) => destruct b
      | |- reads_prefs_only (match ?x with _ => _ end) => destruct x
      | |- ∀ _, _ => intro
      end ].
Qed.

Lemma ro_accessibility_shouldBlockApp os p :
  reads_prefs_only (Kt.AppBlockingAccessibilityService.shouldBlockApp os p).
Proof.
  unfold Kt.AppBlockingAccessibilityService.shouldBlockApp, Kt.parseStringArray,
    Kt.parseLimitsMap.
  repeat first
    [ apply ro_getString | apply ro_ret | apply ro_emit | apply ro_lift | apply ro_throw
    | apply ro_catch | apply ro_bind
    | match goal with
      | |- reads_prefs_only (if ?b then _ else _) => destruct b
      | |- reads_prefs_only (match ?x with _ => _ end) => destruct x
      | |- ∀ _, _ => intro
      end ];
    apply ro_getCurrentUsage.
Qed.

Lemma ro_service_shouldBlockApp os p :
  reads_prefs_only (Kt.BlockingService.shouldBlockApp os p).
Proof.
  unfold Kt.BlockingService.shouldBlockApp, Kt.parseStringArray, Kt.parseLimitsMap.
  repeat first
    [ apply ro_getString | apply ro_ret | apply ro_emit | apply ro_lift | apply ro_throw
    | apply ro_catch | apply ro_bind
    | match goal with
      | |- reads_prefs_only (if ?b then _ else _) => destruct b
      | |- reads_prefs_only (match ?x with _ => _ end) => destruct x
      | |- ∀ _, _ => intro
      end ];
    apply ro_getCurrentUsage.
Qed.

Lemma ro_getForegroundApp os : reads_prefs_only (Kt.BlockingService.getForegroundApp os).
Proof.
  unfold Kt.BlockingService.getForegroundApp.
  repeat first
    [ apply ro_getString | apply ro_ret | apply ro_emit | apply ro_lift | apply ro_throw
    | apply ro_catch | apply ro_bind
    | match goal with
      | |- reads_prefs_only (if ?b then _ else _) => destruct b
      | |- reads_prefs_only (match ?x with _ => _ end) => destruct x
      | |- ∀ _, _ => intro
      end ].
Qed.

Lemma ro_onAccessibilityEvent os event :
  reads_prefs_only (Kt.AppBlockingAccessibilityService.onAccessibilityEvent os event).
Proof.
  unfold Kt.AppBlockingAccessibilityService.onAccessibilityEvent,
    Kt.AppBlockingAccessibilityService.blockApp.
  repeat first
    [ apply ro_getString | apply ro_ret | apply ro_emit | apply ro_lift | apply ro_throw
    | apply ro_catch | apply ro_bind
    | match goal with
      | |- reads_prefs_only (if ?b then _ else _) => destruct b
      | |- reads_prefs_only (match ?x with _ => _ end) => destruct x
      | |- ∀ _, _ => intro
      end ];
    apply ro_accessibility_shouldBlockApp.
Qed.

(** X24. The accessibility service does not know whether the polling
    service runs.  An accessibility event, both shouldBlockApp and the
    foreground query of the polling service only read the shared
    preferences: on a device with the same preferences they make the same
    calls with the same result whatever the state of the check task, and
    they leave the device as it is.  So after stopBlockingService, and after
    any start or stop command, an accessibility event still blocks what it
    blocked before. *)
Theorem accessibility_ignores_service_state (os : Kt.Android) (dev : Kt.Device) :
  (∀ event, reads_prefs_only (Kt.AppBlockingAccessibilityService.onAccessibilityEvent os event)) ∧
  (∀ p, reads_prefs_only (Kt.AppBlockingAccessibilityService.shouldBlockApp os p)) ∧
  (∀ p, reads_prefs_only (Kt.BlockingService.shouldBlockApp os p)) ∧
  reads_prefs_only (Kt.BlockingService.getForegroundApp os) ∧
  (∀ event,
     let stopped := state_of (Kt.BlockingServiceModuleImpl.stopBlockingService dev) in
     Kt.AppBlockingAccessibilityService.onAccessibilityEvent os event stopped
     = (stopped,
        trace_of (Kt.AppBlockingAccessibilityService.onAccessibilityEvent os event dev),
        value_of (Kt.AppBlockingAccessibilityService.onAccessibilityEvent os event dev))) ∧
  (∀ event commands,
     trace_of (Kt.AppBlockingAccessibilityService.onAccessibilityEvent os event
                 (after_commands dev commands))
     = trace_of (Kt.AppBlockingAccessibilityService.onAccessibilityEvent os event dev)).
Proof.
  split; [intros event; apply ro_onAccessibilityEvent|].
  split; [intros p; apply ro_accessibility_shouldBlockApp|].
  split; [intros p; apply ro_service_shouldBlockApp|].
  split; [apply ro_getForegroundApp|]. split.
  - intros event. simpl. apply (ro_onAccessibilityEvent os event dev false).
  - intros event commands.
    assert (Hdev : after_commands dev commands
                   = {| Kt.prefs := Kt.prefs dev;
                        Kt.checkTask := Kt.checkTask (after_commands dev commands) |}).
    { induction commands as [|action commands IH] using rev_ind.
      - by destruct dev.
      - rewrite after_commands_snoc, onStartCommand_state. simpl. f_equal.
        by rewrite IH. }
    rewrite Hdev. by rewrite (ro_onAccessibilityEvent os event dev).
Qed.
